(** * JJBoard: the client-side market-data synchronisation core

    A shallow embedding of [services/binanceService.ts] (the quote-asset
    resolver and the [BinanceService] class) together with the record
    shapes of [types.ts], and the properties of the design document that
    concern them.

    Conventions of the embedding.
    - JavaScript objects that are mutated in place live in an explicit
      object store; the ticker map binds a symbol to the address of its
      record, and the [Map] copies handed to subscribers share those
      addresses, exactly as [new Map(this.tickerMap)] does.
    - An [async] method is split at its [await]s: the synchronous prefix
      and the synchronous continuation are separate handlers, and the
      replies of the network are inputs of the continuation.
    - Every handler returns the new state together with the list of
      effects it performed, in program order (callbacks invoked, requests
      issued, timers armed or cleared, sockets opened or closed).  Console
      output is not modelled.
    - JavaScript numbers are an interface ([JSNumber]): the properties
      below only depend on which parsed value is stored where. *)

From Stdlib Require Import Ascii QArith Qpower Qminmax.
From stdpp Require Import gmap strings list fin_maps.

Local Open Scope string_scope.
Local Open Scope list_scope.

(** ** Strings *)

Module JSString.

(** [String.prototype.endsWith]: the search string is compared with the
    last [length search] characters of [s]. *)
Definition endsWith (s search : string) : bool :=
  let len := String.length s in
  let searchLength := String.length search in
  if (searchLength <=? len)%nat
  then String.eqb (String.substring (len - searchLength) searchLength s) search
  else false.

(** [String.prototype.startsWith] at position 0. *)
Fixpoint startsWith (s search : string) {struct search} : bool :=
  match search, s with
  | EmptyString, _ => true
  | String a search', String b s' =>
      if Ascii.eqb a b then startsWith s' search' else false
  | String _ _, EmptyString => false
  end.

(** [String.prototype.includes]: some position of [s] starts with
    [search]. *)
Fixpoint includes (s search : string) : bool :=
  startsWith s search ||
  match s with
  | EmptyString => false
  | String _ s' => includes s' search
  end.

(** Specification-level suffix relation. *)
Definition isSuffixOf (a s : string) : Prop :=
  exists p : string, s = String.append p a.

(** Specification-level substring relation. *)
Definition isSubstringOf (a s : string) : Prop :=
  exists p q : string, s = String.append p (String.append a q).

End JSString.

(** ** Quote-asset resolver *)

(** Comprehensive list of known quote assets (priority order). *)
Definition KNOWN_QUOTE_ASSETS : list string :=
  [ (* Stablecoins *)
    "USDT"; "FDUSD"; "USDC"; "TUSD"; "BUSD"; "USDP"; "DAI"; "EURI"; "AEUR";
    "VAI"; "IDRT";
    (* Major crypto quotes *)
    "BTC"; "ETH"; "BNB"; "SOL"; "XRP"; "TRX"; "DOGE"; "DOT";
    (* Fiats *)
    "EUR"; "TRY"; "BRL"; "JPY"; "ZAR"; "IDR"; "RUB"; "GBP"; "AUD"; "COP";
    "MXN"; "ARS"; "NGN"; "UAH"; "PLN"; "RON"; "KZT"; "VND" ].

(** The [for (const asset of assets)] loop of [getQuoteAsset], with its
    early [return]. *)
Fixpoint firstQuoteAsset (assets : list string) (symbol : string)
  : option string :=
  match assets with
  | [] => None
  | asset :: rest =>
      if JSString.endsWith symbol asset then Some asset
      else firstQuoteAsset rest symbol
  end.

Definition getQuoteAsset (symbol : string) : option string :=
  firstQuoteAsset KNOWN_QUOTE_ASSETS symbol.

(** ** Numbers

    A type [number] stands for the JavaScript number type when it comes
    with [parseFloat], the global function of that name (applied to the
    decimal strings of the exchange's JSON), and [zero], the literal [0]. *)

Class JSNumber (number : Type) : Type := {
  parseFloat : string -> number;
  zero : number;
}.

(** A reading of [parseFloat] on plain decimal literals (optional sign,
    digits, optional fraction, optional exponent), exact over the
    rationals; anything else is [NaN].  It serves to run the model on the
    scenarios of the design document, whose strings are such literals.
    It is not [parseFloat] on strings with leading white space or on
    [Infinity], and where the nearest double differs from the literal it
    keeps the exact rational; the runs below only tell which literal was
    stored where, and the general statements are over an arbitrary
    [JSNumber]. *)
Module Decimal.

Inductive t : Type := NaN | Dec (q : Q).

Definition digit (ch : Ascii.ascii) : option Z :=
  let n := Z.of_N (Ascii.N_of_ascii ch) in
  if (48 <=? n)%Z && (n <=? 57)%Z then Some (n - 48)%Z else None.

(** Reads a run of digits: accumulated value, number of digits read and
    the unread rest. *)
Fixpoint digits (s : string) (acc : Z) (read : nat) : Z * nat * string :=
  match s with
  | EmptyString => (acc, read, s)
  | String ch rest =>
      match digit ch with
      | Some d => digits rest (10 * acc + d)%Z (S read)
      | None => (acc, read, s)
      end
  end.

(** The mantissa digits with the decimal point removed, how many there
    are, how many of them follow the point, and the unread rest. *)
Definition mantissa (s : string) : Z * nat * nat * string :=
  let '(int, nint, rest) := digits s 0%Z 0%nat in
  match rest with
  | String "."%char frac =>
      let '(all, nall, rest') := digits frac int nint in
      (all, nall, (nall - nint)%nat, rest')
  | _ => (int, nint, 0%nat, rest)
  end.

(** The exponent part, 0 when there is none. *)
Definition exponent (s : string) : Z :=
  match s with
  | String ch rest =>
      if Ascii.eqb ch "e" || Ascii.eqb ch "E" then
        match rest with
        | String "-"%char ds =>
            let '(x, n, _) := digits ds 0%Z 0%nat in (- x)%Z
        | String "+"%char ds =>
            let '(x, n, _) := digits ds 0%Z 0%nat in x
        | _ => let '(x, n, _) := digits rest 0%Z 0%nat in x
        end
      else 0%Z
  | EmptyString => 0%Z
  end.

Definition scale (m : Z) (k : Z) : Q :=
  if (0 <=? k)%Z then inject_Z (m * 10 ^ k)
  else Qmake m (Z.to_pos (10 ^ (- k))).

Definition unsigned (s : string) : t :=
  let '(m, n, nfrac, rest) := mantissa s in
  if Nat.eqb n 0 then NaN
  else Dec (Qred (scale m (exponent rest - Z.of_nat nfrac))).

Definition negate (x : t) : t :=
  match x with NaN => NaN | Dec q => Dec (Qred (Qopp q)) end.

Definition parse (s : string) : t :=
  match s with
  | String "-"%char rest => negate (unsigned rest)
  | String "+"%char rest => unsigned rest
  | _ => unsigned s
  end.

End Decimal.

#[export] Instance decimalNumber : JSNumber Decimal.t :=
  {| parseFloat := Decimal.parse; zero := Decimal.Dec 0 |}.

(** ** Wire formats ([types.ts] and the REST payloads the service reads) *)

(** An element of a stream payload. *)
Module BinanceTickerWS.
Record t : Type := mk {
  s : string;          (* Symbol *)
  c : string;          (* Last Price *)
  v : string;          (* Total Traded Base Asset Volume *)
  q : string;          (* Total Traded Quote Asset Volume (Turnover) *)
  P : string;          (* Price change percent *)
  e : option string;   (* Event type *)
}.
End BinanceTickerWS.

(** The combined-stream envelope.  [data] is an array, a single object, or
    missing ([NoData]: the falsy case of [if (!message.data) return]). *)
Module BinanceStreamMessage.
Inductive payload : Type :=
| NoData
| Single (item : BinanceTickerWS.t)
| Many (items : list BinanceTickerWS.t).
Record t : Type := mk { stream : string; data : payload }.
End BinanceStreamMessage.

(** What [JSON.parse(event.data)] makes of a frame. *)
Inductive Frame : Type :=
| Garbled                                   (* [JSON.parse] throws *)
| Envelope (message : BinanceStreamMessage.t).

(** An element of [/api/v3/ticker/24hr]. *)
Module TickerItem.
Record t : Type := mk {
  symbol : string;
  count : N;
  lastPrice : string;
  quoteVolume : string;
  priceChangePercent : string;
}.
End TickerItem.

(** An element of [exchangeInfo.symbols]. *)
Module SymbolInfo.
Record t : Type := mk { symbol : string; status : string }.
End SymbolInfo.

(** The outcome of [fetch(url)] followed by reading its JSON body.
    [NetworkError]: the [fetch] promise rejects.  Otherwise the response
    has a status code and a body, which is not JSON ([json()] rejects), is
    JSON of another shape than the caller tests for, or has that shape. *)
Inductive Body (A : Type) : Type :=
| NotJson
| OtherShape
| Shaped (a : A).
Arguments NotJson {A}.
Arguments OtherShape {A}.
Arguments Shaped {A} a.

Inductive HttpResult (A : Type) : Type :=
| NetworkError
| Http (status : nat) (body : Body A).
Arguments NetworkError {A}.
Arguments Http {A} status body.

(** [Response.ok]: the status is in the range 200-299. *)
Definition ok (status : nat) : bool :=
  (200 <=? status)%nat && (status <=? 299)%nat.

(** The two replies of one snapshot origin: the ticker listing (shape: an
    array) and the exchange information (shape: an object whose [symbols]
    is an array).  The loops read the elements as [any]: an element of
    either array is an object ([Some], with the properties the loop
    reads) or [null] ([None]), on which the property access of the loop
    body throws. *)
Record OriginReply : Type := mkOriginReply {
  tickerRes : HttpResult (list (option TickerItem.t));
  exchangeInfoRes : HttpResult (list (option SymbolInfo.t));
}.

(** The elements of an array none of which is [null]. *)
Fixpoint allObjects {A : Type} (elements : list (option A)) : option (list A) :=
  match elements with
  | [] => Some []
  | None :: _ => None
  | Some a :: rest =>
      match allObjects rest with
      | Some objs => Some (a :: objs)
      | None => None
      end
  end.

(** The elements of an array that precede its first [null]. *)
Fixpoint beforeNull {A : Type} (elements : list (option A)) : list A :=
  match elements with
  | [] => []
  | None :: _ => []
  | Some a :: rest => a :: beforeNull rest
  end.

(** The reply of one windowed-ticker request of the backfill.  Shape: a
    truthy JSON value, given by its [priceChangePercent] property ([None]
    when it has none); [OtherShape] is a falsy JSON value. *)
Definition DetailReply : Type := HttpResult (option string).

(** ** The normalized record and the state of the service *)

Section Service.
Context {number : Type} {Num : JSNumber number}.

(** The optional descriptive fields of [TickerData] (extended asset
    metadata).  The service never reads or writes them; object literals
    built by the service leave all of them undefined. *)
Record Descriptive : Type := mkDescriptive {
  iconUrl : option string;
  chainIconUrl : option string;
  chainName : option string;
  contractAddress : option string;
  name : option string;
  marketCap : option number;
  fdv : option number;
  liquidity : option number;
  totalSupply : option number;
  circulatingSupply : option number;
  holders : option number;
  listingTime : option number;
}.

Definition noDescriptive : Descriptive :=
  mkDescriptive None None None None None None None None None None None None.

(** [TickerData]; an optional field is [None] when it is [undefined]. *)
Record TickerData : Type := mkTickerData {
  symbol : string;
  price : number;
  volume : number;
  changePercent1h : option number;
  changePercent4h : option number;
  changePercent24h : number;
  descriptive : Descriptive;
}.

(** Field assignments [item.f = x]. *)
Definition set_price (x : number) (r : TickerData) : TickerData :=
  mkTickerData (symbol r) x (volume r) (changePercent1h r)
    (changePercent4h r) (changePercent24h r) (descriptive r).
Definition set_volume (x : number) (r : TickerData) : TickerData :=
  mkTickerData (symbol r) (price r) x (changePercent1h r)
    (changePercent4h r) (changePercent24h r) (descriptive r).
Definition set_changePercent1h (x : option number) (r : TickerData)
  : TickerData :=
  mkTickerData (symbol r) (price r) (volume r) x
    (changePercent4h r) (changePercent24h r) (descriptive r).
Definition set_changePercent4h (x : option number) (r : TickerData)
  : TickerData :=
  mkTickerData (symbol r) (price r) (volume r) (changePercent1h r)
    x (changePercent24h r) (descriptive r).
Definition set_changePercent24h (x : number) (r : TickerData) : TickerData :=
  mkTickerData (symbol r) (price r) (volume r) (changePercent1h r)
    (changePercent4h r) x (descriptive r).

(** Callbacks are compared by identity ([cb !== callback]); a callback
    is represented by its identity. *)
Definition Callback : Type := nat.

Inductive ReadyState : Type := CONNECTING | OPEN | CLOSING | CLOSED.

(** A [WebSocket] object: [onclose] and [onerror] tell whether the
    handler installed by [connectWebSocket] is still attached
    ([disconnect] sets both to [null]); [onopen] and [onmessage] are
    never detached. *)
Record WebSocket : Type := mkWebSocket {
  url : string;
  readyState : ReadyState;
  onclose : bool;
  onerror : bool;
}.

(** The private fields of [BinanceService] ([ws] to [pendingFetches]),
    followed by the part of the JavaScript runtime they refer to: the
    store of record objects, the sockets created so far, the armed
    timers with their delays and the next timer id, and the origin index
    each running [fetchInitialSnapshot] is awaiting. *)
Record State : Type := mkState {
  ws : option nat;
  subscribers : list Callback;
  statusSubscribers : list Callback;
  tickerMap : gmap string nat;
  reconnectAttempt : nat;
  reconnectTimeoutId : option nat;
  endpointIndex : nat;
  pendingFetches : gset string;
  objects : list TickerData;
  sockets : list WebSocket;
  timers : gmap nat Q;
  timerSeq : nat;
  snapshotAwaiting : list nat;
}.

Definition set_ws (x : option nat) (st : State) : State :=
  mkState x (subscribers st) (statusSubscribers st) (tickerMap st)
    (reconnectAttempt st) (reconnectTimeoutId st) (endpointIndex st)
    (pendingFetches st) (objects st) (sockets st) (timers st)
    (timerSeq st) (snapshotAwaiting st).

Definition set_subscribers (x : list Callback) (st : State) : State :=
  mkState (ws st) x (statusSubscribers st) (tickerMap st) (reconnectAttempt
    st) (reconnectTimeoutId st) (endpointIndex st) (pendingFetches st)
    (objects st) (sockets st) (timers st) (timerSeq st)
    (snapshotAwaiting st).

Definition set_statusSubscribers (x : list Callback) (st : State) : State :=
  mkState (ws st) (subscribers st) x (tickerMap st) (reconnectAttempt st)
    (reconnectTimeoutId st) (endpointIndex st) (pendingFetches st)
    (objects st) (sockets st) (timers st) (timerSeq st)
    (snapshotAwaiting st).

Definition set_tickerMap (x : gmap string nat) (st : State) : State :=
  mkState (ws st) (subscribers st) (statusSubscribers st) x
    (reconnectAttempt st) (reconnectTimeoutId st) (endpointIndex st)
    (pendingFetches st) (objects st) (sockets st) (timers st)
    (timerSeq st) (snapshotAwaiting st).

Definition set_reconnectAttempt (x : nat) (st : State) : State :=
  mkState (ws st) (subscribers st) (statusSubscribers st) (tickerMap st) x
    (reconnectTimeoutId st) (endpointIndex st) (pendingFetches st)
    (objects st) (sockets st) (timers st) (timerSeq st)
    (snapshotAwaiting st).

Definition set_reconnectTimeoutId (x : option nat) (st : State) : State :=
  mkState (ws st) (subscribers st) (statusSubscribers st) (tickerMap st)
    (reconnectAttempt st) x (endpointIndex st) (pendingFetches st)
    (objects st) (sockets st) (timers st) (timerSeq st)
    (snapshotAwaiting st).

Definition set_endpointIndex (x : nat) (st : State) : State :=
  mkState (ws st) (subscribers st) (statusSubscribers st) (tickerMap st)
    (reconnectAttempt st) (reconnectTimeoutId st) x (pendingFetches
    st) (objects st) (sockets st) (timers st) (timerSeq st)
    (snapshotAwaiting st).

Definition set_pendingFetches (x : gset string) (st : State) : State :=
  mkState (ws st) (subscribers st) (statusSubscribers st) (tickerMap st)
    (reconnectAttempt st) (reconnectTimeoutId st) (endpointIndex st) x
    (objects st) (sockets st) (timers st) (timerSeq st)
    (snapshotAwaiting st).

Definition set_objects (x : list TickerData) (st : State) : State :=
  mkState (ws st) (subscribers st) (statusSubscribers st) (tickerMap st)
    (reconnectAttempt st) (reconnectTimeoutId st) (endpointIndex st)
    (pendingFetches st) x (sockets st) (timers st) (timerSeq st)
    (snapshotAwaiting st).

Definition set_sockets (x : list WebSocket) (st : State) : State :=
  mkState (ws st) (subscribers st) (statusSubscribers st) (tickerMap st)
    (reconnectAttempt st) (reconnectTimeoutId st) (endpointIndex st)
    (pendingFetches st) (objects st) x (timers st) (timerSeq st)
    (snapshotAwaiting st).

Definition set_timers (x : gmap nat Q) (st : State) : State :=
  mkState (ws st) (subscribers st) (statusSubscribers st) (tickerMap st)
    (reconnectAttempt st) (reconnectTimeoutId st) (endpointIndex st)
    (pendingFetches st) (objects st) (sockets st) x (timerSeq st)
    (snapshotAwaiting st).

Definition set_timerSeq (x : nat) (st : State) : State :=
  mkState (ws st) (subscribers st) (statusSubscribers st) (tickerMap st)
    (reconnectAttempt st) (reconnectTimeoutId st) (endpointIndex st)
    (pendingFetches st) (objects st) (sockets st) (timers st) x
    (snapshotAwaiting st).

Definition set_snapshotAwaiting (x : list nat) (st : State) : State :=
  mkState (ws st) (subscribers st) (statusSubscribers st) (tickerMap st)
    (reconnectAttempt st) (reconnectTimeoutId st) (endpointIndex st)
    (pendingFetches st) (objects st) (sockets st) (timers st)
    (timerSeq st) x.

(** [new BinanceService()]. *)
Definition initial : State :=
  mkState None [] [] ∅ 0 None 0 ∅ [] [] ∅ 1 [].

(** What a handler does to the world outside the service. *)
Inductive Effect : Type :=
| CallData (cb : Callback) (snapshot : gmap string nat)
| CallStatus (cb : Callback) (displayUrl : string)
| HttpGet (target : string)
| NewWebSocket (target : string)
| SocketClose (sock : nat)
| SetTimeout (id : nat) (delay : Q)
| ClearTimeout (id : nat).

Definition Action : Type := State -> State * list Effect.

Definition skip : Action := fun st => (st, []).

Definition andThen (a b : Action) : Action :=
  fun st =>
    let r1 := a st in
    let r2 := b (fst r1) in
    (fst r2, snd r1 ++ snd r2).

Definition update (f : State -> State) : Action := fun st => (f st, []).

Definition perform (e : Effect) : Action := fun st => (st, [e]).

End Service.

Arguments Descriptive : clear implicits.
Arguments TickerData : clear implicits.
Arguments State : clear implicits.
Arguments Action : clear implicits.

Infix ">>" := andThen (at level 61, left associativity).

(** ** Endpoints *)

(** Combined stream to get 24h, 1h and 4h tickers simultaneously. *)
Definition STREAMS : string := "?streams=!ticker@arr/!ticker_1h@arr/!ticker_4h@arr".

Definition BASE_WS_URLS : list string :=
  [ "wss://data-stream.binance.vision/stream" +:+ STREAMS;
    "wss://stream.binance.com:443/stream" +:+ STREAMS;
    "wss://stream.binance.com:9443/stream" +:+ STREAMS;
    "wss://data-stream.binance.com/stream" +:+ STREAMS ].

(** Public API domains tried in this order by the snapshot loader. *)
Definition apiDomains : list string :=
  [ "https://data-api.binance.vision";
    "https://api.binance.com";
    "https://api-gcp.binance.com" ].

Definition maxReconnectDelay : Q := 10000.

(** [new URL(u).origin] for the URLs above: scheme, host, and the port
    unless it is the default port of the scheme. *)
Module Url.

(** The characters before the first one satisfying [stop], and the rest
    from that character on. *)
Fixpoint break (stop : ascii -> bool) (u : string) : string * string :=
  match u with
  | EmptyString => (EmptyString, EmptyString)
  | String ch rest =>
      if stop ch then (EmptyString, u)
      else let r := break stop rest in (String ch (fst r), snd r)
  end.

Definition isChar (x : ascii) (ch : ascii) : bool := Ascii.eqb x ch.

Definition endsAuthority (ch : ascii) : bool :=
  isChar "/" ch || isChar "?" ch || isChar "#" ch.

Definition defaultPort (scheme : string) : string :=
  if String.eqb scheme "wss" then "443"
  else if String.eqb scheme "https" then "443"
  else if String.eqb scheme "ws" then "80"
  else if String.eqb scheme "http" then "80"
  else "".

Definition origin (u : string) : string :=
  let (scheme, afterScheme) := break (isChar ":") u in
  let authority := fst (break endsAuthority
                          (String.substring 3 (String.length afterScheme) afterScheme)) in
  let (host, afterHost) := break (isChar ":") authority in
  let port := String.substring 1 (String.length afterHost) afterHost in
  if String.eqb port "" || String.eqb port (defaultPort scheme)
  then scheme +:+ "://" +:+ host
  else scheme +:+ "://" +:+ host +:+ ":" +:+ port.

End Url.

(** The display URL computed by [emitStatus]: the origin of the current
    endpoint.  [endpointIndex] never leaves the range of [BASE_WS_URLS]
    (see [endpointIndex_in_range]); outside it the result is left empty. *)
Definition displayUrl (endpointIndex : nat) : string :=
  match BASE_WS_URLS !! endpointIndex with
  | Some fullUrl => Url.origin fullUrl
  | None => ""
  end.

(** [Math.min(1000 * Math.pow(1.5, attempt), maxReconnectDelay)], over the
    rationals.  The products 1000 * 1.5^n below the ceiling (n <= 5) are
    binary fractions that doubles represent exactly, and from n = 6 on the
    product exceeds the ceiling, so the double computed by the source is
    this rational. *)
Definition reconnectDelay (attempt : nat) : Q :=
  Qmin (1000 * (3 # 2) ^ Z.of_nat attempt) maxReconnectDelay.

(** The field group of a stream name, as [onmessage] classifies it. *)
Inductive FieldGroup : Type := Group24h | Group1h | Group4h.

(** The stream name decides the group: the 1-hour marker is looked for
    first, then the 4-hour marker, and a name with neither is a 24-hour
    stream. *)
Definition groupOf (streamName : string) : FieldGroup :=
  if JSString.includes streamName "1h" then Group1h
  else if JSString.includes streamName "4h" then Group4h
  else Group24h.

(** ** The methods of [BinanceService] *)

Section Methods.
Context {number : Type} {Num : JSNumber number}.

(** [notify]: one [Map] copy, handed to every data subscriber. *)
Definition notify : Action number :=
  fun st =>
    let snapshot := tickerMap st in
    (st, map (fun cb => CallData cb snapshot) (subscribers st)).

(** [emitStatus(specificCallback?)]. *)
Definition emitStatus (specificCallback : option Callback) : Action number :=
  fun st =>
    let targets := match specificCallback with
                   | Some cb => [cb]
                   | None => statusSubscribers st
                   end in
    (st, map (fun cb => CallStatus cb (displayUrl (endpointIndex st))) targets).

(** [clearTimeout(id)]. *)
Definition clearTimeout (id : nat) : Action number :=
  fun st => (set_timers (delete id (timers st)) st, [ClearTimeout id]).

(** [setTimeout(() => this.connectWebSocket(), delay)], stored in
    [reconnectTimeoutId]. *)
Definition armReconnectTimer (delay : Q) : Action number :=
  fun st =>
    let id := timerSeq st in
    (set_reconnectTimeoutId (Some id)
       (set_timerSeq (S id) (set_timers (<[id := delay]> (timers st)) st)),
     [SetTimeout id delay]).

(** [scheduleReconnect]. *)
Definition scheduleReconnect : Action number :=
  fun st =>
    (update (set_endpointIndex
               ((endpointIndex st + 1) mod length BASE_WS_URLS))
     >> emitStatus None
     >> update (set_reconnectAttempt (S (reconnectAttempt st)))
     >> (match reconnectTimeoutId st with
         | Some id => clearTimeout id
         | None => skip
         end)
     >> armReconnectTimer (reconnectDelay (reconnectAttempt st))) st.

(** [if (this.reconnectTimeoutId) { clearTimeout(...); ... = null }]. *)
Definition cancelReconnectTimer : Action number :=
  fun st =>
    match reconnectTimeoutId st with
    | Some id => (clearTimeout id >> update (set_reconnectTimeoutId None)) st
    | None => (st, [])
    end.

(** The guard of [connectWebSocket]: a socket is held and it is open or
    connecting. *)
Definition connectedOrConnecting (st : State number) : bool :=
  match ws st with
  | Some k =>
      match sockets st !! k with
      | Some sock =>
          match readyState sock with
          | OPEN | CONNECTING => true
          | CLOSING | CLOSED => false
          end
      | None => false
      end
  | None => false
  end.

(** [this.ws = new WebSocket(url)] with the four handlers installed. *)
Definition openWebSocket (target : string) : Action number :=
  fun st =>
    (set_ws (Some (length (sockets st)))
       (set_sockets (sockets st ++ [mkWebSocket target CONNECTING true true]) st),
     [NewWebSocket target]).

(** [connectWebSocket].  [constructorThrows] tells whether
    [new WebSocket(url)] throws. *)
Definition connectWebSocket (constructorThrows : bool) : Action number :=
  fun st =>
    if connectedOrConnecting st then (st, [])
    else
      (cancelReconnectTimer
       >> emitStatus None
       >> (if constructorThrows then scheduleReconnect
           else openWebSocket (default "" (BASE_WS_URLS !! endpointIndex st)))) st.

(** [ws.close()]: starts closing unless the socket is already closing
    or closed. *)
Definition closeWebSocket (k : nat) : Action number :=
  fun st =>
    match sockets st !! k with
    | Some sock =>
        match readyState sock with
        | CONNECTING | OPEN =>
            (set_sockets
               (<[k := mkWebSocket (url sock) CLOSING (onclose sock) (onerror sock)]>
                  (sockets st)) st,
             [SocketClose k])
        | CLOSING | CLOSED => (st, [SocketClose k])
        end
    | None => (st, [])
    end.

(** [ws.onopen]. *)
Definition onopen : Action number :=
  update (set_reconnectAttempt 0) >> emitStatus None.

(** [ws.onclose]. *)
Definition onclose_handler : Action number :=
  update (set_ws None) >> emitStatus None >> scheduleReconnect.

(** [ws.onerror]. *)
Definition onerror_handler : Action number :=
  fun st =>
    match ws st with
    | Some k =>
        match sockets st !! k with
        | Some sock =>
            match readyState sock with
            | CLOSED => (st, [])
            | _ => closeWebSocket k st
            end
        | None => (st, [])
        end
    | None => (st, [])
    end.

(** [disconnect]. *)
Definition disconnect : Action number :=
  cancelReconnectTimer
  >> (fun st =>
        match ws st with
        | Some k =>
            (update (fun st =>
                       set_sockets
                         (alter (fun sock =>
                                   mkWebSocket (url sock) (readyState sock) false false)
                                k (sockets st)) st)
             >> closeWebSocket k
             >> update (set_ws None)) st
        | None => (st, [])
        end).

(** [subscribe(callback)] and the function it returns. *)
Definition subscribe (callback : Callback) : Action number :=
  update (fun st => set_subscribers (subscribers st ++ [callback]) st)
  >> (fun st =>
        if (0 <? size (tickerMap st))%nat
        then (st, [CallData callback (tickerMap st)])
        else (st, [])).

Definition unsubscribe (callback : Callback) : Action number :=
  update (fun st =>
            set_subscribers
              (filter (fun cb => cb <> callback) (subscribers st)) st).

(** [subscribeStatus(callback)] and the function it returns. *)
Definition subscribeStatus (callback : Callback) : Action number :=
  update (fun st => set_statusSubscribers (statusSubscribers st ++ [callback]) st)
  >> emitStatus (Some callback).

Definition unsubscribeStatus (callback : Callback) : Action number :=
  update (fun st =>
            set_statusSubscribers
              (filter (fun cb => cb <> callback) (statusSubscribers st)) st).

End Methods.

Section Merge.
Context {number : Type} {Num : JSNumber number}.

(** *** Stream messages *)

(** The three flags computed by [onmessage] from the stream name. *)
Definition is1h (streamName : string) : bool := JSString.includes streamName "1h".
Definition is4h (streamName : string) : bool := JSString.includes streamName "4h".
Definition is24h (streamName : string) : bool :=
  negb (is1h streamName) && negb (is4h streamName).

(** The group-specific field writes on [existing]. *)
Definition applyUpdate (streamName : string) (item : BinanceTickerWS.t)
    (existing : TickerData number) : TickerData number :=
  if is24h streamName then
    set_changePercent24h (parseFloat (BinanceTickerWS.P item))
      (set_volume (parseFloat (BinanceTickerWS.q item))
         (set_price (parseFloat (BinanceTickerWS.c item)) existing))
  else if is1h streamName then
    set_changePercent1h (Some (parseFloat (BinanceTickerWS.P item)))
      (set_price (parseFloat (BinanceTickerWS.c item)) existing)
  else if is4h streamName then
    set_changePercent4h (Some (parseFloat (BinanceTickerWS.P item)))
      (set_price (parseFloat (BinanceTickerWS.c item)) existing)
  else existing.

(** The object literal used when the map has no record for the symbol. *)
Definition freshRecord (sym : string) : TickerData number :=
  mkTickerData sym zero zero None None zero noDescriptive.

(** The body of [rawData.forEach]: [existing] is the object already in
    the map (updated in place) or a new object; either way the map is
    then set to it. *)
Definition mergeItem (streamName : string) (st : State number)
    (item : BinanceTickerWS.t) : State number :=
  let sym := BinanceTickerWS.s item in
  let existing :=
    match tickerMap st !! sym with
    | Some l => (l, objects st)
    | None => (length (objects st), objects st ++ [freshRecord sym])
    end in
  set_tickerMap (<[sym := fst existing]> (tickerMap st))
    (set_objects (alter (applyUpdate streamName item) (fst existing) (snd existing)) st).

Definition rawData (data : BinanceStreamMessage.payload)
  : option (list BinanceTickerWS.t) :=
  match data with
  | BinanceStreamMessage.NoData => None
  | BinanceStreamMessage.Single item => Some [item]
  | BinanceStreamMessage.Many items => Some items
  end.

(** [ws.onmessage]. *)
Definition onmessage (frame : Frame) : Action number :=
  match frame with
  | Garbled => skip
  | Envelope message =>
      match rawData (BinanceStreamMessage.data message) with
      | None => skip
      | Some items =>
          update (fun st =>
                    foldl (mergeItem (BinanceStreamMessage.stream message)) st items)
          >> notify
      end
  end.

(** *** Snapshot loader *)

(** What one origin goes through before its first write: the two [ok]
    tests, the two [json()] calls, the two [Array.isArray] tests and the
    loop over [exchangeInfoData.symbols], in which [s.status] throws on a
    [null] element.  [None] when one of them throws; otherwise the ticker
    array as received and the symbols listed. *)
Definition checkOrigin (reply : OriginReply)
  : option (list (option TickerItem.t) * list SymbolInfo.t) :=
  match tickerRes reply, exchangeInfoRes reply with
  | Http tickerStatus tickerBody, Http infoStatus infoBody =>
      if negb (ok tickerStatus) then None
      else if negb (ok infoStatus) then None
      else match tickerBody, infoBody with
           | Shaped tickerData, Shaped symbols =>
               match allObjects symbols with
               | Some listed => Some (tickerData, listed)
               | None => None
               end
           | _, _ => None
           end
  | _, _ => None
  end.

(** The origins whose [try] block runs to its end: the checks pass and no
    element of the ticker array is [null]. *)
Definition acceptOrigin (reply : OriginReply)
  : option (list TickerItem.t * list SymbolInfo.t) :=
  match checkOrigin reply with
  | Some (tickerData, symbols) =>
      match allObjects tickerData with
      | Some items => Some (items, symbols)
      | None => None
      end
  | None => None
  end.

(** The whitelist of symbols whose status is TRADING. *)
Definition tradingSymbols (symbols : list SymbolInfo.t) : gset string :=
  foldl (fun (acc : gset string) (si : SymbolInfo.t) =>
           if String.eqb (SymbolInfo.status si) "TRADING"
           then acc ∪ {[ SymbolInfo.symbol si ]}
           else acc)
        ∅ symbols.

Definition snapshotRecord (item : TickerItem.t) : TickerData number :=
  mkTickerData (TickerItem.symbol item)
    (parseFloat (TickerItem.lastPrice item))
    (parseFloat (TickerItem.quoteVolume item))
    None None
    (parseFloat (TickerItem.priceChangePercent item))
    noDescriptive.

(** The body of [tickerData.forEach]: a new object is set for every
    listed symbol that is trading and has a nonzero trade count. *)
Definition loadItem (whitelist : gset string) (st : State number)
    (item : TickerItem.t) : State number :=
  if negb (bool_decide (TickerItem.symbol item ∈ whitelist)) then st
  else if N.eqb (TickerItem.count item) 0 then st
  else
    set_tickerMap (<[TickerItem.symbol item := length (objects st)]> (tickerMap st))
      (set_objects (objects st ++ [snapshotRecord item]) st).

(** [tickerData.forEach]: the elements are loaded in order; on a [null]
    element [item.symbol] throws, which ends the loop with the writes made
    so far in place.  The flag tells whether the loop ran to its end. *)
Fixpoint loadItems (whitelist : gset string) (st : State number)
    (tickerData : list (option TickerItem.t)) : State number * bool :=
  match tickerData with
  | [] => (st, true)
  | None :: _ => (st, false)
  | Some item :: rest => loadItems whitelist (loadItem whitelist st item) rest
  end.

(** The [try] block of one origin after the [await]: the state it leaves
    and whether it reached [this.notify()]. *)
Definition tryOrigin (reply : OriginReply) (st : State number)
  : State number * bool :=
  match checkOrigin reply with
  | Some (tickerData, symbols) =>
      loadItems (tradingSymbols symbols) st tickerData
  | None => (st, false)
  end.

(** One turn of the [for (const domain of apiDomains)] loop up to its
    [await]: the two requests to origin [i] are issued; when the list is
    exhausted the loop is left and [notify] is called. *)
Definition requestOrigin (i : nat) : Action number :=
  match apiDomains !! i with
  | Some domain =>
      update (fun st => set_snapshotAwaiting (i :: snapshotAwaiting st) st)
      >> perform (HttpGet (domain +:+ "/api/v3/ticker/24hr"))
      >> perform (HttpGet (domain +:+ "/api/v3/exchangeInfo?permissions=SPOT"))
  | None => notify
  end.

(** Removes the first occurrence of [i]. *)
Fixpoint removeOne (i : nat) (l : list nat) : list nat :=
  match l with
  | [] => []
  | j :: rest => if Nat.eqb i j then rest else j :: removeOne i rest
  end.

(** The continuation after the replies of origin [i]: when the [try]
    block runs to its end the subscribers are notified and the function
    returns; otherwise the exception is caught, with the writes made
    before it in place, and the loop goes on with the next origin. *)
Definition resumeOrigin (i : nat) (reply : OriginReply) : Action number :=
  update (fun st => set_snapshotAwaiting (removeOne i (snapshotAwaiting st)) st)
  >> fun st =>
       let attempt := tryOrigin reply st in
       if snd attempt then notify (fst attempt)
       else requestOrigin (S i) (fst attempt).

(** [fetchInitialSnapshot], up to its first [await]. *)
Definition fetchInitialSnapshot : Action number := requestOrigin 0.

(** The continuations of one [fetchInitialSnapshot], run one after the
    other from origin [i] on, [replies] being the replies of the origins
    in the order they are asked. *)
Fixpoint awaitOrigins (i : nat) (replies : list OriginReply) : Action number :=
  match replies with
  | [] => skip
  | reply :: rest =>
      resumeOrigin i reply
      >> match acceptOrigin reply with
         | Some _ => skip
         | None => awaitOrigins (S i) rest
         end
  end.

(** A whole snapshot load with nothing else happening in between. *)
Definition snapshotLoad (replies : list OriginReply) : Action number :=
  fetchInitialSnapshot >> awaitOrigins 0 replies.

(** [connect]. *)
Definition connect (constructorThrows : bool) : Action number :=
  fetchInitialSnapshot >> connectWebSocket constructorThrows.

(** *** Detail backfill *)

(** The value of [fetch(...).then(r => r.ok ? r.json() : null)]: [None]
    when the promise rejects, otherwise the value, [None] again when it
    is falsy and its [priceChangePercent] property when it is truthy. *)
Definition detailValue (reply : DetailReply) : option (option (option string)) :=
  match reply with
  | NetworkError => None
  | Http status body =>
      if ok status then
        match body with
        | NotJson => None
        | OtherShape => Some None
        | Shaped property => Some (Some property)
        end
      else Some None
  end.

(** [parseFloat(res.priceChangePercent)]; a missing property is
    [undefined], which [parseFloat] reads as the string "undefined". *)
Definition parsePercent (property : option string) : number :=
  parseFloat (default "undefined" property).

(** [fetchDetailedStats], up to its [await]. *)
Definition fetchDetailedStats (sym : string) : Action number :=
  fun st =>
    if bool_decide (sym ∈ pendingFetches st) then (st, [])
    else
      (update (set_pendingFetches (pendingFetches st ∪ {[ sym ]}))
       >> perform (HttpGet ("https://data-api.binance.vision/api/v3/ticker"
                            +:+ "?symbol=" +:+ sym +:+ "&windowSize=1h"))
       >> perform (HttpGet ("https://data-api.binance.vision/api/v3/ticker"
                            +:+ "?symbol=" +:+ sym +:+ "&windowSize=4h"))) st.

(** The two guarded writes on [item]; the flag is [updated]. *)
Definition fillWindows (res1h res4h : option (option string))
    (item : TickerData number) : TickerData number * bool :=
  let step1 :=
    match res1h, changePercent1h item with
    | Some property, None =>
        (set_changePercent1h (Some (parsePercent property)) item, true)
    | _, _ => (item, false)
    end in
  match res4h, changePercent4h (fst step1) with
  | Some property, None =>
      (set_changePercent4h (Some (parsePercent property)) (fst step1), true)
  | _, _ => step1
  end.

(** The [try] block of [fetchDetailedStats] after the [await]. *)
Definition writeDetailedStats (sym : string) (reply1h reply4h : DetailReply)
  : Action number :=
  fun st =>
    match detailValue reply1h, detailValue reply4h with
    | Some res1h, Some res4h =>
        match tickerMap st !! sym with
        | Some l =>
            match objects st !! l with
            | Some item =>
                let filled := fillWindows res1h res4h item in
                let st' := set_objects (<[l := fst filled]> (objects st)) st in
                if snd filled
                then (update (fun st => set_tickerMap (<[sym := l]> (tickerMap st)) st)
                      >> notify) st'
                else (st', [])
            | None => (st, [])
            end
        | None => (st, [])
        end
    | _, _ => (st, [])
    end.

(** The continuation of [fetchDetailedStats]: the [try] block, then
    [finally]. *)
Definition settleDetailedStats (sym : string) (reply1h reply4h : DetailReply)
  : Action number :=
  writeDetailedStats sym reply1h reply4h
  >> update (fun st => set_pendingFetches (pendingFetches st ∖ {[ sym ]}) st).

(** *** The event loop *)

(** What can happen to the service: a call of its public interface, the
    settling of a request it awaits, an event of a socket it created, or
    its reconnect timer firing. *)
Inductive Event : Type :=
| CallConnect (constructorThrows : bool)
| CallDisconnect
| CallSubscribe (cb : Callback)
| CallUnsubscribe (cb : Callback)
| CallSubscribeStatus (cb : Callback)
| CallUnsubscribeStatus (cb : Callback)
| CallFetchDetailedStats (sym : string)
| DetailedStatsSettled (sym : string) (reply1h reply4h : DetailReply)
| OriginSettled (i : nat) (reply : OriginReply)
| SocketOpened (k : nat)
| SocketMessage (k : nat) (frame : Frame)
| SocketClosed (k : nat)
| SocketError (k : nat)
| TimerFired (id : nat) (constructorThrows : bool).

Definition setReadyState (k : nat) (rs : ReadyState) (st : State number) : State number :=
  set_sockets
    (alter (fun sock => mkWebSocket (url sock) rs (onclose sock) (onerror sock))
           k (sockets st)) st.

(** One turn of the event loop; [None] when the runtime cannot deliver
    the event in this state (no such socket, timer or pending request,
    or a socket in the wrong ready state). *)
Definition step (st : State number) (ev : Event) : option (State number * list Effect) :=
  match ev with
  | CallConnect constructorThrows => Some (connect constructorThrows st)
  | CallDisconnect => Some (disconnect st)
  | CallSubscribe cb => Some (subscribe cb st)
  | CallUnsubscribe cb => Some (unsubscribe cb st)
  | CallSubscribeStatus cb => Some (subscribeStatus cb st)
  | CallUnsubscribeStatus cb => Some (unsubscribeStatus cb st)
  | CallFetchDetailedStats sym => Some (fetchDetailedStats sym st)
  | DetailedStatsSettled sym reply1h reply4h =>
      if bool_decide (sym ∈ pendingFetches st)
      then Some (settleDetailedStats sym reply1h reply4h st)
      else None
  | OriginSettled i reply =>
      if bool_decide (i ∈ snapshotAwaiting st)
      then Some (resumeOrigin i reply st)
      else None
  | SocketOpened k =>
      match readyState <$> sockets st !! k with
      | Some CONNECTING => Some (onopen (setReadyState k OPEN st))
      | _ => None
      end
  | SocketMessage k frame =>
      match readyState <$> sockets st !! k with
      | Some OPEN => Some (onmessage frame st)
      | _ => None
      end
  | SocketClosed k =>
      match sockets st !! k with
      | Some sock =>
          match readyState sock with
          | CLOSED => None
          | _ =>
              if onclose sock
              then Some (onclose_handler (setReadyState k CLOSED st))
              else Some (setReadyState k CLOSED st, [])
          end
      | None => None
      end
  | SocketError k =>
      match sockets st !! k with
      | Some sock =>
          if onerror sock then Some (onerror_handler st) else Some (st, [])
      | None => None
      end
  | TimerFired id constructorThrows =>
      match timers st !! id with
      | Some _ =>
          Some (connectWebSocket constructorThrows
                  (set_timers (delete id (timers st)) st))
      | None => None
      end
  end.

(** A run of the event loop: the final state and all effects, or [None]
    when some event cannot be delivered. *)
Fixpoint run (st : State number) (evs : list Event) : option (State number * list Effect) :=
  match evs with
  | [] => Some (st, [])
  | ev :: rest =>
      match step st ev with
      | Some (st1, effects1) =>
          match run st1 rest with
          | Some (st2, effects2) => Some (st2, effects1 ++ effects2)
          | None => None
          end
      | None => None
      end
  end.

(** *** Observations *)

(** The record a [Map] of the service (the live one or a copy handed to
    a subscriber) shows for a symbol, in state [st]. *)
Definition lookupRecord (m : gmap string nat) (st : State number) (sym : string)
  : option (TickerData number) :=
  m !! sym ≫= fun l => objects st !! l.

(** The record of the live map. *)
Definition record (st : State number) (sym : string) : option (TickerData number) :=
  lookupRecord (tickerMap st) st sym.

(** The data callbacks among the effects. *)
Definition dataCalls (effects : list Effect)
  : list (Callback * gmap string nat) :=
  omap (fun e => match e with
                 | CallData cb snapshot => Some (cb, snapshot)
                 | _ => None
                 end) effects.

(** The invariant of the ticker map: every symbol is bound to an object
    of the store, whose [symbol] field is that symbol. *)
Definition mapConsistent (m : gmap string nat) (st : State number) : Prop :=
  forall sym l, m !! sym = Some l ->
    exists r, objects st !! l = Some r /\ symbol r = sym.

Definition wellFormed (st : State number) : Prop :=
  mapConsistent (tickerMap st) st /\
  (endpointIndex st < length BASE_WS_URLS)%nat.

(** The updates of a payload that carry a given symbol, in order. *)
Definition updatesFor (sym : string) (items : list BinanceTickerWS.t)
  : list BinanceTickerWS.t :=
  filter (fun item => BinanceTickerWS.s item = sym) items.

(** The field writes of a list of updates, applied in order. *)
Definition applyUpdates (streamName : string)
    (items : list BinanceTickerWS.t) (r : TickerData number) : TickerData number :=
  foldl (fun r item => applyUpdate streamName item r) r items.

(** Events that may write to the records: the others leave the map and
    the store alone. *)
Definition writesRecords (ev : Event) : bool :=
  match ev with
  | DetailedStatsSettled _ _ _ | OriginSettled _ _ | SocketMessage _ _ => true
  | _ => false
  end.

(** A state with the map and the store of another. *)
Definition withRecords (m : gmap string nat) (objs : list (TickerData number))
    (st : State number) : State number :=
  set_tickerMap m (set_objects objs st).


(** The state a run of events from the initial state ends in, and the
    effects of the run. *)
Definition stateAfter (evs : list Event) : State number :=
  match run initial evs with
  | Some (st, _) => st
  | None => initial
  end.

Definition effectsOf (evs : list Event) : list Effect :=
  match run initial evs with
  | Some (_, effects) => effects
  | None => []
  end.

(** Events that update record objects in place. *)
Definition writesInPlace (ev : Event) : bool :=
  match ev with
  | SocketMessage _ _ | DetailedStatsSettled _ _ _ => true
  | _ => false
  end.

(** What an event makes of the record object [r] at address [l] of the
    store: a stream message applies the updates carrying the symbol of
    the object when the live map binds that symbol to it, a backfill
    applies its guarded writes when the live map binds its symbol to it,
    and no other event changes an existing object. *)
Definition objectAfter (ev : Event) (st : State number) (l : nat)
    (r : TickerData number) : TickerData number :=
  match ev with
  | SocketMessage _ (Envelope message) =>
      match rawData (BinanceStreamMessage.data message) with
      | Some items =>
          if bool_decide (tickerMap st !! symbol r = Some l)
          then applyUpdates (BinanceStreamMessage.stream message)
                 (updatesFor (symbol r) items) r
          else r
      | None => r
      end
  | DetailedStatsSettled sym reply1h reply4h =>
      match detailValue reply1h, detailValue reply4h with
      | Some res1h, Some res4h =>
          if bool_decide (tickerMap st !! sym = Some l)
          then fst (fillWindows res1h res4h r) else r
      | _, _ => r
      end
  | _ => r
  end.

End Merge.

(** ** Scenarios of the design document, on decimal numbers *)

Module Scenario.

Definition hourlyStream : string := "!ticker_1h@arr".

Definition update (sym lastPrice quoteVolume percent : string)
  : BinanceTickerWS.t :=
  BinanceTickerWS.mk sym lastPrice "0" quoteVolume percent None.

Definition frame (streamName : string) (items : list BinanceTickerWS.t)
  : Frame :=
  Envelope (BinanceStreamMessage.mk streamName (BinanceStreamMessage.Many items)).

(** A snapshot origin answering with one active symbol. *)
Definition listing (sym lastPrice quoteVolume percent : string) : OriginReply :=
  mkOriginReply
    (Http 200 (Shaped [Some (TickerItem.mk sym 1200 lastPrice quoteVolume percent)]))
    (Http 200 (Shaped [Some (SymbolInfo.mk sym "TRADING")])).

(** A snapshot origin answering with an error status. *)
Definition unavailable (status : nat) : OriginReply :=
  mkOriginReply (Http status NotJson) (Http status NotJson).

(** A snapshot origin answering with one active symbol followed by a
    [null] element in the ticker array. *)
Definition interrupted (sym lastPrice quoteVolume percent : string) : OriginReply :=
  mkOriginReply
    (Http 200 (Shaped [Some (TickerItem.mk sym 1200 lastPrice quoteVolume percent);
                       None]))
    (Http 200 (Shaped [Some (SymbolInfo.mk sym "TRADING")])).

(** A subscriber, a connection that opened, and a snapshot load in which
    every origin fails, the first one inside its loop. *)
Definition allOriginsFail : list Event :=
  [ CallSubscribe 1; CallConnect false; SocketOpened 0;
    OriginSettled 0 (interrupted "BTCUSDT" "50000" "1e9" "2.5");
    OriginSettled 1 (unavailable 503);
    OriginSettled 2 (unavailable 500) ].

(** A subscriber, a connection that opened, and the snapshot
    [{BTCUSDT: price 50000, volume 1e9, change24h 2.5}]. *)
Definition seeded : list Event :=
  [ CallSubscribe 1; CallConnect false; SocketOpened 0;
    OriginSettled 0 (listing "BTCUSDT" "50000" "1e9" "2.5") ].

(** A connection that opened before any snapshot origin answered, a
    backfill started for ETHUSDT, and a 1-hour stream message that set
    its change to 0.9 in the meantime. *)
Definition streamedFirst : list Event :=
  [ CallSubscribe 1; CallConnect false; SocketOpened 0;
    CallFetchDetailedStats "ETHUSDT";
    SocketMessage 0 (frame hourlyStream [update "ETHUSDT" "3000" "0" "0.9"]) ].

(** A connection that opened before any snapshot origin answered, and a
    1-hour stream message that created the record of BTCUSDT with a
    1-hour change of 0.4. *)
Definition streamedBeforeSnapshot : list Event :=
  [ CallSubscribe 1; CallConnect false; SocketOpened 0;
    SocketMessage 0 (frame hourlyStream [update "BTCUSDT" "50010" "0" "0.4"]) ].

(** The first snapshot origin answers only then. *)
Definition lateSnapshot : Event :=
  OriginSettled 0 (listing "BTCUSDT" "50000" "1e9" "2.5").

(** A subscriber and a connection that opened. *)
Definition connected : list Event :=
  [ CallSubscribe 1; CallSubscribeStatus 2; CallConnect false; SocketOpened 0 ].

(** The same data callback and the same status callback, each registered
    twice. *)
Definition registeredTwice : list Event :=
  [ CallSubscribe 1; CallSubscribe 1; CallSubscribeStatus 2; CallSubscribeStatus 2 ].

End Scenario.

(** ** Registries *)

(** The number of registrations of a callback in a registry. *)
Definition registrations (cb : Callback) (registry : list Callback) : nat :=
  length (filter (fun c => c = cb) registry).


(** ** Observations on effects and replies *)

(** The requests among the effects, in order. *)
Definition httpGets (effects : list Effect) : list string :=
  omap (fun e => match e with HttpGet target => Some target | _ => None end)
       effects.

(** The status callbacks among the effects, in order. *)
Definition statusCalls (effects : list Effect) : list (Callback * string) :=
  omap (fun e => match e with
                 | CallStatus cb shown => Some (cb, shown)
                 | _ => None
                 end) effects.

(** The two requests the snapshot loader sends to one origin. *)
Definition originRequests (domain : string) : list string :=
  [ domain +:+ "/api/v3/ticker/24hr";
    domain +:+ "/api/v3/exchangeInfo?permissions=SPOT" ].

(** The replies of a snapshot origin that pass the checks and carry a
    [null] element in the ticker array: the [try] block throws inside its
    loop, after the writes for the elements before. *)
Definition throwsInLoop (reply : OriginReply) : bool :=
  match checkOrigin reply with
  | Some (tickerData, _) =>
      match allObjects tickerData with
      | Some _ => false
      | None => true
      end
  | None => false
  end.

(** The events that deliver such a reply. *)
Definition interruptsSnapshot (ev : Event) : bool :=
  match ev with
  | OriginSettled _ reply => throwsInLoop reply
  | _ => false
  end.

(** The replies of a snapshot origin that fail before the first write:
    a check throws, or the ticker array starts with a [null] element. *)
Definition failsBeforeWriting (reply : OriginReply) : Prop :=
  match checkOrigin reply with
  | Some (tickerData, _) => beforeNull tickerData = []
  | None => True
  end.

(** The replies with a network error or a status outside 200-299. *)
Definition notOk (reply : OriginReply) : Prop :=
  match tickerRes reply, exchangeInfoRes reply with
  | Http tickerStatus _, Http infoStatus _ =>
      ok tickerStatus = false \/ ok infoStatus = false
  | _, _ => True
  end.

(** The filter of the snapshot loader, in words: the exchange information
    lists the symbol of the ticker item with status TRADING, and the item
    has a nonzero trade count. *)
Definition listedActive (symbols : list SymbolInfo.t) (item : TickerItem.t)
  : Prop :=
  (exists si, si ∈ symbols /\
              SymbolInfo.symbol si = TickerItem.symbol item /\
              SymbolInfo.status si = "TRADING") /\
  TickerItem.count item <> 0%N.

(** The map a data callback holds after the effects of a run: the last
    one it was called with, and the empty map it starts from when it was
    never called. *)
Definition heldBy (cb : Callback) (effects : list Effect) : gmap string nat :=
  default ∅ (last (omap (fun call : Callback * gmap string nat =>
                           if Nat.eqb (fst call) cb then Some (snd call) else None)
                        (dataCalls effects))).

(** ** The consumer of the service ([App.tsx]) *)

Section Consumer.
Context {number : Type} {Num : JSNumber number}.

(** The test of the lazy-load effect on a record:
    [item.changePercent1h === undefined || item.changePercent4h === undefined]. *)
Definition missingWindow (item : TickerData number) : bool :=
  match changePercent1h item, changePercent4h item with
  | Some _, Some _ => false
  | _, _ => true
  end.

(** [sortedSymbols.find(symbol => ...)] of [fillNextEmpty]: the first
    symbol, in the order given, whose record in the map the consumer holds
    misses a change window. *)
Definition fillTarget (sortedSymbols : list string)
    (tickerDataMap : gmap string nat) (st : State number) : option string :=
  List.find (fun sym => match lookupRecord tickerDataMap st sym with
                        | Some item => missingWindow item
                        | None => false
                        end)
            sortedSymbols.

(** [fillNextEmpty], up to the [await] inside [fetchDetailedStats]: the
    target is fetched when there is one (and it is a truthy string). *)
Definition fillNextEmpty (sortedSymbols : list string)
    (tickerDataMap : gmap string nat) : Action number :=
  fun st =>
    match fillTarget sortedSymbols tickerDataMap st with
    | Some targetSymbol =>
        if String.eqb targetSymbol "" then (st, [])
        else fetchDetailedStats targetSymbol st
    | None => (st, [])
    end.

End Consumer.

(** The base asset the search box matches against:
    [quote ? symbol.substring(0, symbol.length - quote.length) : symbol]. *)
Definition searchBase (sym : string) : string :=
  match getQuoteAsset sym with
  | Some quote =>
      if String.eqb quote "" then sym
      else String.substring 0 (String.length sym - String.length quote) sym
  | None => sym
  end.

(** [spotWidthData], on the symbols of the records in map order: the
    quote-asset filter alone, that is, everything when 'ALL' is selected
    and otherwise the symbols that end with a selected asset. *)
Definition spotWidthData (selectedAssets : list string) (symbols : list string)
  : list string :=
  if existsb (String.eqb "ALL") selectedAssets then symbols
  else List.filter (fun sym => existsb (JSString.endsWith sym) selectedAssets)
                   symbols.

Inductive ViewMode : Type := Market | Favorites.

(** [filteredData], the rows of the table, on the symbols of the records
    in map order: the favourites filter in favourites mode, then the
    quote-asset filter, then the search filter when the search text is not
    empty.  [toUpperCase] stands for [String.prototype.toUpperCase]. *)
Definition filteredData (toUpperCase : string -> string)
    (viewMode : ViewMode) (favorites : gset string)
    (selectedAssets : list string) (searchQuery : string)
    (symbols : list string) : list string :=
  let data := symbols in
  let data :=
    match viewMode with
    | Favorites => List.filter (fun sym => bool_decide (sym ∈ favorites)) data
    | Market => data
    end in
  let data :=
    if negb (existsb (String.eqb "ALL") selectedAssets)
    then List.filter (fun sym => existsb (JSString.endsWith sym) selectedAssets)
                     data
    else data in
  if negb (String.eqb searchQuery "")
  then let q := toUpperCase searchQuery in
       List.filter (fun sym => JSString.includes (searchBase sym) q) data
  else data.

(** The counters of the filter menu: [counts] starts as [{ALL: n}] and
    [counts[quote] = (counts[quote] || 0) + 1] for every record whose
    symbol has a known quote asset. *)
Definition countAsset (counts : gmap string nat) (sym : string)
  : gmap string nat :=
  match getQuoteAsset sym with
  | Some quote =>
      if String.eqb quote "" then counts
      else <[quote := (default 0 (counts !! quote) + 1)%nat]> counts
  | None => counts
  end.

Definition assetCounts (symbols : list string) : gmap string nat :=
  foldl countAsset {[ "ALL" := length symbols ]} symbols.

(** ** Invariants stated on states and effects *)

(** The URL shown to status subscribers is the origin of an endpoint of
    the list. *)
Definition showsEndpoint (e : Effect) : Prop :=
  match e with
  | CallStatus _ shown => shown ∈ map Url.origin BASE_WS_URLS
  | _ => True
  end.

(** Every armed timer is the reconnect timer the service holds, and its
    delay lies between one and ten seconds. *)
Definition singleTimer {number : Type} (st : State number) : Prop :=
  forall id delay, timers st !! id = Some delay ->
    reconnectTimeoutId st = Some id /\ (1000 <= delay <= 10000)%Q.

(** ** Further runs, on decimal numbers *)

Module Trace.

(** A connection that opened and was then closed by the other side. *)
Definition dropped : list Event :=
  [ CallSubscribeStatus 2; CallConnect false; SocketOpened 0; SocketClosed 0 ].

(** The snapshot of [Scenario.seeded], then a 24-hour stream message for
    the symbol. *)
Definition ticked : Event :=
  SocketMessage 0
    (Scenario.frame "!ticker@arr" [Scenario.update "BTCUSDT" "50020" "1100000000" "2.6"]).

(** The snapshot of [Scenario.seeded], whose record of BTCUSDT has no
    short-window change, then a 1-hour stream message that creates the
    record of ETHUSDT, which has no 4-hour change. *)
Definition twoIncomplete : list Event :=
  Scenario.seeded
  ++ [ SocketMessage 0
         (Scenario.frame Scenario.hourlyStream
            [Scenario.update "ETHUSDT" "3000" "0" "0.9"]) ].

End Trace.

(** The socket [ws.close()] leaves behind. *)
Definition closing (sock : WebSocket) : WebSocket :=
  mkWebSocket (url sock)
    match readyState sock with
    | CONNECTING | OPEN | CLOSING => CLOSING
    | CLOSED => CLOSED
    end
    (onclose sock) (onerror sock).

(** * Properties *)

Section StringFacts.
Import JSString.

Lemma substring_whole (a : string) :
  String.substring 0 (String.length a) a = a.
Proof. induction a as [|c a IH]; cbn; [done | by rewrite IH]. Qed.

Lemma substring_append_r (p a : string) :
  String.substring (String.length p) (String.length a) (String.append p a) = a.
Proof.
  induction p as [|c p IH]; cbn; [apply substring_whole | exact IH].
Qed.

Lemma length_append (p a : string) :
  String.length (String.append p a) = (String.length p + String.length a)%nat.
Proof. induction p as [|c p IH]; simpl; [done | by rewrite IH]. Qed.

Lemma substring_split (n : nat) (s : string) :
  (n <= String.length s)%nat ->
  s = String.append (String.substring 0 n s) (String.substring n (String.length s - n) s).
Proof.
  revert s. induction n as [|n IH]; intros s Hn.
  - rewrite Nat.sub_0_r, substring_whole. by destruct s.
  - destruct s as [|c s]; cbn in *; [lia |].
    rewrite (IH s) at 1 by lia. reflexivity.
Qed.

Lemma endsWith_spec (s a : string) :
  endsWith s a = true <-> isSuffixOf a s.
Proof.
  unfold endsWith, isSuffixOf. split.
  - destruct (Nat.leb_spec (String.length a) (String.length s)) as [Hle|]; [|done].
    intros Heq%String.eqb_eq.
    exists (String.substring 0 (String.length s - String.length a) s).
    pose proof (substring_split (String.length s - String.length a) s
                  ltac:(lia)) as Hs.
    replace (String.length s - (String.length s - String.length a))%nat
      with (String.length a) in Hs by lia.
    by rewrite Heq in Hs.
  - intros [p ->]. rewrite length_append.
    destruct (Nat.leb_spec (String.length a) (String.length p + String.length a))
      as [_|]; [|lia].
    replace (String.length p + String.length a - String.length a)%nat
      with (String.length p) by lia.
    rewrite substring_append_r. apply String.eqb_refl.
Qed.

Lemma append_String (c : Ascii.ascii) (p q : string) :
  String.append (String c p) q = String c (String.append p q).
Proof. reflexivity. Qed.

Lemma append_Empty (q : string) : String.append EmptyString q = q.
Proof. reflexivity. Qed.

Lemma startsWith_spec (s a : string) :
  startsWith s a = true <-> exists q, s = String.append a q.
Proof.
  revert s. induction a as [|c a IH]; intros s; cbn.
  - split; [intros _; exists s; reflexivity | done].
  - destruct s as [|d s].
    + split; [done | intros [q Hq]; rewrite append_String in Hq; discriminate].
    + destruct (Ascii.eqb_spec c d) as [->|Hne].
      * rewrite IH. split; intros [q Hq]; exists q;
          rewrite append_String in *; congruence.
      * split; [done | intros [q Hq]; rewrite append_String in Hq; congruence].
Qed.

Lemma includes_spec (s a : string) :
  includes s a = true <-> isSubstringOf a s.
Proof.
  unfold isSubstringOf. induction s as [|d s IH]; cbn.
  - rewrite orb_false_r, startsWith_spec. split.
    + intros [q Hq]. by exists EmptyString, q.
    + intros [[|c p] [q Hq]]; [by exists q |].
      rewrite append_String in Hq. discriminate.
  - rewrite orb_true_iff, IH, startsWith_spec. split.
    + intros [[q Hq] | (p & q & Hq)].
      * by exists EmptyString, q.
      * exists (String d p), q. rewrite append_String. by rewrite Hq.
    + intros [[|c p] [q Hq]].
      * left. by exists q.
      * right. exists p, q. rewrite append_String in Hq. congruence.
Qed.

End StringFacts.

Section QuoteAsset.
Import JSString.

Lemma firstQuoteAsset_Some (assets : list string) (symbol a : string) :
  firstQuoteAsset assets symbol = Some a <->
  exists before after,
    assets = (before ++ a :: after)%list /\
    isSuffixOf a symbol /\
    Forall (fun b => ~ isSuffixOf b symbol) before.
Proof.
  induction assets as [|x rest IH]; simpl.
  - split; [done | intros ([|??] & ? & ? & _); discriminate].
  - destruct (endsWith symbol x) eqn:Hx.
    + split.
      * intros [= <-]. exists [], rest. by rewrite <- endsWith_spec.
      * intros (before & after & Heq & Ha & Hb).
        destruct before as [|y before]; simpl in Heq.
        -- congruence.
        -- injection Heq as <- _. apply Forall_cons in Hb as [Hy _].
           rewrite <- endsWith_spec in Hy. congruence.
    + rewrite IH. split.
      * intros (before & after & -> & Ha & Hb).
        exists (x :: before), after. repeat split; [done |].
        constructor; [|done]. rewrite <- endsWith_spec. congruence.
      * intros (before & after & Heq & Ha & Hb).
        destruct before as [|y before]; simpl in Heq.
        -- injection Heq as -> _. rewrite <- endsWith_spec in Ha. congruence.
        -- injection Heq as <- ->. apply Forall_cons in Hb as [_ Hb].
           by exists before, after.
Qed.

Lemma firstQuoteAsset_None (assets : list string) (symbol : string) :
  firstQuoteAsset assets symbol = None <->
  Forall (fun b => ~ isSuffixOf b symbol) assets.
Proof.
  induction assets as [|x rest IH]; simpl.
  - split; [constructor | done].
  - destruct (endsWith symbol x) eqn:Hx.
    + split; [done |]. intros [Hn _]%Forall_cons.
      rewrite <- endsWith_spec in Hn. congruence.
    + rewrite IH, Forall_cons. split; [|tauto].
      intros H. split; [|done]. rewrite <- endsWith_spec. congruence.
Qed.

(** C9.  [getQuoteAsset] returns the first entry of the priority-ordered
    list [KNOWN_QUOTE_ASSETS] that is a suffix of the symbol (every
    earlier entry is not a suffix), and [null] exactly when no entry is
    a suffix; it maps "ETHBTC" to "BTC" and "UNKNOWNXYZ" to [null]. *)
Theorem getQuoteAsset_first_suffix (symbol : string) :
  (forall a,
      getQuoteAsset symbol = Some a <->
      exists before after,
        KNOWN_QUOTE_ASSETS = (before ++ a :: after)%list /\
        isSuffixOf a symbol /\
        Forall (fun b => ~ isSuffixOf b symbol) before) /\
  (getQuoteAsset symbol = None <->
   Forall (fun b => ~ isSuffixOf b symbol) KNOWN_QUOTE_ASSETS) /\
  getQuoteAsset "ETHBTC" = Some "BTC" /\
  getQuoteAsset "UNKNOWNXYZ" = None.
Proof.
  split; [|split; [|split]].
  - intros a. apply firstQuoteAsset_Some.
  - apply firstQuoteAsset_None.
  - reflexivity.
  - reflexivity.
Qed.

End QuoteAsset.

(** ** The store of records under each writer *)

Section Records.
Context {number : Type} {Num : JSNumber number}.

Lemma applyUpdate_symbol streamName item r :
  symbol (applyUpdate streamName item r) = symbol r.
Proof. unfold applyUpdate. by repeat case_match. Qed.


Lemma fillWindows_symbol res1h res4h item :
  symbol (fst (fillWindows res1h res4h item)) = symbol item.
Proof. unfold fillWindows. by repeat case_match. Qed.

Lemma applyUpdate_group streamName item r :
  applyUpdate streamName item r =
  match groupOf streamName with
  | Group24h =>
      set_changePercent24h (parseFloat (BinanceTickerWS.P item))
        (set_volume (parseFloat (BinanceTickerWS.q item))
           (set_price (parseFloat (BinanceTickerWS.c item)) r))
  | Group1h =>
      set_changePercent1h (Some (parseFloat (BinanceTickerWS.P item)))
        (set_price (parseFloat (BinanceTickerWS.c item)) r)
  | Group4h =>
      set_changePercent4h (Some (parseFloat (BinanceTickerWS.P item)))
        (set_price (parseFloat (BinanceTickerWS.c item)) r)
  end.
Proof.
  unfold applyUpdate, groupOf, is24h, is1h, is4h.
  destruct (JSString.includes streamName "1h"),
           (JSString.includes streamName "4h"); reflexivity.
Qed.

(** *** One stream update *)

Lemma mergeItem_tickerMap streamName st item :
  tickerMap (mergeItem streamName st item) =
  match tickerMap st !! BinanceTickerWS.s item with
  | Some _ => tickerMap st
  | None => <[BinanceTickerWS.s item := length (objects st)]> (tickerMap st)
  end.
Proof.
  unfold mergeItem. destruct (tickerMap st !! _) as [l|] eqn:Hl; cbn; [|done].
  by apply insert_id.
Qed.

Lemma mergeItem_length streamName st item :
  (length (objects st) <= length (objects (mergeItem streamName st item)))%nat.
Proof.
  unfold mergeItem. destruct (tickerMap st !! _); cbn;
    rewrite length_alter, ?length_app; lia.
Qed.

(** An object of the store is updated in place exactly when the live map
    binds the symbol of the update to it. *)
Lemma mergeItem_object streamName st item l r :
  objects st !! l = Some r ->
  objects (mergeItem streamName st item) !! l =
  Some (if bool_decide (tickerMap st !! BinanceTickerWS.s item = Some l)
        then applyUpdate streamName item r else r).
Proof.
  intros Hr. unfold mergeItem.
  destruct (tickerMap st !! BinanceTickerWS.s item) as [l0|] eqn:Hl0; cbn.
  - case_bool_decide as Heq.
    + injection Heq as ->. by rewrite list_lookup_alter_eq, Hr.
    + rewrite list_lookup_alter_ne by congruence. done.
  - rewrite bool_decide_eq_false_2 by done.
    apply lookup_lt_Some in Hr as Hlt.
    rewrite list_lookup_alter_ne by lia.
    by rewrite lookup_app_l.
Qed.

Lemma mergeItem_fresh_object streamName st item :
  tickerMap st !! BinanceTickerWS.s item = None ->
  objects (mergeItem streamName st item) !! length (objects st) =
  Some (applyUpdate streamName item (freshRecord (BinanceTickerWS.s item))).
Proof.
  intros Hn. unfold mergeItem. rewrite Hn. cbn.
  rewrite list_lookup_alter_eq, lookup_app_r by lia.
  by rewrite Nat.sub_diag.
Qed.

Lemma mergeItem_consistent streamName st item m :
  mapConsistent m st -> mapConsistent m (mergeItem streamName st item).
Proof.
  intros Hm sym l Hl. destruct (Hm sym l Hl) as (r & Hr & Hs).
  eexists. split; [by apply mergeItem_object |].
  case_bool_decide; [by rewrite applyUpdate_symbol | done].
Qed.

Lemma mergeItem_live_consistent streamName st item :
  mapConsistent (tickerMap st) st ->
  mapConsistent (tickerMap (mergeItem streamName st item))
                (mergeItem streamName st item).
Proof.
  intros Hm. rewrite mergeItem_tickerMap.
  destruct (tickerMap st !! BinanceTickerWS.s item) as [l0|] eqn:Hl0.
  - by apply mergeItem_consistent.
  - intros sym l. rewrite lookup_insert. case_decide as Hsym.
    + intros [= <-]. subst sym. eexists. split.
      * by apply mergeItem_fresh_object.
      * by rewrite applyUpdate_symbol.
    + intros Hl. by apply (mergeItem_consistent _ _ _ _ Hm sym l).
Qed.

End Records.

Section Payload.
Context {number : Type} {Num : JSNumber number}.

Lemma merge_live_consistent streamName items st :
  mapConsistent (tickerMap st) st ->
  mapConsistent (tickerMap (foldl (mergeItem streamName) st items))
                (foldl (mergeItem streamName) st items).
Proof.
  revert st. induction items as [|item rest IH]; intros st Hst; cbn; [done |].
  by apply IH, mergeItem_live_consistent.
Qed.

Lemma merge_consistent streamName items st m :
  mapConsistent m st ->
  mapConsistent m (foldl (mergeItem streamName) st items).
Proof.
  revert st. induction items as [|item rest IH]; intros st Hst; cbn; [done |].
  by apply IH, mergeItem_consistent.
Qed.

Lemma merge_bound streamName items st sym l :
  tickerMap st !! sym = Some l ->
  tickerMap (foldl (mergeItem streamName) st items) !! sym = Some l.
Proof.
  revert st. induction items as [|item rest IH]; intros st Hl; cbn; [done |].
  apply IH. rewrite mergeItem_tickerMap.
  destruct (tickerMap st !! BinanceTickerWS.s item) eqn:Hi; [done |].
  rewrite lookup_insert_ne; [done | congruence].
Qed.

(** The payload as a whole, seen from one object of the store: it
    receives, in order, the updates carrying its symbol, provided the
    live map binds that symbol to it. *)
Lemma merge_object streamName items st l r :
  mapConsistent (tickerMap st) st ->
  objects st !! l = Some r ->
  objects (foldl (mergeItem streamName) st items) !! l =
  Some (if bool_decide (tickerMap st !! symbol r = Some l)
        then applyUpdates streamName (updatesFor (symbol r) items) r
        else r).
Proof.
  revert st r. induction items as [|item rest IH]; intros st r Hst Hr; cbn [foldl].
  - by case_bool_decide.
  - assert (Hsame : tickerMap (mergeItem streamName st item) !! symbol r = Some l
                    <-> tickerMap st !! symbol r = Some l).
    { rewrite mergeItem_tickerMap.
      destruct (tickerMap st !! BinanceTickerWS.s item) eqn:Hi; [done |].
      destruct (decide (BinanceTickerWS.s item = symbol r)) as [Hs|Hs].
      - rewrite <- Hs, lookup_insert_eq, Hi. apply lookup_lt_Some in Hr.
        split; [intros [= <-]; lia | done].
      - by rewrite lookup_insert_ne. }
    assert (Hitem : tickerMap st !! BinanceTickerWS.s item = Some l ->
                    BinanceTickerWS.s item = symbol r).
    { intros Hi. destruct (Hst _ _ Hi) as (r0 & Hr0 & Hs0). congruence. }
    pose proof (mergeItem_object streamName st item l r Hr) as Hr1.
    set (r1 := if bool_decide (tickerMap st !! BinanceTickerWS.s item = Some l)
               then applyUpdate streamName item r else r) in Hr1.
    assert (Hsym1 : symbol r1 = symbol r).
    { unfold r1. case_bool_decide; by rewrite ?applyUpdate_symbol. }
    rewrite (IH _ _ (mergeItem_live_consistent _ _ _ Hst) Hr1). f_equal.
    rewrite Hsym1, (bool_decide_ext _ _ Hsame).
    unfold updatesFor. rewrite filter_cons.
    destruct (bool_decide (tickerMap st !! symbol r = Some l)) eqn:Hb.
    + apply bool_decide_eq_true_1 in Hb.
      destruct (decide (BinanceTickerWS.s item = symbol r)) as [Hs|Hs].
      * unfold r1. rewrite bool_decide_eq_true_2 by congruence. done.
      * unfold r1. rewrite bool_decide_eq_false_2; [done |].
        intros Hi. by apply Hs, Hitem.
    + apply bool_decide_eq_false_1 in Hb.
      unfold r1. rewrite bool_decide_eq_false_2; [done |].
      intros Hi. apply Hb. by rewrite <- (Hitem Hi).
Qed.



End Payload.

Section Loader.
Context {number : Type} {Num : JSNumber number}.

Lemma loadItem_objects whitelist st item :
  exists extra, objects (loadItem whitelist st item) = objects st ++ extra.
Proof.
  unfold loadItem. repeat case_match.
  - exists []. by rewrite app_nil_r.
  - exists []. by rewrite app_nil_r.
  - by eexists.
Qed.

Lemma loadItem_live_consistent whitelist st item :
  mapConsistent (tickerMap st) st ->
  mapConsistent (tickerMap (loadItem whitelist st item)) (loadItem whitelist st item).
Proof.
  intros Hst. unfold loadItem. repeat case_match; try done.
  cbn. intros sym l.
  destruct (decide (TickerItem.symbol item = sym)) as [<-|Hs].
  - rewrite lookup_insert_eq. intros [= <-]. eexists. split; cbn.
    + rewrite lookup_app_r by lia. by rewrite Nat.sub_diag.
    + done.
  - rewrite lookup_insert_ne by done.
    intros Hl. destruct (Hst _ _ Hl) as (r & Hr & Hsym).
    exists r. split; [|done]. cbn. by apply lookup_app_l_Some.
Qed.

Lemma load_objects whitelist items st :
  exists extra,
    objects (foldl (loadItem whitelist) st items) = objects st ++ extra.
Proof.
  revert st. induction items as [|item rest IH]; intros st; cbn [foldl].
  - exists []. by rewrite app_nil_r.
  - destruct (IH (loadItem whitelist st item)) as [extra2 ->].
    destruct (loadItem_objects whitelist st item) as [extra1 ->].
    exists (extra1 ++ extra2). by rewrite app_assoc.
Qed.

Lemma load_live_consistent whitelist items st :
  mapConsistent (tickerMap st) st ->
  mapConsistent (tickerMap (foldl (loadItem whitelist) st items))
                (foldl (loadItem whitelist) st items).
Proof.
  revert st. induction items as [|item rest IH]; intros st Hst; cbn [foldl]; [done |].
  by apply IH, loadItem_live_consistent.
Qed.

(** A record object that exists before a snapshot load is not touched by
    it: the load only creates objects. *)
Lemma load_object whitelist items st l r :
  objects st !! l = Some r ->
  objects (foldl (loadItem whitelist) st items) !! l = Some r.
Proof.
  intros Hr. destruct (load_objects whitelist items st) as [extra ->].
  by apply lookup_app_l_Some.
Qed.

(** The record of a listed symbol after a snapshot load is the object
    literal of the loader, whatever the map held before. *)
Lemma loadItem_record whitelist st item :
  TickerItem.symbol item ∈ whitelist ->
  TickerItem.count item <> 0%N ->
  record (loadItem whitelist st item) (TickerItem.symbol item) =
  Some (snapshotRecord item).
Proof.
  intros Hin Hcount. unfold loadItem.
  rewrite bool_decide_eq_true_2 by done. cbn [negb].
  destruct (N.eqb_spec (TickerItem.count item) 0) as [|_]; [done |].
  unfold record, lookupRecord. cbn. rewrite lookup_insert_eq. cbn.
  rewrite lookup_app_r by lia. by rewrite Nat.sub_diag.
Qed.

Lemma allObjects_beforeNull {A : Type} (elements : list (option A)) objs :
  allObjects elements = Some objs -> beforeNull elements = objs.
Proof.
  revert objs. induction elements as [|[a|] rest IH]; intros objs; cbn.
  - by intros [= <-].
  - destruct (allObjects rest) as [objs'|]; [|done].
    intros [= <-]. by rewrite (IH objs').
  - done.
Qed.

(** The loop loads the items that precede the first [null] element, and
    runs to its end when there is none. *)
Lemma loadItems_written whitelist (st : State number) tickerData :
  loadItems whitelist st tickerData
  = (foldl (loadItem whitelist) st (beforeNull tickerData),
     match allObjects tickerData with Some _ => true | None => false end).
Proof.
  revert st. induction tickerData as [|[item|] rest IH]; intros st; cbn; [done | |done].
  rewrite IH. by destruct (allObjects rest).
Qed.

(** The state the [try] block of an origin leaves: the items before the
    first [null] element are loaded when the checks pass. *)
Lemma tryOrigin_state reply (st : State number) :
  fst (tryOrigin reply st)
  = match checkOrigin reply with
    | Some (tickerData, symbols) =>
        foldl (loadItem (tradingSymbols symbols)) st (beforeNull tickerData)
    | None => st
    end.
Proof.
  unfold tryOrigin. destruct (checkOrigin reply) as [[tickerData symbols]|]; [|done].
  by rewrite loadItems_written.
Qed.

Lemma tryOrigin_load reply (st : State number) :
  exists whitelist written,
    fst (tryOrigin reply st) = foldl (loadItem whitelist) st written.
Proof.
  rewrite tryOrigin_state.
  destruct (checkOrigin reply) as [[tickerData symbols]|].
  - by eexists _, _.
  - by exists ∅, [].
Qed.

Lemma tryOrigin_accepted reply tickerData symbols (st : State number) :
  acceptOrigin reply = Some (tickerData, symbols) ->
  tryOrigin reply st
  = (foldl (loadItem (tradingSymbols symbols)) st tickerData, true).
Proof.
  unfold acceptOrigin, tryOrigin.
  destruct (checkOrigin reply) as [[received listed]|]; [|done].
  destruct (allObjects received) as [items|] eqn:Hall; [|done].
  intros [= <- <-]. rewrite loadItems_written, Hall.
  by rewrite (allObjects_beforeNull _ _ Hall).
Qed.

Lemma tryOrigin_rejected reply (st : State number) :
  acceptOrigin reply = None -> snd (tryOrigin reply st) = false.
Proof.
  unfold acceptOrigin, tryOrigin.
  destruct (checkOrigin reply) as [[received listed]|]; [|done].
  rewrite loadItems_written.
  by destruct (allObjects received).
Qed.

End Loader.

Section Backfill.
Context {number : Type} {Num : JSNumber number}.

Lemma writeDetailedStats_tickerMap sym reply1h reply4h st :
  tickerMap (fst (writeDetailedStats sym reply1h reply4h st)) = tickerMap st.
Proof.
  unfold writeDetailedStats. repeat case_match; try done.
  cbn. by apply insert_id.
Qed.

Lemma writeDetailedStats_object sym reply1h reply4h st l r :
  objects st !! l = Some r ->
  objects (fst (writeDetailedStats sym reply1h reply4h st)) !! l =
  Some match detailValue reply1h, detailValue reply4h with
       | Some res1h, Some res4h =>
           if bool_decide (tickerMap st !! sym = Some l)
           then fst (fillWindows res1h res4h r) else r
       | _, _ => r
       end.
Proof.
  intros Hr. unfold writeDetailedStats.
  destruct (detailValue reply1h) as [res1h|]; [|done].
  destruct (detailValue reply4h) as [res4h|]; [|done].
  destruct (tickerMap st !! sym) as [l0|] eqn:Hl0.
  - destruct (objects st !! l0) as [item|] eqn:Hitem.
    + case_bool_decide as Heq.
      * injection Heq as ->. assert (item = r) as -> by congruence.
        apply lookup_lt_Some in Hr.
        destruct (snd (fillWindows res1h res4h r)); cbn;
          by rewrite list_lookup_insert_eq.
      * destruct (snd (fillWindows res1h res4h item)); cbn;
          (rewrite list_lookup_insert_ne by congruence); done.
    + rewrite bool_decide_eq_false_2 by congruence. done.
  - by rewrite bool_decide_eq_false_2.
Qed.

Lemma writeDetailedStats_consistent sym reply1h reply4h st m :
  mapConsistent m st ->
  mapConsistent m (fst (writeDetailedStats sym reply1h reply4h st)).
Proof.
  intros Hm s0 l Hl. destruct (Hm _ _ Hl) as (r & Hr & Hs).
  eexists. split; [by apply writeDetailedStats_object |].
  repeat case_match; by rewrite ?fillWindows_symbol.
Qed.

Lemma writeDetailedStats_absent sym reply1h reply4h st :
  tickerMap st !! sym = None ->
  writeDetailedStats sym reply1h reply4h st = (st, []).
Proof. intros Hn. unfold writeDetailedStats. rewrite Hn. by repeat case_match. Qed.

(** The data callbacks of the backfill are those of one [notify] on the
    final map, and there are none when nothing was written. *)
Lemma writeDetailedStats_effects sym reply1h reply4h st :
  snd (writeDetailedStats sym reply1h reply4h st) = [] \/
  snd (writeDetailedStats sym reply1h reply4h st) =
  map (fun cb => CallData cb (tickerMap st)) (subscribers st).
Proof.
  unfold writeDetailedStats. repeat case_match; auto.
  right. cbn. f_equal. by rewrite insert_id.
Qed.

End Backfill.

(** ** Invariants of the event loop *)

Section Invariants.
Context {number : Type} {Num : JSNumber number}.

Local Arguments Nat.modulo : simpl never.
Local Arguments displayUrl : simpl never.
Local Arguments reconnectDelay : simpl never.
Local Arguments String.append : simpl never.

Ltac unfold_methods :=
  unfold connect, fetchInitialSnapshot, requestOrigin, connectWebSocket,
    disconnect, subscribe, unsubscribe, subscribeStatus, unsubscribeStatus,
    fetchDetailedStats, onopen, onclose_handler, onerror_handler,
    scheduleReconnect, cancelReconnectTimer, closeWebSocket, openWebSocket,
    armReconnectTimer, clearTimeout, emitStatus, notify, setReadyState,
    andThen, update, perform, skip in *.

Ltac run_methods :=
  unfold_methods; cbn in *;
  repeat (case_match; cbn in * ); simplify_eq; cbn in *.

(** Only stream messages, snapshot replies and backfill replies write to
    the map or to the record objects. *)
Lemma step_other_records st ev st' effects :
  step st ev = Some (st', effects) ->
  writesRecords ev = false ->
  tickerMap st' = tickerMap st /\ objects st' = objects st.
Proof.
  intros Hstep Hw. destruct ev; try discriminate Hw; clear Hw;
    cbn in Hstep; run_methods; done.
Qed.

Lemma mapConsistent_objects m (st st' : State number) :
  objects st' = objects st -> mapConsistent m st -> mapConsistent m st'.
Proof. intros Ho Hm sym l Hl. rewrite Ho. by apply Hm. Qed.

Lemma merge_subscribers streamName items st :
  subscribers (foldl (mergeItem streamName) st items) = subscribers st.
Proof.
  revert st. induction items as [|item rest IH]; intros st; cbn [foldl]; [done |].
  by rewrite IH.
Qed.

Lemma load_subscribers whitelist items st :
  subscribers (foldl (loadItem whitelist) st items) = subscribers st.
Proof.
  revert st. induction items as [|item rest IH]; intros st; cbn [foldl]; [done |].
  rewrite IH. unfold loadItem. by repeat case_match.
Qed.

(** The updates of an envelope are merged and every data subscriber is
    called with a copy of the resulting map. *)
Lemma onmessage_envelope streamName data items st :
  rawData data = Some items ->
  onmessage (Envelope (BinanceStreamMessage.mk streamName data)) st =
  (foldl (mergeItem streamName) st items,
   map (fun cb => CallData cb (tickerMap (foldl (mergeItem streamName) st items)))
       (subscribers st)).
Proof.
  intros Hdata. unfold onmessage. cbn [BinanceStreamMessage.data BinanceStreamMessage.stream].
  rewrite Hdata. unfold andThen, update, notify. cbn [fst snd app].
  by rewrite merge_subscribers.
Qed.

(** A frame that is not JSON, or has no [data], is dropped. *)
Lemma onmessage_dropped frame st :
  match frame with
  | Garbled => True
  | Envelope message => rawData (BinanceStreamMessage.data message) = None
  end ->
  onmessage frame st = (st, []).
Proof. destruct frame as [|message]; [done |]. cbn. by intros ->. Qed.

(** *** The writers touch nothing but the map and the store *)

Lemma withRecords_id (st : State number) :
  withRecords (tickerMap st) (objects st) st = st.
Proof. by destruct st. Qed.

Lemma merge_frame streamName items st :
  foldl (mergeItem streamName) st items =
  withRecords (tickerMap (foldl (mergeItem streamName) st items))
              (objects (foldl (mergeItem streamName) st items)) st.
Proof.
  revert st. induction items as [|item rest IH]; intros st; cbn [foldl].
  - by rewrite withRecords_id.
  - rewrite IH at 1. reflexivity.
Qed.

Lemma load_frame whitelist items st :
  foldl (loadItem whitelist) st items =
  withRecords (tickerMap (foldl (loadItem whitelist) st items))
              (objects (foldl (loadItem whitelist) st items)) st.
Proof.
  revert st. induction items as [|item rest IH]; intros st; cbn [foldl].
  - by rewrite withRecords_id.
  - rewrite IH at 1. unfold loadItem. repeat case_match; try reflexivity.
    all: by rewrite withRecords_id.
Qed.

Lemma writeDetailedStats_frame sym reply1h reply4h st :
  fst (writeDetailedStats sym reply1h reply4h st) =
  withRecords (tickerMap (fst (writeDetailedStats sym reply1h reply4h st)))
              (objects (fst (writeDetailedStats sym reply1h reply4h st))) st.
Proof.
  unfold writeDetailedStats. repeat case_match; cbn;
    by rewrite ?withRecords_id.
Qed.

(** The state and the data callbacks after the replies of an origin. *)
Lemma resumeOrigin_accepted i reply tickerData symbols st :
  acceptOrigin reply = Some (tickerData, symbols) ->
  let st1 := set_snapshotAwaiting (removeOne i (snapshotAwaiting st)) st in
  let st2 := foldl (loadItem (tradingSymbols symbols)) st1 tickerData in
  resumeOrigin i reply st =
  (st2, map (fun cb => CallData cb (tickerMap st2)) (subscribers st)).
Proof.
  intros Ha. unfold resumeOrigin, andThen, update. cbn [fst snd app].
  rewrite (tryOrigin_accepted _ _ _ _ Ha). unfold notify. cbn [fst snd].
  by rewrite load_subscribers.
Qed.

(** An origin whose [try] block throws: the next origin is asked, in the
    state the block left. *)
Lemma resumeOrigin_rejected i reply st :
  acceptOrigin reply = None ->
  resumeOrigin i reply st =
  requestOrigin (S i)
    (fst (tryOrigin reply
            (set_snapshotAwaiting (removeOne i (snapshotAwaiting st)) st))).
Proof.
  intros Ha. unfold resumeOrigin, andThen, update. cbn [fst snd app].
  rewrite (tryOrigin_rejected _ _ Ha).
  by destruct (requestOrigin _ _).
Qed.

(** The same, with the writes of the block spelled out. *)
Lemma resumeOrigin_interrupted i reply st :
  acceptOrigin reply = None ->
  exists whitelist written,
    resumeOrigin i reply st =
    requestOrigin (S i)
      (foldl (loadItem whitelist)
             (set_snapshotAwaiting (removeOne i (snapshotAwaiting st)) st)
             written).
Proof.
  intros Ha. rewrite (resumeOrigin_rejected _ _ _ Ha).
  destruct (tryOrigin_load reply
              (set_snapshotAwaiting (removeOne i (snapshotAwaiting st)) st))
    as (whitelist & written & ->).
  by exists whitelist, written.
Qed.

Lemma requestOrigin_records i (st : State number) :
  tickerMap (fst (requestOrigin i st)) = tickerMap st /\
  objects (fst (requestOrigin i st)) = objects st /\
  subscribers (fst (requestOrigin i st)) = subscribers st /\
  forall cb m, CallData cb m ∈ snd (requestOrigin i st) ->
               m = tickerMap st /\ cb ∈ subscribers st.
Proof.
  unfold requestOrigin. destruct (apiDomains !! i) as [domain|].
  - unfold andThen, update, perform. cbn.
    split; [done | split; [done | split; [done |]]].
    intros cb m Hin.
    repeat (apply elem_of_cons in Hin as [Hin|Hin]; [discriminate |]).
    by apply elem_of_nil in Hin.
  - unfold notify. cbn.
    split; [done | split; [done | split; [done |]]].
    intros cb m (cb0 & [= -> ->] & Hin)%list_elem_of_fmap. done.
Qed.

(** What a step that writes records does to the state: the map and the
    store change, a finished snapshot load or backfill is taken off the
    list of those in flight, and a rejected origin puts the next one on
    it. *)
Lemma step_writer_frame st ev st' effects :
  step st ev = Some (st', effects) ->
  writesRecords ev = true ->
  exists awaiting pending,
    st' = set_snapshotAwaiting awaiting
            (set_pendingFetches pending
               (withRecords (tickerMap st') (objects st') st)).
Proof.
  intros Hstep Hw. destruct ev; try discriminate Hw; unfold step in Hstep.
  - case_bool_decide; [|done]. apply (inj Some) in Hstep.
    apply (f_equal fst) in Hstep. cbn [fst] in Hstep. subst st'.
    unfold settleDetailedStats, andThen, update. cbn [fst].
    exists (snapshotAwaiting st), (pendingFetches st ∖ {[sym]}).
    pose proof (writeDetailedStats_frame sym reply1h reply4h st) as Hf.
    destruct (writeDetailedStats sym reply1h reply4h st) as [w e].
    cbn [fst] in *. rewrite Hf.
    generalize (tickerMap w) (objects w). intros. by destruct st.
  - case_bool_decide; [|done]. apply (inj Some) in Hstep.
    destruct (acceptOrigin reply) as [[tickerData symbols]|] eqn:Ha.
    + rewrite (resumeOrigin_accepted _ _ _ _ _ Ha) in Hstep.
      injection Hstep as <- _.
      exists (removeOne i (snapshotAwaiting st)), (pendingFetches st).
      rewrite load_frame.
      generalize (tickerMap (foldl (loadItem (tradingSymbols symbols))
                    (set_snapshotAwaiting (removeOne i (snapshotAwaiting st)) st)
                    tickerData))
                 (objects (foldl (loadItem (tradingSymbols symbols))
                    (set_snapshotAwaiting (removeOne i (snapshotAwaiting st)) st)
                    tickerData)).
      intros. by destruct st.
    + destruct (resumeOrigin_interrupted i _ st Ha) as (whitelist & written & Hr).
      rewrite Hr in Hstep. clear Hr.
      apply (f_equal fst) in Hstep. cbn [fst] in Hstep. subst st'.
      assert (Hf : exists m objs,
                 foldl (loadItem whitelist)
                   (set_snapshotAwaiting (removeOne i (snapshotAwaiting st)) st)
                   written
                 = withRecords m objs
                     (set_snapshotAwaiting (removeOne i (snapshotAwaiting st)) st))
        by (eexists _, _; apply load_frame).
      destruct Hf as (m & objs & ->).
      unfold requestOrigin. destruct (apiDomains !! S i); cbn.
      * exists (S i :: removeOne i (snapshotAwaiting st)), (pendingFetches st).
        by destruct st.
      * exists (removeOne i (snapshotAwaiting st)), (pendingFetches st).
        by destruct st.
  - repeat case_match; try done. apply (inj Some) in Hstep.
    exists (snapshotAwaiting st), (pendingFetches st).
    destruct frame as [|[streamName data]].
    { rewrite (onmessage_dropped Garbled) in Hstep by done.
      simplify_eq. by destruct st'. }
    destruct (rawData data) as [items|] eqn:Hd.
    + rewrite (onmessage_envelope _ _ _ _ Hd) in Hstep.
      injection Hstep as <- _. rewrite merge_frame.
      generalize (tickerMap (foldl (mergeItem streamName) st items))
                 (objects (foldl (mergeItem streamName) st items)).
      intros. by destruct st.
    + rewrite onmessage_dropped in Hstep by done.
      simplify_eq. by destruct st'.
Qed.

(** Every step keeps a map consistent with the store: objects are only
    added, or updated in place without changing their [symbol]. *)
Lemma step_consistent st ev st' effects m :
  step st ev = Some (st', effects) ->
  mapConsistent m st -> mapConsistent m st'.
Proof.
  intros Hstep Hm. destruct (writesRecords ev) eqn:Hw.
  - destruct ev; try discriminate Hw; unfold step in Hstep.
    + case_bool_decide; [|done]. injection Hstep as <- _.
      unfold settleDetailedStats, andThen, update. cbn [fst].
      eapply mapConsistent_objects; [|by apply writeDetailedStats_consistent].
      done.
    + case_bool_decide; [|done]. apply (inj Some) in Hstep.
      destruct (acceptOrigin reply) as [[tickerData symbols]|] eqn:Ha.
      * rewrite (resumeOrigin_accepted _ _ _ _ _ Ha) in Hstep.
        injection Hstep as <- _.
        intros sym l Hl. destruct (Hm _ _ Hl) as (r & Hr & Hs).
        exists r. split; [|done]. by apply load_object.
      * destruct (resumeOrigin_interrupted i _ st Ha) as (whitelist & written & Hr).
        rewrite Hr in Hstep. clear Hr.
        apply (f_equal fst) in Hstep. cbn [fst] in Hstep. subst st'.
        eapply mapConsistent_objects;
          [exact (proj1 (proj2 (requestOrigin_records _ _))) |].
        intros sym l Hl. destruct (Hm _ _ Hl) as (r & Hr & Hs).
        exists r. split; [|done]. by apply load_object.
    + repeat case_match; try done. apply (inj Some) in Hstep.
      destruct frame as [|[streamName data]].
      { rewrite (onmessage_dropped Garbled) in Hstep by done. by simplify_eq. }
      destruct (rawData data) as [items|] eqn:Hd.
      * rewrite (onmessage_envelope _ _ _ _ Hd) in Hstep.
        injection Hstep as <- _. by apply merge_consistent.
      * rewrite onmessage_dropped in Hstep by done. by simplify_eq.
  - destruct (step_other_records _ _ _ _ Hstep Hw) as [_ Ho].
    by eapply mapConsistent_objects.
Qed.

(** Every step keeps the live map consistent with the store. *)
Lemma step_live_consistent st ev st' effects :
  step st ev = Some (st', effects) ->
  mapConsistent (tickerMap st) st -> mapConsistent (tickerMap st') st'.
Proof.
  intros Hstep Hm. destruct (writesRecords ev) eqn:Hw.
  - destruct ev; try discriminate Hw; unfold step in Hstep.
    + case_bool_decide; [|done]. injection Hstep as <- _.
      unfold settleDetailedStats, andThen, update. cbn [fst].
      change (mapConsistent
                (tickerMap (fst (writeDetailedStats sym reply1h reply4h st)))
                (fst (writeDetailedStats sym reply1h reply4h st))).
      rewrite writeDetailedStats_tickerMap.
      by apply writeDetailedStats_consistent.
    + case_bool_decide; [|done]. apply (inj Some) in Hstep.
      destruct (acceptOrigin reply) as [[tickerData symbols]|] eqn:Ha.
      * rewrite (resumeOrigin_accepted _ _ _ _ _ Ha) in Hstep.
        injection Hstep as <- _. by apply load_live_consistent.
      * destruct (resumeOrigin_interrupted i _ st Ha) as (whitelist & written & Hr).
        rewrite Hr in Hstep. clear Hr.
        apply (f_equal fst) in Hstep. cbn [fst] in Hstep. subst st'.
        destruct (requestOrigin_records (S i)
                    (foldl (loadItem whitelist)
                       (set_snapshotAwaiting (removeOne i (snapshotAwaiting st)) st)
                       written))
          as (Ht & Ho & _).
        rewrite Ht. eapply mapConsistent_objects; [exact Ho |].
        by apply load_live_consistent.
    + repeat case_match; try done. apply (inj Some) in Hstep.
      destruct frame as [|[streamName data]].
      { rewrite (onmessage_dropped Garbled) in Hstep by done. by simplify_eq. }
      destruct (rawData data) as [items|] eqn:Hd.
      * rewrite (onmessage_envelope _ _ _ _ Hd) in Hstep.
        injection Hstep as <- _. by apply merge_live_consistent.
      * rewrite onmessage_dropped in Hstep by done. by simplify_eq.
  - destruct (step_other_records _ _ _ _ Hstep Hw) as [Ht Ho].
    rewrite Ht. by eapply mapConsistent_objects.
Qed.

Ltac split_elem H :=
  repeat first
    [ apply elem_of_app in H as [H|H]
    | apply elem_of_cons in H as [H|H]
    | apply elem_of_nil in H; destruct H
    | apply list_elem_of_fmap in H as (? & H & ?) ];
  try discriminate H.

(** Every map handed to a data subscriber is a copy of the map as it is
    at the end of the step. *)
Lemma step_calls st ev st' effects cb m :
  step st ev = Some (st', effects) ->
  CallData cb m ∈ effects ->
  m = tickerMap st'.
Proof.
  intros Hstep Hin. destruct (writesRecords ev) eqn:Hw.
  - destruct ev; try discriminate Hw; unfold step in Hstep.
    + case_bool_decide; [|done]. apply (inj Some) in Hstep.
      unfold settleDetailedStats, andThen, update in Hstep.
      cbn [fst snd] in Hstep. injection Hstep as <- <-.
      rewrite app_nil_r in Hin. cbn.
      rewrite writeDetailedStats_tickerMap.
      destruct (writeDetailedStats_effects sym reply1h reply4h st) as [He|He];
        rewrite He in Hin; split_elem Hin. by simplify_eq.
    + case_bool_decide; [|done]. apply (inj Some) in Hstep.
      destruct (acceptOrigin reply) as [[tickerData symbols]|] eqn:Ha.
      * rewrite (resumeOrigin_accepted _ _ _ _ _ Ha) in Hstep.
        injection Hstep as <- <-. split_elem Hin. by simplify_eq.
      * rewrite (resumeOrigin_rejected _ _ _ Ha) in Hstep.
        destruct (requestOrigin_records (S i)
                    (fst (tryOrigin reply
                            (set_snapshotAwaiting
                               (removeOne i (snapshotAwaiting st)) st))))
          as (Ht & _ & _ & Hc).
        rewrite Hstep in Ht, Hc. cbn [fst snd] in Ht, Hc.
        rewrite Ht. by apply (Hc cb m).
    + repeat case_match; try done. apply (inj Some) in Hstep.
      destruct frame as [|[streamName data]].
      { rewrite (onmessage_dropped Garbled) in Hstep by done.
        simplify_eq. by apply elem_of_nil in Hin. }
      destruct (rawData data) as [items|] eqn:Hd.
      * rewrite (onmessage_envelope _ _ _ _ Hd) in Hstep.
        injection Hstep as <- <-. split_elem Hin. by simplify_eq.
      * rewrite onmessage_dropped in Hstep by done.
        simplify_eq. by apply elem_of_nil in Hin.
  - destruct ev; try discriminate Hw; clear Hw;
      cbn in Hstep; run_methods; split_elem Hin; by simplify_eq.
Qed.

(** The endpoint index stays within the endpoint list. *)
Lemma step_endpointIndex st ev st' effects :
  step st ev = Some (st', effects) ->
  (endpointIndex st < length BASE_WS_URLS)%nat ->
  (endpointIndex st' < length BASE_WS_URLS)%nat.
Proof.
  intros Hstep Hlt. destruct (writesRecords ev) eqn:Hw.
  - destruct (step_writer_frame _ _ _ _ Hstep Hw) as (a & p & ->). done.
  - destruct ev; try discriminate Hw; clear Hw;
      cbn in Hstep; run_methods; try done;
      by apply Nat.mod_upper_bound.
Qed.


(** *** Runs *)

Lemma initial_wellFormed : wellFormed (initial : State number).
Proof.
  split; [|cbn; lia]. intros sym l Hl.
  unfold initial in Hl. cbn [tickerMap] in Hl. by rewrite lookup_empty in Hl.
Qed.

(** Along a run the state stays well formed, and a map that is
    consistent with the store at some point, in particular one handed
    to a subscriber, stays so. *)
Lemma run_invariant st0 evs st effects :
  run st0 evs = Some (st, effects) ->
  wellFormed st0 ->
  wellFormed st /\
  (forall m, mapConsistent m st0 -> mapConsistent m st) /\
  (forall cb m, CallData cb m ∈ effects -> mapConsistent m st).
Proof.
  revert st0 effects. induction evs as [|ev evs IH]; intros st0 effects Hrun Hwf.
  - cbn in Hrun. simplify_eq. split; [done |]. split; [done |].
    intros cb m Hin. by apply elem_of_nil in Hin.
  - cbn [run] in Hrun.
    destruct (step st0 ev) as [[st1 e1]|] eqn:Hstep; [|done].
    destruct (run st1 evs) as [[st2 e2]|] eqn:Hrest; [|done].
    simplify_eq. destruct Hwf as [Hmap Hidx].
    assert (Hwf1 : wellFormed st1).
    { split; [by eapply step_live_consistent | by eapply step_endpointIndex]. }
    destruct (IH _ _ Hrest Hwf1) as (Hwf2 & Hkeep & Hcalls).
    split; [done |]. split.
    + intros m Hm. eapply Hkeep, step_consistent; eauto.
    + intros cb m [Hin|Hin]%elem_of_app; [|by eapply Hcalls].
      apply Hkeep. rewrite (step_calls _ _ _ _ _ _ Hstep Hin).
      by destruct Hwf1.
Qed.

Lemma run_wellFormed evs st effects :
  run initial evs = Some (st, effects) -> wellFormed st.
Proof. intros Hrun. by apply (run_invariant _ _ _ _ Hrun), initial_wellFormed. Qed.

Lemma run_delivered evs st effects cb m :
  run initial evs = Some (st, effects) ->
  CallData cb m ∈ effects ->
  mapConsistent m st.
Proof.
  intros Hrun. by apply (run_invariant _ _ _ _ Hrun), initial_wellFormed.
Qed.

Lemma endpointIndex_in_range evs st effects :
  run initial evs = Some (st, effects) ->
  (endpointIndex st < length BASE_WS_URLS)%nat.
Proof. intros Hrun. by apply (run_wellFormed _ _ _ Hrun). Qed.

End Invariants.

(** ** Stream messages *)

Section StreamMerge.
Context {number : Type} {Num : JSNumber number}.

Lemma applyUpdates_snoc streamName mine u r :
  applyUpdates streamName (mine ++ [u]) r =
  applyUpdate streamName u (applyUpdates streamName mine r).
Proof. unfold applyUpdates. by rewrite foldl_app. Qed.


End StreamMerge.

Section StreamFrame.
Context {number : Type} {Num : JSNumber number}.


End StreamFrame.


(** ** Change-window fields under each writer *)

Section ChangeWindows.
Context {number : Type} {Num : JSNumber number}.

(** A stream update never makes a change-window field undefined. *)
Lemma applyUpdate_keeps_defined streamName item r :
  (is_Some (changePercent1h r) ->
   is_Some (changePercent1h (applyUpdate streamName item r))) /\
  (is_Some (changePercent4h r) ->
   is_Some (changePercent4h (applyUpdate streamName item r))).
Proof.
  rewrite applyUpdate_group. destruct (groupOf streamName); cbn; eauto.
Qed.

Lemma applyUpdates_keeps_defined streamName mine r :
  (is_Some (changePercent1h r) ->
   is_Some (changePercent1h (applyUpdates streamName mine r))) /\
  (is_Some (changePercent4h r) ->
   is_Some (changePercent4h (applyUpdates streamName mine r))).
Proof.
  induction mine as [|u mine IH] using rev_ind; [done |].
  rewrite applyUpdates_snoc.
  destruct (applyUpdate_keeps_defined streamName u (applyUpdates streamName mine r)).
  destruct IH. split; auto.
Qed.

(** The guarded writes of the backfill, field by field. *)
Lemma fillWindows_fields res1h res4h item :
  let item' := fst (fillWindows res1h res4h item) in
  symbol item' = symbol item /\
  price item' = price item /\
  volume item' = volume item /\
  changePercent24h item' = changePercent24h item /\
  descriptive item' = descriptive item /\
  changePercent1h item' =
    match changePercent1h item, res1h with
    | Some x, _ => Some x
    | None, Some property => Some (parsePercent property)
    | None, None => None
    end /\
  changePercent4h item' =
    match changePercent4h item, res4h with
    | Some x, _ => Some x
    | None, Some property => Some (parsePercent property)
    | None, None => None
    end.
Proof.
  unfold fillWindows.
  destruct res1h, res4h, (changePercent1h item) eqn:H1,
    (changePercent4h item) eqn:H4; cbn; rewrite ?H1, ?H4; cbn;
    rewrite ?H1, ?H4; done.
Qed.

(** The record of the symbol after the continuation of a backfill. *)
Lemma settleDetailedStats_record sym reply1h reply4h st r :
  record st sym = Some r ->
  record (fst (settleDetailedStats sym reply1h reply4h st)) sym =
  Some match detailValue reply1h, detailValue reply4h with
       | Some res1h, Some res4h => fst (fillWindows res1h res4h r)
       | _, _ => r
       end.
Proof.
  unfold record, lookupRecord. intros Hr.
  destruct (tickerMap st !! sym) as [l|] eqn:Hl; [cbn in Hr | done].
  unfold settleDetailedStats, andThen, update. cbn [fst].
  change (tickerMap (fst (writeDetailedStats sym reply1h reply4h st)) !! sym
          ≫= (fun l => objects (fst (writeDetailedStats sym reply1h reply4h st)) !! l)
          = Some match detailValue reply1h, detailValue reply4h with
                 | Some res1h, Some res4h => fst (fillWindows res1h res4h r)
                 | _, _ => r
                 end).
  rewrite writeDetailedStats_tickerMap, Hl. cbn.
  rewrite (writeDetailedStats_object _ _ _ _ _ _ Hr).
  by rewrite bool_decide_eq_true_2.
Qed.

(** C2.  The continuation of a backfill, on the record [r] the map holds
    for the symbol at that time: the 1-hour (resp. 4-hour) change is
    written, with the parsed percentage of the reply, only when it is
    undefined in [r] (and both requests resolved, the one of that window
    to a truthy value); a value that is already defined, for instance by
    a stream message, is retained.  No other field changes. *)
Theorem backfill_fills_only_undefined
    (st : State number) (sym : string) (r : TickerData number)
    (reply1h reply4h : DetailReply) :
  record st sym = Some r ->
  exists r',
    record (fst (settleDetailedStats sym reply1h reply4h st)) sym = Some r' /\
    symbol r' = symbol r /\ price r' = price r /\ volume r' = volume r /\
    changePercent24h r' = changePercent24h r /\
    descriptive r' = descriptive r /\
    changePercent1h r' =
      match changePercent1h r with
      | Some streamed => Some streamed
      | None =>
          match detailValue reply1h, detailValue reply4h with
          | Some (Some property), Some _ => Some (parsePercent property)
          | _, _ => None
          end
      end /\
    changePercent4h r' =
      match changePercent4h r with
      | Some streamed => Some streamed
      | None =>
          match detailValue reply1h, detailValue reply4h with
          | Some _, Some (Some property) => Some (parsePercent property)
          | _, _ => None
          end
      end.
Proof.
  intros Hr. eexists. split; [by apply settleDetailedStats_record |].
  destruct (detailValue reply1h) as [res1h|], (detailValue reply4h) as [res4h|].
  - destruct (fillWindows_fields res1h res4h r) as (? & ? & ? & ? & ? & H1 & H4).
    repeat split; try done; rewrite ?H1, ?H4;
      by destruct (changePercent1h r), (changePercent4h r), res1h, res4h.
  - repeat split; try done; by destruct (changePercent1h r), (changePercent4h r), res1h.
  - repeat split; by destruct (changePercent1h r), (changePercent4h r).
  - repeat split; by destruct (changePercent1h r), (changePercent4h r).
Qed.

End ChangeWindows.

(** The scenario of the design document: the backfill for ETHUSDT returns
    1.1 for the 1-hour window after a stream message has set the 1-hour
    change to 0.9; the record keeps 0.9 (and takes the 4-hour value, which
    no stream message has set). *)
Lemma backfill_fills_only_undefined_witness :
  record (stateAfter Scenario.streamedFirst) "ETHUSDT" =
    Some (mkTickerData "ETHUSDT" (Decimal.Dec 3000) (Decimal.Dec 0)
            (Some (Decimal.Dec (9 # 10))) None (Decimal.Dec 0) noDescriptive) /\
  exists r',
    record (fst (settleDetailedStats "ETHUSDT"
                   (Http 200 (Shaped (Some "1.1"))) (Http 200 (Shaped (Some "2.2")))
                   (stateAfter Scenario.streamedFirst))) "ETHUSDT" = Some r' /\
    changePercent1h r' = Some (Decimal.Dec (9 # 10)) /\
    changePercent4h r' = Some (Decimal.Dec (11 # 5)).
Proof.
  assert (Hrecord :
    record (stateAfter Scenario.streamedFirst) "ETHUSDT" =
    Some (mkTickerData "ETHUSDT" (Decimal.Dec 3000) (Decimal.Dec 0)
            (Some (Decimal.Dec (9 # 10))) None (Decimal.Dec 0) noDescriptive))
    by (vm_compute; reflexivity).
  split; [exact Hrecord |].
  destruct (backfill_fills_only_undefined
              (stateAfter Scenario.streamedFirst) "ETHUSDT" _
              (Http 200 (Shaped (Some "1.1"))) (Http 200 (Shaped (Some "2.2")))
              Hrecord)
    as (r' & Hr' & _ & _ & _ & _ & _ & H1 & H4).
  exists r'. split; [exact Hr' |]. split; [exact H1 | exact H4].
Defined.

Section BackfillUnknown.
Context {number : Type} {Num : JSNumber number}.

Lemma dataCalls_app e1 e2 : dataCalls (e1 ++ e2) = dataCalls e1 ++ dataCalls e2.
Proof. unfold dataCalls. apply omap_app. Qed.

Lemma dataCalls_notify m (cbs : list Callback) :
  dataCalls (map (fun cb => CallData cb m) cbs) = map (fun cb => (cb, m)) cbs.
Proof. induction cbs as [|cb cbs IH]; cbn; [done | by rewrite <- IH]. Qed.

Lemma union_difference_singleton (X : gset string) (x : string) :
  x ∉ X -> (X ∪ {[ x ]}) ∖ {[ x ]} = X.
Proof.
  intros Hx. apply set_eq. intros y.
  rewrite elem_of_difference, elem_of_union, elem_of_singleton.
  split; [by intros [[?|?] ?] |].
  intros Hy. split; [by left |]. by intros ->.
Qed.

Lemma settle_absent sym reply1h reply4h (st : State number) :
  tickerMap st !! sym = None ->
  settleDetailedStats sym reply1h reply4h st =
  (set_pendingFetches (pendingFetches st ∖ {[ sym ]}) st, []).
Proof.
  intros Hn. unfold settleDetailedStats, andThen, update.
  by rewrite (writeDetailedStats_absent _ _ _ _ Hn).
Qed.

(** C10 (amended).  [fetchDetailedStats] for a symbol that the map does
    not hold and for which no fetch is in flight: the two requests are
    issued and the symbol is marked in flight.  The map is read again when
    the replies arrive.  If the map still holds no record for the symbol
    then (in particular when nothing happened in between), the
    continuation, whatever the replies, leaves the map and the record
    objects unchanged and calls no subscriber; with nothing in between
    the state is again the state before the call, and a later call for
    the symbol issues its requests again.  In every state, whatever the
    map holds, the continuation takes the symbol out of the set of those
    in flight. *)
Theorem backfill_of_unknown_symbol
    (st : State number) (sym : string) (reply1h reply4h : DetailReply) :
  tickerMap st !! sym = None ->
  sym ∉ pendingFetches st ->
  let started := fetchDetailedStats sym st in
  let settled := settleDetailedStats sym reply1h reply4h (fst started) in
  snd started <> [] /\
  (sym ∈ pendingFetches (fst started)) /\
  fst settled = st /\
  tickerMap (fst settled) = tickerMap st /\
  objects (fst settled) = objects st /\
  snd settled = [] /\
  dataCalls (snd started ++ snd settled) = [] /\
  (sym ∉ pendingFetches (fst settled)) /\
  fetchDetailedStats sym (fst settled) = started /\
  (forall st2 : State number, tickerMap st2 !! sym = None ->
     let settled2 := settleDetailedStats sym reply1h reply4h st2 in
     tickerMap (fst settled2) = tickerMap st2 /\
     objects (fst settled2) = objects st2 /\
     snd settled2 = [] /\
     (sym ∉ pendingFetches (fst settled2))) /\
  (forall st2 : State number,
     sym ∉ pendingFetches (fst (settleDetailedStats sym reply1h reply4h st2))).
Proof.
  intros Hmap Hpending started settled.
  assert (Hstarted : started =
            (set_pendingFetches (pendingFetches st ∪ {[ sym ]}) st,
             [HttpGet ("https://data-api.binance.vision/api/v3/ticker"
                       +:+ "?symbol=" +:+ sym +:+ "&windowSize=1h");
              HttpGet ("https://data-api.binance.vision/api/v3/ticker"
                       +:+ "?symbol=" +:+ sym +:+ "&windowSize=4h")])).
  { unfold started, fetchDetailedStats.
    by rewrite bool_decide_eq_false_2. }
  assert (Hsettled : settled = (st, [])).
  { unfold settled. rewrite Hstarted. cbn [fst].
    rewrite settle_absent by done. f_equal.
    cbn [pendingFetches set_pendingFetches].
    rewrite union_difference_singleton by done.
    by destruct st. }
  rewrite Hsettled. cbn [fst snd].
  split; [by rewrite Hstarted |].
  split; [rewrite Hstarted; cbn; apply elem_of_union_r, elem_of_singleton_2; done |].
  split; [done |]. split; [done |]. split; [done |]. split; [done |].
  split; [by rewrite Hstarted |].
  split; [done |]. split; [done |].
  split.
  - intros st2 Hn. rewrite (settle_absent _ _ _ _ Hn). cbn.
    split; [done |]. split; [done |]. split; [done |].
    intros [_ Hne]%elem_of_difference. apply Hne. by apply elem_of_singleton_2.
  - intros st2. unfold settleDetailedStats, andThen, update.
    cbn [fst pendingFetches set_pendingFetches].
    intros [_ Hne]%elem_of_difference. apply Hne. by apply elem_of_singleton_2.
Qed.

End BackfillUnknown.

(** C10, as stated, fails.  ETHUSDT is not in the map and not in flight
    when [fetchDetailedStats] is called for it; a 1-hour stream message
    then creates its record; when the two replies arrive, the same
    backfill writes the 4-hour change of that record and calls the
    subscriber. *)
Lemma backfill_of_unknown_symbol_can_write :
  let called := stateAfter (take 3 Scenario.streamedFirst) in
  let streamed := stateAfter Scenario.streamedFirst in
  let settle :=
    DetailedStatsSettled "ETHUSDT"
      (Http 200 (Shaped (Some "1.1"))) (Http 200 (Shaped (Some "2.2"))) in
  tickerMap called !! "ETHUSDT" = None /\
  ("ETHUSDT" ∉ pendingFetches called) /\
  fst <$> run called (drop 3 Scenario.streamedFirst) = Some streamed /\
  drop 3 Scenario.streamedFirst
  = [ CallFetchDetailedStats "ETHUSDT";
      SocketMessage 0
        (Scenario.frame Scenario.hourlyStream
           [Scenario.update "ETHUSDT" "3000" "0" "0.9"]) ] /\
  (changePercent4h <$> record streamed "ETHUSDT") = Some None /\
  let after := stateAfter (Scenario.streamedFirst ++ [settle]) in
  step streamed settle = Some (after, [CallData 1 (tickerMap after)]) /\
  (changePercent4h <$> record after "ETHUSDT")
  = Some (Some (Decimal.Dec (11 # 5))).
Proof.
  cbv zeta.
  split; [vm_compute; reflexivity |].
  split; [vm_compute; intros H; discriminate H |].
  split; [vm_compute; reflexivity |].
  split; [reflexivity |].
  split; [vm_compute; reflexivity |].
  split; vm_compute; reflexivity.
Qed.

Lemma backfill_of_unknown_symbol_witness :
  tickerMap (stateAfter Scenario.seeded) !! "NOSUCHPAIR" = None /\
  ("NOSUCHPAIR" ∉ pendingFetches (stateAfter Scenario.seeded)) /\
  fst (settleDetailedStats "NOSUCHPAIR"
         (Http 200 (Shaped (Some "1.1"))) (Http 404 NotJson)
         (fst (fetchDetailedStats "NOSUCHPAIR" (stateAfter Scenario.seeded))))
  = stateAfter Scenario.seeded.
Proof.
  assert (Habsent : tickerMap (stateAfter Scenario.seeded) !! "NOSUCHPAIR" = None)
    by (vm_compute; reflexivity).
  assert (Hidle : "NOSUCHPAIR" ∉ pendingFetches (stateAfter Scenario.seeded))
    by (vm_compute; intros H; discriminate H).
  split; [exact Habsent |]. split; [exact Hidle |].
  exact (proj1 (proj2 (proj2
           (backfill_of_unknown_symbol (stateAfter Scenario.seeded) "NOSUCHPAIR"
              (Http 200 (Shaped (Some "1.1"))) (Http 404 NotJson)
              Habsent Hidle)))).
Defined.

(** ** Snapshot loader *)

(** C1.  The claim fails on the snapshot loader.  A 1-hour stream message
    arrives before the first snapshot origin answers and sets the 1-hour
    change of BTCUSDT to 0.4; the snapshot load that completes afterwards
    replaces the record by a new object whose [changePercent1h] and
    [changePercent4h] are undefined. *)
Theorem snapshot_load_resets_streamed_change :
  let before := stateAfter Scenario.streamedBeforeSnapshot in
  let after := stateAfter (Scenario.streamedBeforeSnapshot ++ [Scenario.lateSnapshot]) in
  fst <$> step before Scenario.lateSnapshot = Some after /\
  changePercent1h <$> record before "BTCUSDT" = Some (Some (Decimal.Dec (2 # 5))) /\
  changePercent1h <$> record after "BTCUSDT" = Some None /\
  changePercent4h <$> record after "BTCUSDT" = Some None.
Proof. vm_compute. repeat split; reflexivity. Qed.

Section SnapshotLoader.
Context {number : Type} {Num : JSNumber number}.

(** A reply with a network error or a status outside 200-299, from either
    endpoint, makes the origin fail in its checks. *)
Lemma checkOrigin_not_ok reply : notOk reply -> checkOrigin reply = None.
Proof.
  unfold notOk, checkOrigin.
  destruct (tickerRes reply) as [|s1 b1], (exchangeInfoRes reply) as [|s2 b2];
    try done.
  intros [->| ->]; cbn; [done |]. by destruct (ok s1).
Qed.

Lemma acceptOrigin_not_ok reply : notOk reply -> acceptOrigin reply = None.
Proof. intros Hno. unfold acceptOrigin. by rewrite (checkOrigin_not_ok _ Hno). Qed.

Lemma dataCalls_httpGet target effects :
  dataCalls (HttpGet target :: effects) = dataCalls effects.
Proof. reflexivity. Qed.

Lemma removeOne_head i l : removeOne i (i :: l) = l.
Proof. cbn. by rewrite Nat.eqb_refl. Qed.

Lemma tryOrigin_subscribers reply (st : State number) :
  subscribers (fst (tryOrigin reply st)) = subscribers st.
Proof.
  destruct (tryOrigin_load reply st) as (whitelist & written & ->).
  apply load_subscribers.
Qed.

Lemma tryOrigin_unwritten reply (st : State number) :
  failsBeforeWriting reply -> fst (tryOrigin reply st) = st.
Proof.
  unfold failsBeforeWriting. rewrite tryOrigin_state.
  destruct (checkOrigin reply) as [[tickerData symbols]|]; [|done].
  by intros ->.
Qed.

(** The loop from origin [i] on, when every remaining origin fails: the
    state is the one the [try] blocks leave one after the other, and the
    effects are the requests to the remaining origins followed by one
    [notify]. *)
Lemma awaitOrigins_all_fail replies i (st : State number) :
  Forall (fun reply => acceptOrigin reply = None) replies ->
  length replies = (length apiDomains - i)%nat ->
  (i < length apiDomains)%nat ->
  let r := awaitOrigins i replies
             (set_snapshotAwaiting (i :: snapshotAwaiting st) st) in
  let final := foldl (fun s reply => fst (tryOrigin reply s)) st replies in
  fst r = final /\
  dataCalls (snd r) = map (fun cb => (cb, tickerMap final)) (subscribers st).
Proof.
  revert i st. induction replies as [|reply rest IH]; intros i st Hfail Hlen Hi.
  - change (length (@nil OriginReply)) with 0%nat in Hlen. lia.
  - apply Forall_cons in Hfail as [Hreply Hrest].
    cbn [awaitOrigins foldl]. rewrite Hreply.
    unfold andThen. rewrite (resumeOrigin_rejected _ _ _ Hreply).
    cbn [snapshotAwaiting set_snapshotAwaiting]. rewrite removeOne_head.
    replace (set_snapshotAwaiting (snapshotAwaiting st)
               (set_snapshotAwaiting (i :: snapshotAwaiting st) st))
      with st by (by destruct st).
    set (st1 := fst (tryOrigin reply st)).
    assert (Hsubs : subscribers st1 = subscribers st)
      by apply tryOrigin_subscribers.
    unfold requestOrigin.
    destruct (apiDomains !! S i) as [domain|] eqn:Hdomain.
    + apply lookup_lt_Some in Hdomain as Hlt.
      unfold andThen, update, perform. cbn [fst snd].
      change (length (reply :: rest)) with (S (length rest)) in Hlen.
      destruct (IH (S i) st1 Hrest ltac:(lia) Hlt) as [Hst Hcalls].
      cbv zeta in Hst, Hcalls.
      split; [exact Hst |].
      cbn [app]. rewrite !dataCalls_httpGet, <- Hsubs. exact Hcalls.
    + apply lookup_ge_None in Hdomain.
      change (length (reply :: rest)) with (S (length rest)) in Hlen.
      assert (rest = []) as -> by (destruct rest; [done | cbn [length] in Hlen; lia]).
      cbn [awaitOrigins foldl]. unfold skip, notify. cbn [fst snd].
      split; [done |]. rewrite app_nil_r, <- Hsubs. apply dataCalls_notify.
Qed.

Lemma failures_unwritten replies (st : State number) :
  Forall failsBeforeWriting replies ->
  foldl (fun s reply => fst (tryOrigin reply s)) st replies = st.
Proof.
  induction 1 as [|reply rest Hreply _ IH]; cbn [foldl]; [done |].
  by rewrite (tryOrigin_unwritten _ _ Hreply).
Qed.

(** C7 (amended).  A snapshot load in which every origin fails calls
    every data subscriber exactly once, when the last origin has failed,
    with a copy of the map as it is then.  The state is the one the [try]
    blocks of the origins leave one after the other: a block that throws
    in its checks writes nothing, and a block that throws inside the loop
    over the ticker array (a [null] element) has loaded the elements
    before it.  So the state, with the record map and the record objects,
    is exactly as it was when every origin fails before its first write,
    in particular when every origin fails with a network error or a status
    outside 200-299. *)
Theorem snapshot_total_failure_notifies
    (st : State number) (replies : list OriginReply) :
  length replies = length apiDomains ->
  Forall (fun reply => acceptOrigin reply = None) replies ->
  let final := fst (snapshotLoad replies st) in
  final = foldl (fun s reply => fst (tryOrigin reply s)) st replies /\
  (forall reply s,
     fst (tryOrigin reply s)
     = match checkOrigin reply with
       | Some (tickerData, symbols) =>
           foldl (loadItem (tradingSymbols symbols)) s (beforeNull tickerData)
       | None => s
       end) /\
  dataCalls (snd (snapshotLoad replies st)) =
    map (fun cb => (cb, tickerMap final)) (subscribers st) /\
  (Forall failsBeforeWriting replies ->
   final = st /\ tickerMap final = tickerMap st /\ objects final = objects st) /\
  (Forall notOk replies ->
   final = st /\ tickerMap final = tickerMap st /\ objects final = objects st).
Proof.
  intros Hlen Hfail. cbv zeta.
  assert (H : fst (snapshotLoad replies st)
              = foldl (fun s reply => fst (tryOrigin reply s)) st replies /\
              dataCalls (snd (snapshotLoad replies st)) =
              map (fun cb => (cb, tickerMap (fst (snapshotLoad replies st))))
                  (subscribers st)).
  { unfold snapshotLoad, fetchInitialSnapshot, requestOrigin.
    change (apiDomains !! 0%nat) with (Some "https://data-api.binance.vision").
    unfold andThen, update, perform. cbn [fst snd app].
    destruct (awaitOrigins_all_fail replies 0 st Hfail) as [Hst Hcalls];
      [by rewrite Hlen | cbn; lia |].
    cbv zeta in Hst, Hcalls. split; [exact Hst |].
    rewrite !dataCalls_httpGet, Hst. exact Hcalls. }
  destruct H as [Hst Hcalls].
  assert (Hunwritten : Forall failsBeforeWriting replies ->
            fst (snapshotLoad replies st) = st /\
            tickerMap (fst (snapshotLoad replies st)) = tickerMap st /\
            objects (fst (snapshotLoad replies st)) = objects st).
  { intros Hbefore. rewrite Hst, (failures_unwritten _ _ Hbefore). done. }
  split; [exact Hst |]. split; [apply tryOrigin_state |].
  split; [exact Hcalls |]. split; [exact Hunwritten |].
  intros Hno. apply Hunwritten.
  eapply Forall_impl; [exact Hno |].
  intros reply Hreply. unfold failsBeforeWriting.
  by rewrite (checkOrigin_not_ok _ Hreply).
Qed.

End SnapshotLoader.

(** C7, as stated, fails.  The first origin answers with a ticker array
    whose second element is [null]: its [try] block sets the record of
    BTCUSDT and then throws, and the two other origins answer with an
    error status.  Every origin has failed, the map was empty before the
    load and binds BTCUSDT after it, and the subscriber is called with
    that map. *)
Lemma snapshot_total_failure_can_change_the_map :
  Forall (fun reply => acceptOrigin reply = None)
    [Scenario.interrupted "BTCUSDT" "50000" "1e9" "2.5";
     Scenario.unavailable 503; Scenario.unavailable 500] /\
  tickerMap (stateAfter (take 3 Scenario.allOriginsFail)) = ∅ /\
  is_Some (run initial Scenario.allOriginsFail) /\
  tickerMap (stateAfter Scenario.allOriginsFail)
  <> tickerMap (stateAfter (take 3 Scenario.allOriginsFail)) /\
  (price <$> record (stateAfter Scenario.allOriginsFail) "BTCUSDT")
  = Some (Decimal.Dec 50000) /\
  dataCalls (effectsOf Scenario.allOriginsFail)
  = [(1%nat, tickerMap (stateAfter Scenario.allOriginsFail))].
Proof.
  split; [repeat constructor |].
  split; [vm_compute; reflexivity |].
  split; [vm_compute; eexists; reflexivity |].
  split; [vm_compute; discriminate |].
  split; vm_compute; reflexivity.
Qed.

(** The scenario of the design document: all three origins answer with an
    error status while the map is empty; the map stays empty and the
    subscriber is called once, with an empty map. *)
Lemma snapshot_total_failure_notifies_witness :
  Forall (fun reply => acceptOrigin reply = None)
    [Scenario.unavailable 503; Scenario.unavailable 418; Scenario.unavailable 500] /\
  Forall notOk
    [Scenario.unavailable 503; Scenario.unavailable 418; Scenario.unavailable 500] /\
  tickerMap (fst (snapshotLoad
                    [Scenario.unavailable 503; Scenario.unavailable 418;
                     Scenario.unavailable 500]
                    (stateAfter Scenario.connected))) = ∅ /\
  dataCalls (snd (snapshotLoad
                    [Scenario.unavailable 503; Scenario.unavailable 418;
                     Scenario.unavailable 500]
                    (stateAfter Scenario.connected))) = [(1%nat, ∅)].
Proof.
  assert (Hfail : Forall (fun reply => acceptOrigin reply = None)
            [Scenario.unavailable 503; Scenario.unavailable 418;
             Scenario.unavailable 500])
    by (repeat constructor).
  assert (Hno : Forall notOk
            [Scenario.unavailable 503; Scenario.unavailable 418;
             Scenario.unavailable 500])
    by (repeat constructor; vm_compute; tauto).
  split; [exact Hfail |]. split; [exact Hno |].
  destruct (snapshot_total_failure_notifies (stateAfter Scenario.connected)
              [Scenario.unavailable 503; Scenario.unavailable 418;
               Scenario.unavailable 500] eq_refl Hfail)
    as (_ & _ & Hcalls & _ & Hnot).
  destruct (Hnot Hno) as (Hsame & Hmap & _).
  split.
  - etrans; [exact Hmap |]. vm_compute. reflexivity.
  - etrans; [exact Hcalls |]. rewrite Hmap. vm_compute. reflexivity.
Defined.

(** ** Connecting *)

Section Connect.
Context {number : Type} {Num : JSNumber number}.

(** C5 (amended).  While a socket is held that is open or connecting,
    [connectWebSocket] is a no-op: no state change, no status callback, no
    timer, no new socket.  [connect] in that state makes no connection
    attempt either, but it is not a no-op: it does what
    [fetchInitialSnapshot] does up to its first [await], that is, it
    issues the two requests to the first snapshot origin and records that
    their replies are awaited.  That is all it does: every other part of
    the state is as before and no subscriber is called. *)
Theorem connect_when_connected_only_reloads_snapshot
    (st : State number) (constructorThrows : bool) :
  connectedOrConnecting st = true ->
  connectWebSocket constructorThrows st = (st, []) /\
  connect constructorThrows st = fetchInitialSnapshot st /\
  connect constructorThrows st =
    (set_snapshotAwaiting (0%nat :: snapshotAwaiting st) st,
     [ HttpGet "https://data-api.binance.vision/api/v3/ticker/24hr";
       HttpGet "https://data-api.binance.vision/api/v3/exchangeInfo?permissions=SPOT" ]).
Proof.
  intros Hbusy.
  assert (Hws : forall st' : State number,
            connectedOrConnecting st' = true ->
            connectWebSocket constructorThrows st' = (st', [])).
  { intros st' H. unfold connectWebSocket. by rewrite H. }
  split; [by apply Hws |].
  assert (Hsnapshot : fetchInitialSnapshot st =
            (set_snapshotAwaiting (0%nat :: snapshotAwaiting st) st,
             [ HttpGet "https://data-api.binance.vision/api/v3/ticker/24hr";
               HttpGet "https://data-api.binance.vision/api/v3/exchangeInfo?permissions=SPOT" ]))
    by reflexivity.
  assert (Hconnect : connect constructorThrows st = fetchInitialSnapshot st).
  { unfold connect, andThen. rewrite Hsnapshot. cbn [fst snd].
    rewrite Hws by exact Hbusy. cbn [fst snd]. by rewrite app_nil_r. }
  split; [exact Hconnect |]. by rewrite Hconnect.
Qed.

End Connect.

(** C5, as stated, fails: with the socket open, [connect] changes the
    state and has effects. *)
Lemma connect_when_connected_is_not_a_noop :
  connectedOrConnecting (stateAfter Scenario.connected) = true /\
  connect false (stateAfter Scenario.connected)
  <> (stateAfter Scenario.connected, []).
Proof.
  split; [vm_compute; reflexivity |].
  intros H. apply (f_equal snd) in H. vm_compute in H. discriminate H.
Qed.

Lemma connect_when_connected_only_reloads_snapshot_witness :
  connectedOrConnecting (stateAfter Scenario.connected) = true /\
  connectWebSocket false (stateAfter Scenario.connected)
  = (stateAfter Scenario.connected, []).
Proof.
  assert (Hbusy : connectedOrConnecting (stateAfter Scenario.connected) = true)
    by (vm_compute; reflexivity).
  split; [exact Hbusy |].
  exact (proj1 (connect_when_connected_only_reloads_snapshot
                  (stateAfter Scenario.connected) false Hbusy)).
Defined.

(** ** Registries *)

Section Registry.

Lemma registrations_removed (cb : Callback) (registry : list Callback) :
  registrations cb (filter (fun c => c <> cb) registry) = 0%nat.
Proof.
  unfold registrations. induction registry as [|c registry IH]; [done |].
  rewrite filter_cons. destruct (decide (c <> cb)) as [Hne|Heq]; [|done].
  rewrite filter_cons. by destruct (decide (c = cb)).
Qed.

Lemma registrations_kept (cb cb' : Callback) (registry : list Callback) :
  cb' <> cb ->
  registrations cb' (filter (fun c => c <> cb) registry) = registrations cb' registry.
Proof.
  intros Hne. unfold registrations.
  induction registry as [|c registry IH]; [done |].
  rewrite !filter_cons. destruct (decide (c <> cb)) as [Hc|Hc].
  - rewrite filter_cons. destruct (decide (c = cb')); cbn; by rewrite IH.
  - destruct (decide (c = cb')) as [->|]; [|done].
    exfalso. apply Hc. done.
Qed.

Lemma registrations_length (cb : Callback) (registry : list Callback) :
  (length (filter (fun c => c <> cb) registry) + registrations cb registry
   = length registry)%nat.
Proof.
  unfold registrations. induction registry as [|c registry IH]; [done |].
  rewrite !filter_cons.
  destruct (decide (c <> cb)) as [Hc|Hc], (decide (c = cb)) as [He|He]; cbn;
    try lia; done.
Qed.

Lemma registrations_app (cb : Callback) (l1 l2 : list Callback) :
  registrations cb (l1 ++ l2) = (registrations cb l1 + registrations cb l2)%nat.
Proof. unfold registrations. by rewrite filter_app, length_app. Qed.

Context {number : Type} {Num : JSNumber number}.

(** C6 (amended).  In both registries a registration is the callback
    itself, appended by [subscribe] (resp. [subscribeStatus]).  The
    function returned by a subscribe call removes every registration of
    that callback, and only those: the registrations of every other
    callback stay, in their order; the registry shrinks by the number of
    registrations the callback had, hence by exactly one when it was
    registered once.  The other registry and the rest of the state are
    untouched and no callback is called. *)
Theorem unsubscribe_removes_every_registration
    (st : State number) (cb : Callback) :
  registrations cb (subscribers (fst (subscribe cb st)))
    = S (registrations cb (subscribers st)) /\
  registrations cb (statusSubscribers (fst (subscribeStatus cb st)))
    = S (registrations cb (statusSubscribers st)) /\
  unsubscribe cb st =
    (set_subscribers (filter (fun c => c <> cb) (subscribers st)) st, []) /\
  unsubscribeStatus cb st =
    (set_statusSubscribers (filter (fun c => c <> cb) (statusSubscribers st)) st, []) /\
  registrations cb (subscribers (fst (unsubscribe cb st))) = 0%nat /\
  registrations cb (statusSubscribers (fst (unsubscribeStatus cb st))) = 0%nat /\
  (forall cb', cb' <> cb ->
     registrations cb' (subscribers (fst (unsubscribe cb st)))
       = registrations cb' (subscribers st) /\
     registrations cb' (statusSubscribers (fst (unsubscribeStatus cb st)))
       = registrations cb' (statusSubscribers st)) /\
  (length (subscribers (fst (unsubscribe cb st)))
   + registrations cb (subscribers st) = length (subscribers st))%nat /\
  (length (statusSubscribers (fst (unsubscribeStatus cb st)))
   + registrations cb (statusSubscribers st) = length (statusSubscribers st))%nat.
Proof.
  assert (Hone : registrations cb [cb] = 1%nat).
  { unfold registrations. rewrite filter_cons. by destruct (decide (cb = cb)). }
  split.
  { unfold subscribe, andThen, update. cbn [fst].
    destruct (0 <? size (tickerMap _))%nat; cbn [fst subscribers set_subscribers];
      rewrite registrations_app, Hone; lia. }
  split.
  { unfold subscribeStatus, andThen, update, emitStatus.
    cbn [fst statusSubscribers set_statusSubscribers].
    rewrite registrations_app, Hone. lia. }
  split; [reflexivity |]. split; [reflexivity |].
  unfold unsubscribe, unsubscribeStatus, update.
  cbn [fst subscribers statusSubscribers set_subscribers set_statusSubscribers].
  split; [apply registrations_removed |].
  split; [apply registrations_removed |].
  split; [intros cb' Hne; split; by apply registrations_kept |].
  split; apply registrations_length.
Qed.

End Registry.

(** C6, as stated, fails: when the same callback is registered twice, in
    either registry, the function returned by one subscribe call removes
    both registrations, not exactly one. *)
Lemma unsubscribe_removes_both_registrations :
  registrations 1 (subscribers (stateAfter Scenario.registeredTwice)) = 2%nat /\
  registrations 1 (subscribers
                     (fst (unsubscribe 1 (stateAfter Scenario.registeredTwice))))
    <> 1%nat /\
  registrations 2 (statusSubscribers (stateAfter Scenario.registeredTwice)) = 2%nat /\
  registrations 2 (statusSubscribers
                     (fst (unsubscribeStatus 2 (stateAfter Scenario.registeredTwice))))
    <> 1%nat.
Proof. vm_compute. repeat split; discriminate. Qed.

(** ** Reconnecting *)

Section Backoff.

Local Open Scope Q_scope.

Lemma reconnectDelay_below (n : nat) :
  1000 * (3 # 2) ^ Z.of_nat n <= maxReconnectDelay ->
  reconnectDelay n == 1000 * (3 # 2) ^ Z.of_nat n.
Proof. intros H. unfold reconnectDelay. by apply Q.min_l. Qed.


Lemma reconnectDelay_bounds (n : nat) :
  1000 <= reconnectDelay n <= 10000.
Proof.
  unfold reconnectDelay, maxReconnectDelay. split.
  - apply Q.min_glb; [|by vm_compute].
    apply Qle_trans with (1000 * (3 # 2) ^ 0); [by vm_compute |].
    apply Qmult_le_l; [reflexivity |].
    apply Qpower_le_compat_l; [lia | by vm_compute].
  - apply Q.le_min_r.
Qed.

End Backoff.

Section Reconnect.
Context {number : Type} {Num : JSNumber number}.

Local Arguments Nat.modulo : simpl never.
Local Arguments displayUrl : simpl never.
Local Arguments reconnectDelay : simpl never.





End Reconnect.

(** ** Maps handed to subscribers *)

Section Snapshots.
Context {number : Type} {Num : JSNumber number}.

(** Every step, seen from one record object of the store. *)
Lemma step_object (st : State number) ev st' effects l r :
  mapConsistent (tickerMap st) st ->
  step st ev = Some (st', effects) ->
  objects st !! l = Some r ->
  objects st' !! l = Some (objectAfter ev st l r).
Proof.
  intros Hlive Hstep Hr. destruct (writesRecords ev) eqn:Hw.
  - destruct ev; try discriminate Hw; unfold step in Hstep.
    + case_bool_decide; [|done]. apply (inj Some) in Hstep.
      apply (f_equal fst) in Hstep. cbn [fst] in Hstep. subst st'.
      unfold settleDetailedStats, andThen, update. cbn [fst objectAfter].
      exact (writeDetailedStats_object sym reply1h reply4h st l r Hr).
    + case_bool_decide; [|done]. apply (inj Some) in Hstep.
      cbn [objectAfter].
      destruct (acceptOrigin reply) as [[tickerData symbols]|] eqn:Ha.
      * rewrite (resumeOrigin_accepted _ _ _ _ _ Ha) in Hstep.
        injection Hstep as <- _. by apply load_object.
      * destruct (resumeOrigin_interrupted i _ st Ha)
          as (whitelist & written & Hrej).
        rewrite Hrej in Hstep. clear Hrej.
        apply (f_equal fst) in Hstep. cbn [fst] in Hstep. subst st'.
        rewrite (proj1 (proj2 (requestOrigin_records _ _))).
        by apply load_object.
    + repeat case_match; try done. apply (inj Some) in Hstep.
      destruct frame as [|[streamName data]].
      { rewrite (onmessage_dropped Garbled) in Hstep by done. by simplify_eq. }
      cbn [objectAfter BinanceStreamMessage.data BinanceStreamMessage.stream].
      destruct (rawData data) as [items|] eqn:Hd.
      * rewrite (onmessage_envelope _ _ _ _ Hd) in Hstep.
        injection Hstep as <- _. by apply merge_object.
      * rewrite onmessage_dropped in Hstep by done. by simplify_eq.
  - destruct (step_other_records _ _ _ _ Hstep Hw) as [_ Ho].
    rewrite Ho, Hr. by destruct ev.
Qed.

(** An event leaves alone every object that the live map does not bind to
    the symbol of the object. *)
Lemma objectAfter_unshared (st : State number) ev l r :
  mapConsistent (tickerMap st) st ->
  objects st !! l = Some r ->
  tickerMap st !! symbol r <> Some l ->
  objectAfter ev st l r = r.
Proof.
  intros Hlive Hr Hne. destruct ev; try done; cbn [objectAfter].
  - destruct (detailValue reply1h), (detailValue reply4h); try done.
    destruct (decide (tickerMap st !! sym = Some l)) as [Hb|Hb].
    + destruct (Hlive _ _ Hb) as (r0 & Hr0 & Hs0).
      exfalso. apply Hne. assert (r0 = r) as -> by congruence. by rewrite Hs0.
    + by rewrite bool_decide_eq_false_2.
  - destruct frame as [|message]; [done |].
    destruct (rawData _); [|done]. by rewrite bool_decide_eq_false_2.
Qed.

Lemma objectAfter_other (st : State number) ev l r :
  writesInPlace ev = false -> objectAfter ev st l r = r.
Proof. by destruct ev. Qed.

(** A step other than the reply of a snapshot origin keeps the binding
    of every symbol of the live map. *)
Lemma step_keeps_binding (st : State number) ev st' effects sym l :
  step st ev = Some (st', effects) ->
  (forall i reply, ev <> OriginSettled i reply) ->
  tickerMap st !! sym = Some l ->
  tickerMap st' !! sym = Some l.
Proof.
  intros Hstep Hev Hl. destruct (writesRecords ev) eqn:Hw.
  - destruct ev; try discriminate Hw; unfold step in Hstep.
    + case_bool_decide; [|done]. apply (inj Some) in Hstep.
      apply (f_equal fst) in Hstep. cbn [fst] in Hstep. subst st'.
      unfold settleDetailedStats, andThen, update. cbn [fst].
      change (tickerMap (fst (writeDetailedStats sym0 reply1h reply4h st)) !! sym
              = Some l).
      by rewrite writeDetailedStats_tickerMap.
    + by destruct (Hev i reply).
    + repeat case_match; try done. apply (inj Some) in Hstep.
      destruct frame as [|[streamName data]].
      { rewrite (onmessage_dropped Garbled) in Hstep by done. by simplify_eq. }
      destruct (rawData data) as [items|] eqn:Hd.
      * rewrite (onmessage_envelope _ _ _ _ Hd) in Hstep.
        injection Hstep as <- _. by apply merge_bound.
      * rewrite onmessage_dropped in Hstep by done. by simplify_eq.
  - destruct (step_other_records _ _ _ _ Hstep Hw) as [Ht _]. by rewrite Ht.
Qed.

Lemma objectAfter_keeps_defined (st : State number) ev l r :
  (is_Some (changePercent1h r) ->
   is_Some (changePercent1h (objectAfter ev st l r))) /\
  (is_Some (changePercent4h r) ->
   is_Some (changePercent4h (objectAfter ev st l r))).
Proof.
  destruct ev; try done; cbn [objectAfter].
  - destruct (detailValue reply1h) as [res1h|], (detailValue reply4h) as [res4h|];
      try done.
    case_bool_decide; [|done].
    destruct (fillWindows_fields res1h res4h r) as (_ & _ & _ & _ & _ & H1 & H4).
    cbv zeta in H1, H4. rewrite H1, H4.
    split; intros [x Hx]; rewrite Hx; eauto.
  - destruct frame as [|message]; [done |].
    destruct (rawData _); [|done]. case_bool_decide; [|done].
    apply applyUpdates_keeps_defined.
Qed.

(** Stream messages, backfills and every other event except the reply of
    a snapshot origin keep the record of a symbol in the map and never
    make a defined change-window field undefined. *)
Lemma step_keeps_defined_unless_snapshot
    (evs : list Event) (st : State number) (effects0 : list Effect)
    (ev : Event) (st' : State number) (effects : list Effect)
    (sym : string) (r : TickerData number) :
  run initial evs = Some (st, effects0) ->
  step st ev = Some (st', effects) ->
  (forall i reply, ev <> OriginSettled i reply) ->
  record st sym = Some r ->
  exists r',
    record st' sym = Some r' /\
    (is_Some (changePercent1h r) -> is_Some (changePercent1h r')) /\
    (is_Some (changePercent4h r) -> is_Some (changePercent4h r')).
Proof.
  intros Hrun Hstep Hev Hr.
  destruct (run_wellFormed _ _ _ Hrun) as [Hlive _].
  unfold record, lookupRecord in *.
  destruct (tickerMap st !! sym) as [l|] eqn:Hl; [cbn in Hr | done].
  rewrite (step_keeps_binding _ _ _ _ _ _ Hstep Hev Hl). cbn.
  rewrite (step_object _ _ _ _ _ _ Hlive Hstep Hr).
  eexists. split; [done |]. apply objectAfter_keeps_defined.
Qed.

(** C8 (amended).  A map handed to a data subscriber is a shallow copy of
    the record map: for every later step and every symbol, the record
    observed through it is the record object it was bound to on delivery,
    as the step leaves that object ([objectAfter]).  Hence the symbols of
    a delivered map never change; a snapshot load, and every event other
    than a stream message or the settling of a backfill, changes nothing
    that is observed through it; a stream message or a backfill changes
    nothing observed for a symbol whose binding in the live map is no
    longer the one of the delivered map; but for a symbol whose record
    object the two maps share, the in-place writes of a stream message or
    of a backfill are observed through the delivered map. *)
Theorem delivered_map_shares_record_objects
    (evs : list Event) (st : State number) (effects0 : list Effect)
    (cb : Callback) (m : gmap string nat)
    (ev : Event) (st' : State number) (effects : list Effect) (sym : string) :
  run initial evs = Some (st, effects0) ->
  CallData cb m ∈ effects0 ->
  step st ev = Some (st', effects) ->
  lookupRecord m st' sym
    = (m !! sym ≫= fun l => objectAfter ev st l <$> objects st !! l) /\
  (is_Some (lookupRecord m st' sym) <-> is_Some (m !! sym)) /\
  (writesInPlace ev = false ->
   lookupRecord m st' sym = lookupRecord m st sym) /\
  (m !! sym <> tickerMap st !! sym ->
   lookupRecord m st' sym = lookupRecord m st sym).
Proof.
  intros Hrun Hin Hstep.
  pose proof (run_delivered _ _ _ _ _ Hrun Hin) as Hm.
  destruct (run_wellFormed _ _ _ Hrun) as [Hlive _].
  unfold lookupRecord.
  destruct (m !! sym) as [l|] eqn:Hl; cbn.
  - destruct (Hm _ _ Hl) as (r & Hr & Hs).
    rewrite (step_object _ _ _ _ _ _ Hlive Hstep Hr), Hr. cbn.
    split; [done |]. split; [by split; eauto |]. split.
    + intros Hw. by rewrite objectAfter_other.
    + intros Hne. rewrite (objectAfter_unshared _ _ _ _ Hlive Hr); [done |].
      rewrite Hs. congruence.
  - split; [done |]. split; [|done].
    split; intros [? ?]; done.
Qed.

End Snapshots.

(** C8, as stated, fails: the map handed to subscriber 1 when the
    snapshot was loaded shows BTCUSDT at price 50000; after a later
    stream message the same map shows it at price 50010. *)
Lemma delivered_map_observes_later_update :
  let st := stateAfter Scenario.seeded in
  let m := tickerMap st in
  let later := SocketMessage 0
                 (Scenario.frame Scenario.hourlyStream
                    [Scenario.update "BTCUSDT" "50010" "0" "0.4"]) in
  let st' := stateAfter (Scenario.seeded ++ [later]) in
  CallData 1 m ∈ effectsOf Scenario.seeded /\
  fst <$> step st later = Some st' /\
  price <$> lookupRecord m st "BTCUSDT" = Some (Decimal.Dec 50000) /\
  price <$> lookupRecord m st' "BTCUSDT" = Some (Decimal.Dec 50010) /\
  lookupRecord m st' "BTCUSDT" <> lookupRecord m st "BTCUSDT".
Proof.
  cbv zeta. split.
  - apply list_elem_of_In. vm_compute. tauto.
  - vm_compute. repeat split; try reflexivity. discriminate.
Qed.

(** A snapshot reload after delivery: [connect] is called again and the
    first origin now lists BTCUSDT at 51000; the map delivered before
    still shows the record it was delivered with. *)
Lemma delivered_map_shares_record_objects_witness :
  let evs := Scenario.seeded ++ [CallConnect false] in
  let st := stateAfter evs in
  let m := tickerMap (stateAfter Scenario.seeded) in
  let reload := OriginSettled 0 (Scenario.listing "BTCUSDT" "51000" "2e9" "3.5") in
  let st' := stateAfter (evs ++ [reload]) in
  run initial evs = Some (st, effectsOf evs) /\
  CallData 1 m ∈ effectsOf evs /\
  step st reload = Some (st', [CallData 1 (tickerMap st')]) /\
  price <$> record st' "BTCUSDT" = Some (Decimal.Dec 51000) /\
  lookupRecord m st' "BTCUSDT" = lookupRecord m st "BTCUSDT".
Proof.
  cbv zeta.
  assert (Hrun : run initial (Scenario.seeded ++ [CallConnect false])
                 = Some (stateAfter (Scenario.seeded ++ [CallConnect false]),
                         effectsOf (Scenario.seeded ++ [CallConnect false])))
    by (vm_compute; reflexivity).
  assert (Hin : CallData 1 (tickerMap (stateAfter Scenario.seeded))
                ∈ effectsOf (Scenario.seeded ++ [CallConnect false]))
    by (apply list_elem_of_In; vm_compute; tauto).
  assert (Hstep :
    step (stateAfter (Scenario.seeded ++ [CallConnect false]))
         (OriginSettled 0 (Scenario.listing "BTCUSDT" "51000" "2e9" "3.5"))
    = Some (stateAfter ((Scenario.seeded ++ [CallConnect false])
                        ++ [OriginSettled 0
                              (Scenario.listing "BTCUSDT" "51000" "2e9" "3.5")]),
            [CallData 1
               (tickerMap
                  (stateAfter ((Scenario.seeded ++ [CallConnect false])
                               ++ [OriginSettled 0
                                     (Scenario.listing "BTCUSDT" "51000" "2e9" "3.5")])))]))
    by (vm_compute; reflexivity).
  split; [exact Hrun |]. split; [exact Hin |]. split; [exact Hstep |].
  split; [vm_compute; reflexivity |].
  exact (proj1 (proj2 (proj2
           (delivered_map_shares_record_objects _ _ _ _ _ _ _ _ "BTCUSDT"
              Hrun Hin Hstep))) eq_refl).
Defined.

(** * Further properties of the service *)

(** ** Invariants along runs *)

Section RunInvariants.
Context {number : Type} {Num : JSNumber number}.

Local Arguments Nat.modulo : simpl never.
Local Arguments displayUrl : simpl never.
Local Arguments reconnectDelay : simpl never.
Local Arguments String.append : simpl never.

Ltac unfold_service :=
  unfold connect, fetchInitialSnapshot, requestOrigin, connectWebSocket,
    disconnect, subscribe, unsubscribe, subscribeStatus, unsubscribeStatus,
    fetchDetailedStats, onopen, onclose_handler, onerror_handler,
    scheduleReconnect, cancelReconnectTimer, closeWebSocket, openWebSocket,
    armReconnectTimer, clearTimeout, emitStatus, notify, setReadyState,
    andThen, update, perform, skip in *.

Ltac run_service :=
  unfold_service; cbn in *;
  repeat (case_match; cbn in * ); simplify_eq; cbn in *.

(** An invariant of the steps holds at the end of every run. *)
Lemma run_preserves (Inv : State number -> Prop) :
  (forall st ev st' effects,
     Inv st -> step st ev = Some (st', effects) -> Inv st') ->
  forall evs st0 st effects,
    Inv st0 -> run st0 evs = Some (st, effects) -> Inv st.
Proof.
  intros Hstep evs. induction evs as [|ev evs IH]; intros st0 st effects H0 Hrun.
  - cbn in Hrun. by simplify_eq.
  - cbn [run] in Hrun.
    destruct (step st0 ev) as [[st1 e1]|] eqn:Hs; [|done].
    destruct (run st1 evs) as [[st2 e2]|] eqn:Hr; [|done].
    simplify_eq. eapply IH; [|exact Hr]. by eapply Hstep.
Qed.

(** A property of the effects of every step from a state satisfying an
    invariant holds of all effects of a run. *)
Lemma run_effects (Inv : State number -> Prop) (Q : Effect -> Prop) :
  (forall st ev st' effects,
     Inv st -> step st ev = Some (st', effects) ->
     Inv st' /\ Forall Q effects) ->
  forall evs st0 st effects,
    Inv st0 -> run st0 evs = Some (st, effects) -> Forall Q effects.
Proof.
  intros Hstep evs. induction evs as [|ev evs IH]; intros st0 st effects H0 Hrun.
  - cbn in Hrun. by simplify_eq.
  - cbn [run] in Hrun.
    destruct (step st0 ev) as [[st1 e1]|] eqn:Hs; [|done].
    destruct (run st1 evs) as [[st2 e2]|] eqn:Hr; [|done].
    simplify_eq. destruct (Hstep _ _ _ _ H0 Hs) as [H1 HQ].
    apply Forall_app. split; [done |]. by eapply IH.
Qed.

(** X1.  In every state the service reaches, every symbol of the record
    map has a record, the [symbol] field of that record is the key it is
    stored under, and no two keys share a record object. *)
Theorem record_key_matches_symbol
    (evs : list Event) (st : State number) (effects0 : list Effect)
    (sym : string) (l : nat) :
  run initial evs = Some (st, effects0) ->
  tickerMap st !! sym = Some l ->
  (exists r, record st sym = Some r /\ symbol r = sym) /\
  (forall sym', tickerMap st !! sym' = Some l -> sym' = sym).
Proof.
  intros Hrun Hl. destruct (run_wellFormed _ _ _ Hrun) as [Hmap _].
  destruct (Hmap _ _ Hl) as (r & Hr & Hs). split.
  - exists r. unfold record, lookupRecord. rewrite Hl. by cbn.
  - intros sym' Hl'. destruct (Hmap _ _ Hl') as (r' & Hr' & Hs'). congruence.
Qed.

Lemma displayUrl_in_range (i : nat) :
  (i < length BASE_WS_URLS)%nat -> displayUrl i ∈ map Url.origin BASE_WS_URLS.
Proof.
  intros Hi. unfold displayUrl.
  destruct (BASE_WS_URLS !! i) as [fullUrl|] eqn:Hu.
  - apply list_elem_of_fmap. exists fullUrl. split; [done |].
    by eapply list_elem_of_lookup_2.
  - apply lookup_ge_None in Hu. lia.
Qed.

Lemma showsEndpoint_statuses (i : nat) (cbs : list Callback) :
  (i < length BASE_WS_URLS)%nat ->
  Forall showsEndpoint (map (fun cb => CallStatus cb (displayUrl i)) cbs).
Proof.
  intros Hi. apply Forall_fmap, Forall_true. intros cb. cbn.
  by apply displayUrl_in_range.
Qed.

Lemma showsEndpoint_data m (cbs : list Callback) :
  Forall showsEndpoint (map (fun cb => CallData cb m) cbs).
Proof. by apply Forall_fmap, Forall_true. Qed.

Ltac solve_shows :=
  repeat first
    [ apply Forall_nil_2
    | apply Forall_app; split
    | apply Forall_cons; split
    | apply showsEndpoint_data
    | apply showsEndpoint_statuses
    | apply displayUrl_in_range
    | apply Nat.mod_upper_bound
    | done ].

Lemma step_showsEndpoint (st : State number) ev st' effects :
  (endpointIndex st < length BASE_WS_URLS)%nat ->
  step st ev = Some (st', effects) ->
  Forall showsEndpoint effects.
Proof.
  intros Hi Hstep. destruct (writesRecords ev) eqn:Hw.
  - destruct ev; try discriminate Hw; unfold step in Hstep.
    + case_bool_decide; [|done]. apply (inj Some) in Hstep.
      unfold settleDetailedStats, andThen, update in Hstep.
      cbn [fst snd] in Hstep. injection Hstep as _ <-.
      rewrite app_nil_r.
      destruct (writeDetailedStats_effects sym reply1h reply4h st) as [->| ->];
        solve_shows.
    + case_bool_decide; [|done]. apply (inj Some) in Hstep.
      destruct (acceptOrigin reply) as [[tickerData symbols]|] eqn:Ha.
      * rewrite (resumeOrigin_accepted _ _ _ _ _ Ha) in Hstep.
        injection Hstep as _ <-. solve_shows.
      * rewrite (resumeOrigin_rejected _ _ _ Ha) in Hstep.
        apply (f_equal snd) in Hstep. cbn [snd] in Hstep. subst effects.
        unfold requestOrigin. destruct (apiDomains !! S i); cbn; solve_shows.
    + repeat case_match; try done. apply (inj Some) in Hstep.
      destruct frame as [|[streamName data]].
      { rewrite (onmessage_dropped Garbled) in Hstep by done. by simplify_eq. }
      destruct (rawData data) as [items|] eqn:Hd.
      * rewrite (onmessage_envelope _ _ _ _ Hd) in Hstep.
        injection Hstep as _ <-. solve_shows.
      * rewrite onmessage_dropped in Hstep by done. by simplify_eq.
  - destruct ev; try discriminate Hw; clear Hw;
      cbn in Hstep; run_service; solve_shows.
Qed.

(** X2.  In every state the service reaches, the endpoint index selects
    an endpoint of the list, and every URL that was shown to a status
    subscriber on the way is the origin of one of the endpoints. *)
Theorem status_is_an_endpoint_origin
    (evs : list Event) (st : State number) (effects0 : list Effect) :
  run initial evs = Some (st, effects0) ->
  (exists fullUrl, BASE_WS_URLS !! endpointIndex st = Some fullUrl /\
                   displayUrl (endpointIndex st) = Url.origin fullUrl) /\
  (forall cb shown, CallStatus cb shown ∈ effects0 ->
                    shown ∈ map Url.origin BASE_WS_URLS).
Proof.
  intros Hrun. split.
  - pose proof (endpointIndex_in_range _ _ _ Hrun) as Hi.
    apply lookup_lt_is_Some in Hi as [fullUrl Hu].
    exists fullUrl. split; [done |]. unfold displayUrl. by rewrite Hu.
  - intros cb shown Hin.
    assert (HQ : Forall showsEndpoint effects0).
    { eapply (run_effects (fun s => (endpointIndex s < length BASE_WS_URLS)%nat)
                showsEndpoint); [| |exact Hrun].
      - intros s ev s' e Hs Hstep. split.
        + by eapply step_endpointIndex.
        + by eapply step_showsEndpoint.
      - cbn. lia. }
    rewrite Forall_forall in HQ. exact (HQ _ Hin).
Qed.

End RunInvariants.

Lemma record_key_matches_symbol_witness :
  run initial Scenario.seeded
  = Some (stateAfter Scenario.seeded, effectsOf Scenario.seeded) /\
  tickerMap (stateAfter Scenario.seeded) !! "BTCUSDT" = Some 0%nat /\
  exists r, record (stateAfter Scenario.seeded) "BTCUSDT" = Some r /\
            symbol r = "BTCUSDT".
Proof.
  assert (Hrun : run initial Scenario.seeded
                 = Some (stateAfter Scenario.seeded, effectsOf Scenario.seeded))
    by (vm_compute; reflexivity).
  assert (Hl : tickerMap (stateAfter Scenario.seeded) !! "BTCUSDT" = Some 0%nat)
    by (vm_compute; reflexivity).
  split; [exact Hrun |]. split; [exact Hl |].
  exact (proj1 (record_key_matches_symbol _ _ _ _ _ Hrun Hl)).
Defined.

Lemma status_is_an_endpoint_origin_witness :
  run initial Scenario.connected
  = Some (stateAfter Scenario.connected, effectsOf Scenario.connected) /\
  exists fullUrl,
    BASE_WS_URLS !! endpointIndex (stateAfter Scenario.connected) = Some fullUrl /\
    displayUrl (endpointIndex (stateAfter Scenario.connected)) = Url.origin fullUrl.
Proof.
  assert (Hrun : run initial Scenario.connected
                 = Some (stateAfter Scenario.connected, effectsOf Scenario.connected))
    by (vm_compute; reflexivity).
  split; [exact Hrun |].
  exact (proj1 (status_is_an_endpoint_origin _ _ _ Hrun)).
Defined.

Section Timers.
Context {number : Type} {Num : JSNumber number}.

Local Arguments Nat.modulo : simpl never.
Local Arguments displayUrl : simpl never.
Local Arguments reconnectDelay : simpl never.
Local Arguments String.append : simpl never.

Ltac unfold_timers :=
  unfold connect, fetchInitialSnapshot, requestOrigin, connectWebSocket,
    disconnect, subscribe, unsubscribe, subscribeStatus, unsubscribeStatus,
    fetchDetailedStats, onopen, onclose_handler, onerror_handler,
    scheduleReconnect, cancelReconnectTimer, closeWebSocket, openWebSocket,
    armReconnectTimer, clearTimeout, emitStatus, notify, setReadyState,
    andThen, update, perform, skip in *.

Ltac run_timers :=
  unfold_timers; cbn in *;
  repeat (case_match; cbn in * ); simplify_eq; cbn in *.

Ltac solve_timer Hinv :=
  let id := fresh "id" in
  let delay := fresh "delay" in
  let Hl := fresh "Hl" in
  intros id delay Hl;
  repeat match type of Hl with
         | (<[_ := _]> _) !! _ = Some _ =>
             apply lookup_insert_Some in Hl as [[<- <-]|[? Hl]]
         | (delete _ _) !! _ = Some _ =>
             apply lookup_delete_Some in Hl as [? Hl]
         end;
  try (split; [done | apply reconnectDelay_bounds]);
  try (destruct (Hinv _ _ Hl) as [? ?]; simplify_eq; by split).

Lemma step_singleTimer (st : State number) ev st' effects :
  singleTimer st ->
  step st ev = Some (st', effects) ->
  singleTimer st'.
Proof.
  intros Hinv Hstep. destruct (writesRecords ev) eqn:Hw.
  - destruct (step_writer_frame _ _ _ _ Hstep Hw) as (a & p & ->). exact Hinv.
  - unfold singleTimer in *.
    destruct ev; try discriminate Hw; clear Hw;
      cbn in Hstep; run_timers; solve_timer Hinv.
Qed.

(** X3.  In every state the service reaches, at most one timer is armed:
    an armed timer is the one whose id the service holds in
    [reconnectTimeoutId], and its delay lies between 1000 and 10000
    milliseconds. *)
Theorem at_most_one_reconnect_timer
    (evs : list Event) (st : State number) (effects0 : list Effect)
    (id : nat) (delay : Q) :
  run initial evs = Some (st, effects0) ->
  timers st !! id = Some delay ->
  reconnectTimeoutId st = Some id /\
  (1000 <= delay <= 10000)%Q /\
  (forall id' delay', timers st !! id' = Some delay' -> id' = id).
Proof.
  intros Hrun Hl.
  assert (Hinv : singleTimer st).
  { eapply (run_preserves singleTimer); [|
      |exact Hrun].
    - intros s ev s' e Hs Hstep. by eapply step_singleTimer.
    - intros i d Hi. unfold initial in Hi. cbn [timers] in Hi.
      by rewrite lookup_empty in Hi. }
  destruct (Hinv _ _ Hl) as [Hid Hd]. split; [done |]. split; [done |].
  intros id' delay' Hl'. destruct (Hinv _ _ Hl') as [Hid' _]. congruence.
Qed.

End Timers.

Lemma at_most_one_reconnect_timer_witness :
  run initial Trace.dropped
  = Some (stateAfter Trace.dropped, effectsOf Trace.dropped) /\
  timers (stateAfter Trace.dropped) !! 1%nat = Some 1000%Q /\
  reconnectTimeoutId (stateAfter Trace.dropped) = Some 1%nat.
Proof.
  assert (Hrun : run initial Trace.dropped
                 = Some (stateAfter Trace.dropped, effectsOf Trace.dropped))
    by (vm_compute; reflexivity).
  assert (Hl : timers (stateAfter Trace.dropped) !! 1%nat = Some 1000%Q)
    by (vm_compute; reflexivity).
  split; [exact Hrun |]. split; [exact Hl |].
  exact (proj1 (at_most_one_reconnect_timer _ _ _ _ _ Hrun Hl)).
Defined.

Section Notifications.
Context {number : Type} {Num : JSNumber number}.

Local Arguments Nat.modulo : simpl never.
Local Arguments displayUrl : simpl never.
Local Arguments reconnectDelay : simpl never.
Local Arguments String.append : simpl never.

Lemma dataCalls_nil : dataCalls [] = [].
Proof. reflexivity. Qed.

Lemma fillWindows_idle res1h res4h (item : TickerData number) :
  snd (fillWindows res1h res4h item) = false ->
  fst (fillWindows res1h res4h item) = item.
Proof.
  unfold fillWindows.
  destruct res1h, res4h, (changePercent1h item) eqn:H1,
    (changePercent4h item) eqn:H4; cbn; rewrite ?H1, ?H4; cbn;
    rewrite ?H1, ?H4; done.
Qed.

(** The continuation of a backfill either leaves the map and the store as
    they are and calls nobody, or calls every data subscriber with the
    map. *)
Lemma writeDetailedStats_silent_or_notified sym reply1h reply4h (st : State number) :
  let res := writeDetailedStats sym reply1h reply4h st in
  (objects (fst res) = objects st /\ snd res = []) \/
  snd res = map (fun cb => CallData cb (tickerMap st)) (subscribers st).
Proof.
  unfold writeDetailedStats.
  destruct (detailValue reply1h) as [res1h|]; [|by left].
  destruct (detailValue reply4h) as [res4h|]; [|by left].
  destruct (tickerMap st !! sym) as [l|] eqn:Hl; [|by left].
  destruct (objects st !! l) as [item|] eqn:Hitem; [|by left].
  destruct (snd (fillWindows res1h res4h item)) eqn:Hupd.
  - right. cbn. f_equal. by rewrite insert_id.
  - left. cbn. split; [|done].
    rewrite (fillWindows_idle _ _ _ Hupd). by apply list_insert_id.
Qed.

Lemma throwsInLoop_rejected reply :
  throwsInLoop reply = true -> acceptOrigin reply = None.
Proof.
  unfold throwsInLoop, acceptOrigin.
  destruct (checkOrigin reply) as [[tickerData symbols]|]; [|done].
  by destruct (allObjects tickerData).
Qed.

(** An origin that fails in its checks writes nothing. *)
Lemma tryOrigin_checks_failed reply (st : State number) :
  acceptOrigin reply = None -> throwsInLoop reply = false ->
  fst (tryOrigin reply st) = st.
Proof.
  unfold throwsInLoop, acceptOrigin, tryOrigin.
  destruct (checkOrigin reply) as [[tickerData symbols]|]; [|done].
  by destruct (allObjects tickerData).
Qed.

(** What the reply of a snapshot origin does, by the kind of the reply:
    it is loaded and every subscriber is called; or it fails, and then
    either the next origin is asked and nobody is called, or there is no
    next origin and every subscriber is called.  A reply that fails
    outside the loop over the ticker array leaves the records alone. *)
Lemma resumeOrigin_cases i reply (st : State number) :
  let res := resumeOrigin i reply st in
  subscribers (fst res) = subscribers st /\
  (dataCalls (snd res)
   = map (fun cb => (cb, tickerMap (fst res))) (subscribers st) \/
   acceptOrigin reply = None /\ is_Some (apiDomains !! S i) /\
   dataCalls (snd res) = []) /\
  (acceptOrigin reply = None -> throwsInLoop reply = false ->
   tickerMap (fst res) = tickerMap st /\ objects (fst res) = objects st).
Proof.
  cbv zeta. destruct (acceptOrigin reply) as [[tickerData symbols]|] eqn:Ha.
  - rewrite (resumeOrigin_accepted _ _ _ _ _ Ha). cbv zeta. cbn [fst snd].
    split; [by rewrite load_subscribers |]. split; [|done].
    left. apply dataCalls_notify.
  - rewrite (resumeOrigin_rejected _ _ _ Ha).
    set (st1 := set_snapshotAwaiting (removeOne i (snapshotAwaiting st)) st).
    assert (Hsubs : subscribers (fst (tryOrigin reply st1)) = subscribers st)
      by (by rewrite tryOrigin_subscribers).
    assert (Hunwritten : throwsInLoop reply = false ->
                         fst (tryOrigin reply st1) = st1)
      by (by apply tryOrigin_checks_failed).
    revert Hsubs Hunwritten. generalize (fst (tryOrigin reply st1)). intros s Hsubs Hunwritten.
    destruct (requestOrigin_records (S i) s) as (Ht & Ho & Hs & _).
    split; [by rewrite Hs |]. split.
    + unfold requestOrigin. destruct (apiDomains !! S i) as [domain|].
      * right. split; [done |]. split; [by eexists | done].
      * left. unfold notify. cbn [fst snd].
        rewrite dataCalls_notify. by rewrite Hsubs.
    + intros _ Hno. rewrite Ht, Ho, (Hunwritten Hno). done.
Qed.

(** X4.  No silent change but one.  A step of the event loop that changes
    the bindings of the record map or any record object calls every data
    subscriber, once per registration and in registration order, with a
    copy of the resulting map, unless it is the reply of a snapshot origin
    that passes the checks and carries a [null] element in its ticker
    array while another origin is left to ask: the loop over the array
    then throws with its writes in place, and the next origin is asked
    without anybody being called.  (Stream payloads are arrays of ticker
    objects, as [types.ts] declares them.) *)
Theorem record_changes_are_notified_unless_interrupted
    (st : State number) (ev : Event) (st' : State number) (effects : list Effect) :
  step st ev = Some (st', effects) ->
  (tickerMap st' = tickerMap st /\ objects st' = objects st) \/
  dataCalls effects = map (fun cb => (cb, tickerMap st')) (subscribers st') \/
  (exists i reply,
     ev = OriginSettled i reply /\ throwsInLoop reply = true /\
     is_Some (apiDomains !! S i) /\ dataCalls effects = []).
Proof.
  intros Hstep. destruct (writesRecords ev) eqn:Hw.
  - destruct ev; try discriminate Hw; unfold step in Hstep.
    + case_bool_decide; [|done]. apply (inj Some) in Hstep.
      unfold settleDetailedStats, andThen, update in Hstep.
      cbn [fst snd] in Hstep. injection Hstep as <- <-.
      rewrite app_nil_r. cbn [tickerMap objects subscribers set_pendingFetches].
      pose proof (writeDetailedStats_tickerMap sym reply1h reply4h st) as Ht.
      pose proof (writeDetailedStats_frame sym reply1h reply4h st) as Hf.
      destruct (writeDetailedStats_silent_or_notified sym reply1h reply4h st)
        as [[Ho He]|He]; cbv zeta in *.
      * left. by split.
      * right. left. rewrite He, dataCalls_notify, Ht. by rewrite Hf.
    + case_bool_decide; [|done]. apply (inj Some) in Hstep.
      destruct (resumeOrigin_cases i reply st) as (Hsubs & Hcalls & Hunwritten).
      cbv zeta in Hsubs, Hcalls, Hunwritten.
      rewrite Hstep in Hsubs, Hcalls, Hunwritten.
      cbn [fst snd] in Hsubs, Hcalls, Hunwritten.
      destruct Hcalls as [Hcalls|(Ha & Hnext & Hcalls)].
      * right. left. by rewrite Hsubs.
      * destruct (throwsInLoop reply) eqn:Hthrows.
        -- right. right. by exists i, reply.
        -- left. by apply Hunwritten.
    + repeat case_match; try done. apply (inj Some) in Hstep.
      destruct frame as [|[streamName data]].
      { rewrite (onmessage_dropped Garbled) in Hstep by done.
        simplify_eq. by left. }
      destruct (rawData data) as [items|] eqn:Hd.
      * rewrite (onmessage_envelope _ _ _ _ Hd) in Hstep.
        injection Hstep as <- <-. right. left.
        by rewrite dataCalls_notify, merge_subscribers.
      * rewrite onmessage_dropped in Hstep by done. simplify_eq. by left.
  - left. by eapply step_other_records.
Qed.

End Notifications.

Lemma record_changes_are_notified_unless_interrupted_witness :
  step (stateAfter Scenario.seeded) Trace.ticked
  = Some (stateAfter (Scenario.seeded ++ [Trace.ticked]),
          [CallData 1 (tickerMap (stateAfter (Scenario.seeded ++ [Trace.ticked])))]) /\
  objects (stateAfter (Scenario.seeded ++ [Trace.ticked]))
  <> objects (stateAfter Scenario.seeded) /\
  dataCalls [CallData 1 (tickerMap (stateAfter (Scenario.seeded ++ [Trace.ticked])))]
  = map (fun cb => (cb, tickerMap (stateAfter (Scenario.seeded ++ [Trace.ticked]))))
        (subscribers (stateAfter (Scenario.seeded ++ [Trace.ticked]))).
Proof.
  assert (Hstep :
    step (stateAfter Scenario.seeded) Trace.ticked
    = Some (stateAfter (Scenario.seeded ++ [Trace.ticked]),
            [CallData 1 (tickerMap (stateAfter (Scenario.seeded ++ [Trace.ticked])))]))
    by (vm_compute; reflexivity).
  assert (Hchanged : objects (stateAfter (Scenario.seeded ++ [Trace.ticked]))
                     <> objects (stateAfter Scenario.seeded))
    by (vm_compute; discriminate).
  split; [exact Hstep |]. split; [exact Hchanged |].
  destruct (record_changes_are_notified_unless_interrupted _ _ _ _ Hstep)
    as [[_ Hsame]|[Hcalls|(i & reply & Hev & _)]].
  - destruct (Hchanged Hsame).
  - exact Hcalls.
  - discriminate Hev.
Defined.

(** ** The connection life cycle *)

Section LifeCycle.
Context {number : Type} {Num : JSNumber number}.

(** Reduction of the field accessors of states and sockets only. *)
Ltac fields :=
  cbn [fst snd app
       ws subscribers statusSubscribers tickerMap reconnectAttempt
       reconnectTimeoutId endpointIndex pendingFetches objects sockets timers
       timerSeq snapshotAwaiting
       set_ws set_subscribers set_statusSubscribers set_tickerMap
       set_reconnectAttempt set_reconnectTimeoutId set_endpointIndex
       set_pendingFetches set_objects set_sockets set_timers set_timerSeq
       set_snapshotAwaiting
       url readyState onclose onerror] in *.

Lemma run_singleTimer evs (st : State number) effects0 :
  run initial evs = Some (st, effects0) -> singleTimer st.
Proof.
  intros Hrun. eapply (run_preserves singleTimer); [| |exact Hrun].
  - intros s ev s' e Hs Hstep. by eapply step_singleTimer.
  - intros i d Hi. unfold initial in Hi. cbn [timers] in Hi.
    by rewrite lookup_empty in Hi.
Qed.

(** The state after [cancelReconnectTimer]. *)
Lemma cancelReconnectTimer_state (st : State number) :
  fst (cancelReconnectTimer st)
  = set_reconnectTimeoutId None
      (set_timers match reconnectTimeoutId st with
                  | Some id => delete id (timers st)
                  | None => timers st
                  end st).
Proof.
  unfold cancelReconnectTimer, clearTimeout, andThen, update.
  destruct (reconnectTimeoutId st) eqn:Hid; fields; [done |].
  destruct st; cbn in *; by subst.
Qed.

Lemma insert_as_alter {A} (f : A -> A) (k : nat) (l : list A) (x : A) :
  l !! k = Some x -> <[k := f x]> l = alter f k l.
Proof.
  intros Hx. apply list_eq. intros j.
  destruct (decide (j = k)) as [->|Hne].
  - rewrite list_lookup_insert_eq by (by eapply lookup_lt_Some).
    by rewrite list_lookup_alter_eq, Hx.
  - by rewrite list_lookup_insert_ne, list_lookup_alter_ne.
Qed.

Lemma alter_fixed {A} (f : A -> A) (k : nat) (l : list A) :
  (forall x, l !! k = Some x -> f x = x) -> alter f k l = l.
Proof.
  intros Hf. apply list_eq. intros j.
  destruct (decide (j = k)) as [->|Hne].
  - rewrite list_lookup_alter_eq. destruct (l !! k) as [x|] eqn:Hx; [|done].
    cbn. by rewrite Hf.
  - by rewrite list_lookup_alter_ne.
Qed.

Lemma set_sockets_same (st : State number) : set_sockets (sockets st) st = st.
Proof. by destruct st. Qed.

Lemma closeWebSocket_state k (st : State number) :
  fst (closeWebSocket k st) = set_sockets (alter closing k (sockets st)) st.
Proof.
  unfold closeWebSocket.
  destruct (sockets st !! k) as [sock|] eqn:Hsock.
  - destruct sock as [u rs oc oe]. destruct rs; fields.
    + by rewrite <- (insert_as_alter closing _ _ _ Hsock).
    + by rewrite <- (insert_as_alter closing _ _ _ Hsock).
    + rewrite alter_fixed; [by rewrite set_sockets_same |].
      intros x Hx. by simplify_eq.
    + rewrite alter_fixed; [by rewrite set_sockets_same |].
      intros x Hx. by simplify_eq.
  - fields. rewrite alter_fixed; [by rewrite set_sockets_same |].
    intros x Hx. congruence.
Qed.

(** The state after [disconnect]: the timer the service holds is cleared,
    and the socket it holds loses its close and error handlers, is closed
    and is let go. *)
Lemma disconnect_state (st : State number) :
  fst (disconnect st)
  = set_ws None
      (set_sockets
         match ws st with
         | Some k =>
             alter closing k
               (alter (fun sock => mkWebSocket (url sock) (readyState sock) false false)
                      k (sockets st))
         | None => sockets st
         end
         (set_reconnectTimeoutId None
            (set_timers match reconnectTimeoutId st with
                        | Some id => delete id (timers st)
                        | None => timers st
                        end st))).
Proof.
  unfold disconnect, andThen. fields. rewrite cancelReconnectTimer_state. fields.
  destruct (ws st) as [k|] eqn:Hws.
  - unfold andThen, update. fields. rewrite closeWebSocket_state. fields. done.
  - fields. destruct st; cbn in *. by subst.
Qed.

Lemma disconnect_effects (st : State number) :
  snd (disconnect st)
  = match reconnectTimeoutId st with Some id => [ClearTimeout id] | None => [] end
    ++ match ws st with Some k =>
         match sockets st !! k with Some _ => [SocketClose k] | None => [] end
       | None => [] end.
Proof.
  unfold disconnect, andThen at 1. fields. f_equal.
  - unfold cancelReconnectTimer, clearTimeout, andThen, update.
    by destruct (reconnectTimeoutId st).
  - rewrite cancelReconnectTimer_state. fields.
    destruct (ws st) as [k|]; [|done].
    unfold andThen, update, closeWebSocket. fields.
    rewrite list_lookup_alter_eq.
    destruct (sockets st !! k) as [[u rs oc oe]|]; [|done].
    by destruct rs.
Qed.

(** X5.  [disconnect] can be called in any state, also when the service
    never connected, and calling it again changes nothing: afterwards no
    socket is held and no reconnect timer id is kept, a second call has no
    effect at all, and the records, the registries, the endpoint index and
    the attempt counter are as before. *)
Theorem disconnect_is_idempotent (st : State number) :
  let torn := fst (disconnect st) in
  ws torn = None /\
  reconnectTimeoutId torn = None /\
  connectedOrConnecting torn = false /\
  disconnect torn = (torn, []) /\
  disconnect (initial : State number) = (initial, []) /\
  tickerMap torn = tickerMap st /\
  objects torn = objects st /\
  subscribers torn = subscribers st /\
  statusSubscribers torn = statusSubscribers st /\
  endpointIndex torn = endpointIndex st /\
  reconnectAttempt torn = reconnectAttempt st.
Proof.
  cbv zeta. rewrite disconnect_state.
  set (torn := set_ws None _).
  assert (Hws : ws torn = None) by reflexivity.
  assert (Hid : reconnectTimeoutId torn = None) by reflexivity.
  split; [done |]. split; [done |].
  split; [unfold connectedOrConnecting; by rewrite Hws |].
  split.
  { rewrite (surjective_pairing (disconnect torn)).
    rewrite disconnect_state, disconnect_effects, Hws, Hid.
    reflexivity. }
  split; [reflexivity |]. repeat split.
Qed.

(** X6.  After [disconnect] in a state the service reached, no timer is
    armed, and the close or error event of the socket that was held runs
    no handler: nobody is called, nothing is scheduled, no socket is taken
    up again, and the endpoint index and the attempt counter stay. *)
Theorem disconnect_prevents_reconnect
    (evs : list Event) (st : State number) (effects0 : list Effect)
    (k : nat) (ev : Event) (st' : State number) (effects : list Effect) :
  run initial evs = Some (st, effects0) ->
  ws st = Some k ->
  ev = SocketClosed k \/ ev = SocketError k ->
  step (fst (disconnect st)) ev = Some (st', effects) ->
  timers (fst (disconnect st)) = ∅ /\
  effects = [] /\
  timers st' = ∅ /\
  ws st' = None /\
  reconnectTimeoutId st' = None /\
  endpointIndex st' = endpointIndex st /\
  reconnectAttempt st' = reconnectAttempt st.
Proof.
  intros Hrun Hws Hev. rewrite disconnect_state, Hws.
  pose proof (run_singleTimer _ _ _ Hrun) as Hinv.
  set (left_timers := match reconnectTimeoutId st with
                      | Some id => delete id (timers st)
                      | None => timers st
                      end).
  assert (Htimers : left_timers = ∅).
  { apply map_eq. intros id. rewrite lookup_empty. unfold left_timers.
    destruct (reconnectTimeoutId st) as [old|] eqn:Hold.
    - destruct (decide (id = old)) as [->|Hne].
      + by rewrite lookup_delete_eq.
      + rewrite lookup_delete_ne by done.
        destruct (timers st !! id) as [d|] eqn:Hd; [|done].
        destruct (Hinv _ _ Hd). congruence.
    - destruct (timers st !! id) as [d|] eqn:Hd; [|done].
      destruct (Hinv _ _ Hd). congruence. }
  rewrite Htimers. intros Hstep. split; [done |].
  destruct Hev as [-> | ->]; unfold step in Hstep; fields;
    rewrite !list_lookup_alter_eq in Hstep;
    destruct (sockets st !! k) as [[u rs oc oe]|]; try done; cbn in Hstep.
  - destruct rs; cbn in Hstep; try done; simplify_eq; by repeat split.
  - simplify_eq. by repeat split.
Qed.


End LifeCycle.

Lemma disconnect_prevents_reconnect_witness :
  run initial Scenario.connected
  = Some (stateAfter Scenario.connected, effectsOf Scenario.connected) /\
  ws (stateAfter Scenario.connected) = Some 0%nat /\
  step (fst (disconnect (stateAfter Scenario.connected))) (SocketClosed 0)
  = Some (stateAfter (Scenario.connected ++ [CallDisconnect; SocketClosed 0]), []) /\
  timers (stateAfter (Scenario.connected ++ [CallDisconnect; SocketClosed 0])) = ∅ /\
  ws (stateAfter (Scenario.connected ++ [CallDisconnect; SocketClosed 0])) = None.
Proof.
  assert (Hrun : run initial Scenario.connected
                 = Some (stateAfter Scenario.connected, effectsOf Scenario.connected))
    by (vm_compute; reflexivity).
  assert (Hws : ws (stateAfter Scenario.connected) = Some 0%nat)
    by (vm_compute; reflexivity).
  assert (Hstep :
    step (fst (disconnect (stateAfter Scenario.connected))) (SocketClosed 0)
    = Some (stateAfter (Scenario.connected ++ [CallDisconnect; SocketClosed 0]), []))
    by (vm_compute; reflexivity).
  split; [exact Hrun |]. split; [exact Hws |]. split; [exact Hstep |].
  destruct (disconnect_prevents_reconnect _ _ _ _ _ _ _ Hrun Hws
              (or_introl eq_refl) Hstep) as (_ & _ & Htimers & Hnone & _).
  split; [exact Htimers | exact Hnone].
Defined.

Section Failover.
Context {number : Type} {Num : JSNumber number}.

Local Arguments Nat.modulo : simpl never.
Local Arguments displayUrl : simpl never.
Local Arguments reconnectDelay : simpl never.

Ltac fields :=
  cbn [fst snd app
       ws subscribers statusSubscribers tickerMap reconnectAttempt
       reconnectTimeoutId endpointIndex pendingFetches objects sockets timers
       timerSeq snapshotAwaiting
       set_ws set_subscribers set_statusSubscribers set_tickerMap
       set_reconnectAttempt set_reconnectTimeoutId set_endpointIndex
       set_pendingFetches set_objects set_sockets set_timers set_timerSeq
       set_snapshotAwaiting
       url readyState onclose onerror] in *.

(** The timers left when the held timer id is cleared. *)
Lemma cleared_timers_empty (st : State number) :
  singleTimer st ->
  match reconnectTimeoutId st with
  | Some id => delete id (timers st)
  | None => timers st
  end = ∅.
Proof.
  intros Hinv. apply map_eq. intros id. rewrite lookup_empty.
  destruct (reconnectTimeoutId st) as [old|] eqn:Hold.
  - destruct (decide (id = old)) as [->|Hne].
    + by rewrite lookup_delete_eq.
    + rewrite lookup_delete_ne by done.
      destruct (timers st !! id) as [d|] eqn:Hd; [|done].
      destruct (Hinv _ _ Hd). congruence.
  - destruct (timers st !! id) as [d|] eqn:Hd; [|done].
    destruct (Hinv _ _ Hd). congruence.
Qed.

Lemma statusCalls_app e1 e2 :
  statusCalls (e1 ++ e2) = statusCalls e1 ++ statusCalls e2.
Proof. unfold statusCalls. apply omap_app. Qed.

Lemma statusCalls_emit shown (cbs : list Callback) :
  statusCalls (map (fun cb => CallStatus cb shown) cbs)
  = map (fun cb => (cb, shown)) cbs.
Proof. induction cbs as [|cb cbs IH]; cbn; [done | by rewrite <- IH]. Qed.

(** [connectWebSocket], when no open or connecting socket is held and the
    constructor does not throw. *)
Lemma connectWebSocket_state (st : State number) :
  connectedOrConnecting st = false ->
  fst (connectWebSocket false st)
  = set_ws (Some (length (sockets st)))
      (set_sockets
         (sockets st ++
          [mkWebSocket (default "" (BASE_WS_URLS !! endpointIndex st))
                       CONNECTING true true])
         (fst (cancelReconnectTimer st))) /\
  statusCalls (snd (connectWebSocket false st))
  = map (fun cb => (cb, displayUrl (endpointIndex st))) (statusSubscribers st).
Proof.
  intros Hidle. unfold connectWebSocket. rewrite Hidle.
  unfold andThen, emitStatus, openWebSocket. fields.
  rewrite cancelReconnectTimer_state. fields. split; [done |].
  rewrite !statusCalls_app, statusCalls_emit.
  unfold cancelReconnectTimer, clearTimeout, andThen, update.
  destruct (reconnectTimeoutId st); fields; cbn [statusCalls omap list_omap];
    by rewrite ?app_nil_r.
Qed.

Lemma connecting_is_guarded (st : State number) (sock : WebSocket) :
  readyState sock = CONNECTING ->
  connectedOrConnecting
    (set_ws (Some (length (sockets st))) (set_sockets (sockets st ++ [sock]) st))
  = true.
Proof.
  intros Hrs. unfold connectedOrConnecting. fields.
  rewrite lookup_app_r by lia. rewrite Nat.sub_diag. cbn. by rewrite Hrs.
Qed.

(** X7.  In a state the service reached, with no open or connecting
    socket held, [connectWebSocket] (when the constructor does not throw)
    creates one socket, connecting to the endpoint the index selects,
    holds it, leaves no reconnect timer armed, and shows the origin of
    that endpoint to every status subscriber once; the service then counts
    as connecting, so that a further [connectWebSocket] is a no-op. *)
Theorem connectWebSocket_opens_current_endpoint
    (evs : list Event) (st : State number) (effects0 : list Effect) :
  run initial evs = Some (st, effects0) ->
  connectedOrConnecting st = false ->
  exists fullUrl,
    BASE_WS_URLS !! endpointIndex st = Some fullUrl /\
    let opened := connectWebSocket false st in
    sockets (fst opened)
      = sockets st ++ [mkWebSocket fullUrl CONNECTING true true] /\
    ws (fst opened) = Some (length (sockets st)) /\
    reconnectTimeoutId (fst opened) = None /\
    timers (fst opened) = ∅ /\
    statusCalls (snd opened)
      = map (fun cb => (cb, Url.origin fullUrl)) (statusSubscribers st) /\
    connectedOrConnecting (fst opened) = true /\
    (forall constructorThrows,
       connectWebSocket constructorThrows (fst opened) = (fst opened, [])).
Proof.
  intros Hrun Hidle.
  pose proof (endpointIndex_in_range _ _ _ Hrun) as Hi.
  apply lookup_lt_is_Some in Hi as [fullUrl Hu].
  assert (Hshown : displayUrl (endpointIndex st) = Url.origin fullUrl)
    by (unfold displayUrl; by rewrite Hu).
  pose proof (run_singleTimer _ _ _ Hrun) as Hinv.
  exists fullUrl. split; [done |]. cbv zeta.
  destruct (connectWebSocket_state st Hidle) as [Hst Hcalls].
  rewrite Hst, Hcalls, Hu, Hshown, cancelReconnectTimer_state. fields.
  rewrite (cleared_timers_empty _ Hinv).
  assert (Hguard :
    connectedOrConnecting
      (set_ws (Some (length (sockets st)))
         (set_sockets
            (sockets st ++ [mkWebSocket (default "" (Some fullUrl)) CONNECTING true true])
            (set_reconnectTimeoutId None (set_timers ∅ st)))) = true).
  { unfold connectedOrConnecting. fields.
    rewrite lookup_app_r by lia. by rewrite Nat.sub_diag. }
  repeat split; try done.
  intros b. unfold connectWebSocket. by rewrite Hguard.
Qed.


(** The state after [scheduleReconnect]. *)
Lemma scheduleReconnect_state (st : State number) :
  fst (scheduleReconnect st)
  = set_reconnectTimeoutId (Some (timerSeq st))
      (set_timerSeq (S (timerSeq st))
         (set_timers
            (<[timerSeq st := reconnectDelay (reconnectAttempt st)]>
               match reconnectTimeoutId st with
               | Some id => delete id (timers st)
               | None => timers st
               end)
            (set_reconnectAttempt (S (reconnectAttempt st))
               (set_endpointIndex
                  ((endpointIndex st + 1) mod length BASE_WS_URLS) st)))).
Proof.
  unfold scheduleReconnect, andThen, update, emitStatus, armReconnectTimer,
    clearTimeout, skip.
  destruct (reconnectTimeoutId st) as [old|] eqn:Hold; fields; reflexivity.
Qed.

(** X8.  The error event of a socket schedules nothing: it changes no
    timer, endpoint index, attempt counter, record or registry and calls
    no subscriber.  At most it starts closing the socket the service
    holds (the reconnect is left to the close event of that socket). *)
Theorem socket_error_only_closes
    (st : State number) (k : nat) (st' : State number) (effects : list Effect) :
  step st (SocketError k) = Some (st', effects) ->
  (st' = st /\ effects = []) \/
  (exists held, ws st = Some held /\
                st' = set_sockets (alter closing held (sockets st)) st /\
                effects = [SocketClose held]).
Proof.
  unfold step. destruct (sockets st !! k) as [sock|]; [|done].
  destruct (onerror sock); [|intros [= <- <-]; by left].
  unfold onerror_handler.
  destruct (ws st) as [held|] eqn:Hws; [|intros [= <- <-]; by left].
  destruct (sockets st !! held) as [heldSock|] eqn:Hheld;
    [|intros [= <- <-]; by left].
  destruct (readyState heldSock) eqn:Hrs; try (intros [= <- <-]; by left).
  all: intros Hstep; apply (inj Some) in Hstep; right; exists held;
    split; [done |];
    pose proof (closeWebSocket_state held st) as Hc;
    rewrite Hstep in Hc; cbn [fst] in Hc; split; [done |];
    revert Hstep; unfold closeWebSocket; rewrite Hheld, Hrs;
    by intros [= _ <-].
Qed.


(** X9.  Failover: in a state the service reached, when a socket whose
    close handler is attached closes and the reconnect timer then fires
    (the constructor not throwing), the service ends up connecting a new
    socket to the next endpoint of the list, with the attempt counter
    incremented and no timer armed. *)
Theorem close_then_timer_connects_to_next_endpoint
    (evs : list Event) (st : State number) (effects0 : list Effect)
    (k : nat) (sock : WebSocket) :
  run initial evs = Some (st, effects0) ->
  sockets st !! k = Some sock ->
  readyState sock <> CLOSED ->
  onclose sock = true ->
  exists st2 effects2 nextUrl,
    run st [SocketClosed k; TimerFired (timerSeq st) false] = Some (st2, effects2) /\
    BASE_WS_URLS !! ((endpointIndex st + 1) mod length BASE_WS_URLS)%nat
      = Some nextUrl /\
    endpointIndex st2 = ((endpointIndex st + 1) mod length BASE_WS_URLS)%nat /\
    ws st2 = Some (length (sockets st)) /\
    sockets st2 !! length (sockets st)
      = Some (mkWebSocket nextUrl CONNECTING true true) /\
    connectedOrConnecting st2 = true /\
    reconnectAttempt st2 = S (reconnectAttempt st) /\
    reconnectTimeoutId st2 = None /\
    timers st2 = ∅ /\
    last effects2 = Some (NewWebSocket nextUrl).
Proof.
  intros Hrun Hsock Hrs Hattached.
  pose proof (run_singleTimer _ _ _ Hrun) as Hinv.
  assert (Hnext : (((endpointIndex st + 1) mod length BASE_WS_URLS)
                   < length BASE_WS_URLS)%nat).
  { apply Nat.mod_upper_bound. cbn. lia. }
  apply lookup_lt_is_Some in Hnext as [nextUrl Hnext].
  (* the close event *)
  set (closed := set_ws None (setReadyState k CLOSED st)).
  assert (Hclose : step st (SocketClosed k)
                   = Some (fst (scheduleReconnect closed),
                           snd (emitStatus None closed)
                           ++ snd (scheduleReconnect closed))).
  { unfold step. rewrite Hsock, Hattached.
    destruct (readyState sock); try done. }
  set (st1 := fst (scheduleReconnect closed)) in *.
  assert (Hst1 : st1 = set_reconnectTimeoutId (Some (timerSeq st))
            (set_timerSeq (S (timerSeq st))
               (set_timers {[ timerSeq st := reconnectDelay (reconnectAttempt st) ]}
                  (set_reconnectAttempt (S (reconnectAttempt st))
                     (set_endpointIndex
                        ((endpointIndex st + 1) mod length BASE_WS_URLS)%nat
                        closed))))).
  { unfold st1. rewrite scheduleReconnect_state.
    unfold closed, setReadyState. fields.
    by rewrite (cleared_timers_empty _ Hinv), insert_empty. }
  (* the timer *)
  set (fired := set_timers (delete (timerSeq st) (timers st1)) st1).
  assert (Hidle : connectedOrConnecting fired = false).
  { unfold fired, connectedOrConnecting. rewrite Hst1. by fields. }
  assert (Htimer : step st1 (TimerFired (timerSeq st) false)
                   = Some (connectWebSocket false fired)).
  { unfold step. rewrite Hst1 at 1. fields. by rewrite lookup_singleton_eq. }
  destruct (connectWebSocket_state fired Hidle) as [Hst2 _].
  exists (fst (connectWebSocket false fired)),
         ((snd (emitStatus None closed) ++ snd (scheduleReconnect closed))
          ++ snd (connectWebSocket false fired) ++ []),
         nextUrl.
  split.
  { cbn [run]. rewrite Hclose, Htimer.
    by destruct (connectWebSocket false fired). }
  split; [done |].
  assert (Hlen : length (sockets fired) = length (sockets st)).
  { unfold fired. rewrite Hst1. unfold closed, setReadyState. fields.
    apply length_alter. }
  assert (Hidx : endpointIndex fired
                 = ((endpointIndex st + 1) mod length BASE_WS_URLS)%nat).
  { unfold fired. rewrite Hst1. by fields. }
  rewrite Hst2, cancelReconnectTimer_state. fields.
  rewrite Hlen, Hidx, Hnext.
  split; [done |]. split; [done |].
  split; [by rewrite lookup_app_r, Hlen, Nat.sub_diag by lia |].
  split.
  { unfold connectedOrConnecting. fields.
    by rewrite lookup_app_r, Hlen, Nat.sub_diag by lia. }
  split; [unfold fired; rewrite Hst1; by fields |].
  split; [done |].
  split.
  { unfold fired. rewrite Hst1. fields.
    by rewrite delete_singleton_eq, delete_empty. }
  rewrite app_nil_r.
  unfold connectWebSocket. rewrite Hidle.
  unfold andThen, openWebSocket. fields. rewrite Hidx, Hnext.
  by rewrite !app_assoc, last_snoc.
Qed.


End Failover.

Lemma connectWebSocket_opens_current_endpoint_witness :
  run initial Trace.dropped
  = Some (stateAfter Trace.dropped, effectsOf Trace.dropped) /\
  connectedOrConnecting (stateAfter Trace.dropped) = false /\
  exists fullUrl,
    BASE_WS_URLS !! 1%nat = Some fullUrl /\
    timers (fst (connectWebSocket false (stateAfter Trace.dropped))) = ∅ /\
    statusCalls (snd (connectWebSocket false (stateAfter Trace.dropped)))
    = [(2%nat, Url.origin fullUrl)].
Proof.
  assert (Hrun : run initial Trace.dropped
                 = Some (stateAfter Trace.dropped, effectsOf Trace.dropped))
    by (vm_compute; reflexivity).
  assert (Hidle : connectedOrConnecting (stateAfter Trace.dropped) = false)
    by (vm_compute; reflexivity).
  split; [exact Hrun |]. split; [exact Hidle |].
  destruct (connectWebSocket_opens_current_endpoint _ _ _ Hrun Hidle)
    as (fullUrl & Hu & _ & _ & _ & Htimers & Hcalls & _).
  exists fullUrl. split; [exact Hu |]. split; [exact Htimers | exact Hcalls].
Defined.

Lemma socket_error_only_closes_witness :
  step (stateAfter Scenario.connected) (SocketError 0)
  = Some (stateAfter (Scenario.connected ++ [SocketError 0]), [SocketClose 0]) /\
  stateAfter (Scenario.connected ++ [SocketError 0])
  = set_sockets (alter closing 0%nat (sockets (stateAfter Scenario.connected)))
      (stateAfter Scenario.connected).
Proof.
  assert (Hstep :
    step (stateAfter Scenario.connected) (SocketError 0)
    = Some (stateAfter (Scenario.connected ++ [SocketError 0]), [SocketClose 0]))
    by (vm_compute; reflexivity).
  split; [exact Hstep |].
  destruct (socket_error_only_closes _ _ _ _ Hstep)
    as [[_ Hnil]|(held & Hws & Hst & _)].
  - discriminate Hnil.
  - assert (Hheld : ws (stateAfter Scenario.connected) = Some 0%nat)
      by (vm_compute; reflexivity).
    rewrite Hheld in Hws. injection Hws as <-. exact Hst.
Defined.

Lemma close_then_timer_connects_to_next_endpoint_witness :
  run initial Scenario.connected
  = Some (stateAfter Scenario.connected, effectsOf Scenario.connected) /\
  sockets (stateAfter Scenario.connected) !! 0%nat
  = Some (mkWebSocket ("wss://data-stream.binance.vision/stream" +:+ STREAMS)
            OPEN true true) /\
  exists st2 effects2,
    run (stateAfter Scenario.connected) [SocketClosed 0; TimerFired 1 false]
    = Some (st2, effects2) /\
    endpointIndex st2 = 1%nat /\
    last effects2
    = Some (NewWebSocket ("wss://stream.binance.com:443/stream" +:+ STREAMS)).
Proof.
  assert (Hrun : run initial Scenario.connected
                 = Some (stateAfter Scenario.connected, effectsOf Scenario.connected))
    by (vm_compute; reflexivity).
  assert (Hsock : sockets (stateAfter Scenario.connected) !! 0%nat
    = Some (mkWebSocket ("wss://data-stream.binance.vision/stream" +:+ STREAMS)
              OPEN true true))
    by (vm_compute; reflexivity).
  assert (Hopen : readyState
            (mkWebSocket ("wss://data-stream.binance.vision/stream" +:+ STREAMS)
               OPEN true true) <> CLOSED)
    by (simpl; discriminate).
  split; [exact Hrun |]. split; [exact Hsock |].
  destruct (close_then_timer_connects_to_next_endpoint _ _ _ _ _
              Hrun Hsock Hopen eq_refl)
    as (st2 & effects2 & nextUrl & Hrun2 & Hnext & Hidx & _ & _ & _ & _ & _ & _ & Hlast).
  assert (Hurl : nextUrl = "wss://stream.binance.com:443/stream" +:+ STREAMS).
  { vm_compute in Hnext. injection Hnext as <-. vm_compute. reflexivity. }
  change (timerSeq (stateAfter Scenario.connected)) with 1%nat in Hrun2.
  exists st2, effects2. split; [exact Hrun2 |].
  split; [exact Hidx |]. rewrite <- Hurl. exact Hlast.
Defined.

(** ** The snapshot loader when an origin answers *)

Section SnapshotSuccess.
Context {number : Type} {Num : JSNumber number}.

Lemma tradingSymbols_from (acc : gset string) (symbols : list SymbolInfo.t)
    (sym : string) :
  sym ∈ foldl (fun (acc : gset string) (si : SymbolInfo.t) =>
                 if String.eqb (SymbolInfo.status si) "TRADING"
                 then acc ∪ {[ SymbolInfo.symbol si ]}
                 else acc)
              acc symbols
  <-> sym ∈ acc \/
      exists si, si ∈ symbols /\ SymbolInfo.symbol si = sym /\
                 SymbolInfo.status si = "TRADING".
Proof.
  revert acc. induction symbols as [|si symbols IH]; intros acc; cbn [foldl].
  - split; [by left |].
    intros [H|(si & H & _)]; [done | by apply elem_of_nil in H].
  - rewrite IH.
    destruct (String.eqb_spec (SymbolInfo.status si) "TRADING") as [Ht|Ht].
    + rewrite elem_of_union, elem_of_singleton. split.
      * intros [[H|H]|(si' & Hin & Hs)].
        -- by left.
        -- right. exists si. split; [by left | done].
        -- right. exists si'. split; [by right | done].
      * intros [H|(si' & Hin & Hs & Hst)]; [by left; left |].
        apply elem_of_cons in Hin as [->|Hin]; [by left; right |].
        right. by exists si'.
    + split.
      * intros [H|(si' & Hin & Hs)]; [by left |].
        right. exists si'. split; [by right | done].
      * intros [H|(si' & Hin & Hs & Hst)]; [by left |].
        apply elem_of_cons in Hin as [->|Hin]; [done |].
        right. by exists si'.
Qed.

(** The whitelist holds the symbols listed with status TRADING. *)
Lemma tradingSymbols_spec (symbols : list SymbolInfo.t) (sym : string) :
  sym ∈ tradingSymbols symbols <->
  exists si, si ∈ symbols /\ SymbolInfo.symbol si = sym /\
             SymbolInfo.status si = "TRADING".
Proof.
  unfold tradingSymbols. rewrite tradingSymbols_from. split.
  - intros [H|H]; [by apply not_elem_of_empty in H | done].
  - by right.
Qed.

Lemma listedActive_spec (symbols : list SymbolInfo.t) (item : TickerItem.t) :
  listedActive symbols item <->
  TickerItem.symbol item ∈ tradingSymbols symbols /\ TickerItem.count item <> 0%N.
Proof. unfold listedActive. by rewrite tradingSymbols_spec. Qed.

(** An item the filter rejects is skipped. *)
Lemma loadItem_skipped symbols (st : State number) item :
  ~ listedActive symbols item ->
  loadItem (tradingSymbols symbols) st item = st.
Proof.
  rewrite listedActive_spec. intros Hno. unfold loadItem.
  destruct (decide (TickerItem.symbol item ∈ tradingSymbols symbols)) as [Hin|Hout].
  - rewrite (bool_decide_eq_true_2 _ Hin). cbn [negb].
    destruct (N.eqb_spec (TickerItem.count item) 0) as [Hz|Hnz]; [done |].
    destruct Hno. by split.
  - by rewrite (bool_decide_eq_false_2 _ Hout).
Qed.

(** An item leaves the records of the other symbols alone. *)
Lemma loadItem_other whitelist (st : State number) item sym :
  mapConsistent (tickerMap st) st ->
  TickerItem.symbol item <> sym ->
  record (loadItem whitelist st item) sym = record st sym.
Proof.
  intros Hcons Hne. unfold loadItem.
  destruct (negb _); [done |]. destruct (N.eqb _ _); [done |].
  unfold record, lookupRecord. cbn [tickerMap objects set_tickerMap set_objects].
  rewrite lookup_insert_ne by done.
  destruct (tickerMap st !! sym) as [l|] eqn:Hl; [|done]. cbn.
  destruct (Hcons _ _ Hl) as (r & Hr & _).
  rewrite lookup_app_l by (by eapply lookup_lt_Some). done.
Qed.

(** The records of the symbols for which no item passes the filter. *)
Lemma load_record_unlisted symbols items (st : State number) sym :
  mapConsistent (tickerMap st) st ->
  (forall item, item ∈ items -> TickerItem.symbol item = sym ->
                ~ listedActive symbols item) ->
  record (foldl (loadItem (tradingSymbols symbols)) st items) sym = record st sym.
Proof.
  revert st. induction items as [|item items IH]; intros st Hcons Hno; [done |].
  cbn [foldl]. rewrite IH.
  - destruct (decide (TickerItem.symbol item = sym)) as [Heq|Hne].
    + rewrite loadItem_skipped; [done |]. apply Hno; [by left | done].
    + by apply loadItem_other.
  - by apply loadItem_live_consistent.
  - intros later Hin. apply Hno. by right.
Qed.

(** The record of a symbol is the one of the last item that passes the
    filter. *)
Lemma load_record_last symbols before item after (st : State number) :
  mapConsistent (tickerMap st) st ->
  listedActive symbols item ->
  (forall later, later ∈ after ->
                 TickerItem.symbol later = TickerItem.symbol item ->
                 ~ listedActive symbols later) ->
  record (foldl (loadItem (tradingSymbols symbols)) st (before ++ item :: after))
         (TickerItem.symbol item)
  = Some (snapshotRecord item).
Proof.
  intros Hcons Hitem Hafter. rewrite foldl_app. cbn [foldl].
  apply listedActive_spec in Hitem as [Hin Hcount].
  rewrite load_record_unlisted; [by apply loadItem_record | | done].
  apply loadItem_live_consistent. by apply load_live_consistent.
Qed.

(** X10.  When a snapshot origin answers with two successful responses of
    the expected shape, in a state the service reached: the record of a
    symbol becomes the one built from the last ticker item of that symbol
    which is listed as TRADING and has a nonzero trade count, with both
    short-window changes undefined; the records of the symbols without
    such an item stay as they were; the effects are one call of every
    data subscriber with the resulting map, and no request. *)
Theorem snapshot_success_loads_listed_active
    (evs : list Event) (st : State number) (effects0 : list Effect)
    (i : nat) (reply : OriginReply)
    (tickerData : list TickerItem.t) (symbols : list SymbolInfo.t)
    (st' : State number) (effects : list Effect) :
  run initial evs = Some (st, effects0) ->
  step st (OriginSettled i reply) = Some (st', effects) ->
  acceptOrigin reply = Some (tickerData, symbols) ->
  (forall before item after,
     tickerData = before ++ item :: after ->
     listedActive symbols item ->
     (forall later, later ∈ after ->
                    TickerItem.symbol later = TickerItem.symbol item ->
                    ~ listedActive symbols later) ->
     record st' (TickerItem.symbol item) = Some (snapshotRecord item) /\
     changePercent1h (snapshotRecord item) = None /\
     changePercent4h (snapshotRecord item) = None) /\
  (forall sym,
     (forall item, item ∈ tickerData -> TickerItem.symbol item = sym ->
                   ~ listedActive symbols item) ->
     record st' sym = record st sym) /\
  effects = map (fun cb => CallData cb (tickerMap st')) (subscribers st') /\
  snapshotAwaiting st' = removeOne i (snapshotAwaiting st).
Proof.
  intros Hrun Hstep Hok.
  pose proof (proj1 (run_wellFormed _ _ _ Hrun)) as Hcons.
  unfold step in Hstep.
  destruct (bool_decide (i ∈ snapshotAwaiting st)); [|done].
  rewrite (resumeOrigin_accepted _ _ _ _ _ Hok) in Hstep. cbv zeta in Hstep.
  apply (inj Some) in Hstep.
  set (st1 := set_snapshotAwaiting (removeOne i (snapshotAwaiting st)) st) in *.
  assert (Hcons1 : mapConsistent (tickerMap st1) st1) by exact Hcons.
  assert (Hst : st' = foldl (loadItem (tradingSymbols symbols)) st1 tickerData)
    by (by apply (f_equal fst) in Hstep).
  assert (Heff : effects = map (fun cb => CallData cb (tickerMap st')) (subscribers st)).
  { apply (f_equal snd) in Hstep. cbn [snd] in Hstep. by rewrite Hst, <- Hstep. }
  split; [|split; [|split]].
  - intros before item after -> Hitem Hafter. split; [|done].
    rewrite Hst. by apply load_record_last.
  - intros sym Hno. rewrite Hst. by rewrite load_record_unlisted.
  - rewrite Heff. f_equal. by rewrite Hst, load_subscribers.
  - rewrite Hst, load_frame. done.
Qed.

(** The requests of an action among its effects. *)
Lemma httpGets_app e1 e2 : httpGets (e1 ++ e2) = httpGets e1 ++ httpGets e2.
Proof. apply omap_app. Qed.

Lemma httpGets_notify (cbs : list Callback) (m : gmap string nat) :
  httpGets (map (fun cb => CallData cb m) cbs) = [].
Proof. by induction cbs. Qed.

Lemma dataCalls_map (cbs : list Callback) (m : gmap string nat) :
  dataCalls (map (fun cb => CallData cb m) cbs) = map (fun cb => (cb, m)) cbs.
Proof. induction cbs as [|cb cbs IH]; [done |]. cbn. f_equal. exact IH. Qed.

(** One origin asked: the state and the effects. *)
Lemma requestOrigin_asked i domain (st : State number) :
  apiDomains !! i = Some domain ->
  requestOrigin i st
  = (set_snapshotAwaiting (i :: snapshotAwaiting st) st,
     map HttpGet (originRequests domain)).
Proof. intros Hd. unfold requestOrigin. by rewrite Hd. Qed.

Lemma removeOne_cons i l : removeOne i (i :: l) = l.
Proof. cbn. by rewrite Nat.eqb_refl. Qed.

Lemma httpGets_requests (targets : list string) :
  httpGets (map HttpGet targets) = targets.
Proof. induction targets as [|t ts IH]; [done |]. cbn. f_equal. exact IH. Qed.

Lemma dataCalls_requests (targets : list string) :
  dataCalls (map HttpGet targets) = [].
Proof. by induction targets. Qed.

Lemma set_snapshotAwaiting_same (st : State number) :
  set_snapshotAwaiting (snapshotAwaiting st) st = st.
Proof. by destruct st. Qed.

Lemma set_snapshotAwaiting_twice a b (st : State number) :
  set_snapshotAwaiting a (set_snapshotAwaiting b st) = set_snapshotAwaiting a st.
Proof. by destruct st. Qed.

(** The loop from origin [i] on, this origin being asked already: the
    origins before the first that answers are asked in order, the one
    that answers is loaded over what the failed ones left, and the replies
    after it are not used. *)
Lemma awaitOrigins_first_success failed good rest tickerData symbols :
  Forall (fun reply => acceptOrigin reply = None) failed ->
  acceptOrigin good = Some (tickerData, symbols) ->
  forall i (st : State number),
    (i + length failed < length apiDomains)%nat ->
    let leftover := foldl (fun s reply => fst (tryOrigin reply s)) st failed in
    let loaded := foldl (loadItem (tradingSymbols symbols)) leftover tickerData in
    fst (awaitOrigins i (failed ++ good :: rest)
           (set_snapshotAwaiting (i :: snapshotAwaiting st) st)) = loaded /\
    httpGets (snd (awaitOrigins i (failed ++ good :: rest)
                     (set_snapshotAwaiting (i :: snapshotAwaiting st) st)))
    = flat_map originRequests (take (length failed) (drop (S i) apiDomains)) /\
    dataCalls (snd (awaitOrigins i (failed ++ good :: rest)
                      (set_snapshotAwaiting (i :: snapshotAwaiting st) st)))
    = map (fun cb => (cb, tickerMap loaded)) (subscribers st).
Proof.
  intros Hfailed Hgood. induction Hfailed as [|bad failed Hbad _ IH]; intros i st Hi.
  - cbn [app awaitOrigins length take flat_map foldl]. rewrite Hgood.
    unfold andThen, skip.
    rewrite (resumeOrigin_accepted _ _ _ _ _ Hgood). cbv zeta.
    cbn [fst snd snapshotAwaiting set_snapshotAwaiting].
    rewrite removeOne_cons, set_snapshotAwaiting_twice, set_snapshotAwaiting_same.
    rewrite app_nil_r, httpGets_notify, dataCalls_map.
    cbn [subscribers set_snapshotAwaiting]. by destruct st.
  - cbn [app awaitOrigins length foldl]. rewrite Hbad.
    cbn [length] in Hi.
    assert (HSi : (S i < length apiDomains)%nat) by lia.
    apply lookup_lt_is_Some in HSi as [domain Hdomain].
    unfold andThen at 1 2 3.
    rewrite (resumeOrigin_rejected _ _ _ Hbad).
    cbn [snapshotAwaiting set_snapshotAwaiting].
    rewrite removeOne_cons, set_snapshotAwaiting_twice, set_snapshotAwaiting_same.
    rewrite (requestOrigin_asked _ _ _ Hdomain). cbn [fst snd].
    destruct (IH (S i) (fst (tryOrigin bad st)) ltac:(lia)) as (Hst & Hgets & Hcalls).
    cbv zeta in *. rewrite Hst.
    rewrite httpGets_app, dataCalls_app, httpGets_requests, dataCalls_requests.
    rewrite Hgets, Hcalls, tryOrigin_subscribers. split; [done |]. split; [|done].
    rewrite (drop_S _ _ _ Hdomain). cbn [take flat_map]. done.
Qed.

(** X11.  A whole snapshot load in which the first origins fail and one
    then answers: the two requests go to each origin up to that one, in
    the order of the list, and to no origin after it; the records are
    those of the origin that answered, loaded over what the [try] blocks
    of the failed origins left (which is the state before the load when
    each of them failed before its first write, and otherwise holds the
    elements a block loaded before it threw on a [null] element); every
    data subscriber is called exactly once, with the resulting map, and
    whatever the later origins would answer plays no role. *)
Theorem snapshot_stops_at_first_success
    (st : State number) (failed : list OriginReply) (good : OriginReply)
    (rest : list OriginReply)
    (tickerData : list TickerItem.t) (symbols : list SymbolInfo.t) :
  Forall (fun reply => acceptOrigin reply = None) failed ->
  acceptOrigin good = Some (tickerData, symbols) ->
  (length failed < length apiDomains)%nat ->
  let leftover := foldl (fun s reply => fst (tryOrigin reply s)) st failed in
  let loaded := foldl (loadItem (tradingSymbols symbols)) leftover tickerData in
  fst (snapshotLoad (failed ++ good :: rest) st) = loaded /\
  (forall reply s,
     fst (tryOrigin reply s)
     = match checkOrigin reply with
       | Some (received, listed) =>
           foldl (loadItem (tradingSymbols listed)) s (beforeNull received)
       | None => s
       end) /\
  (Forall failsBeforeWriting failed -> leftover = st) /\
  httpGets (snd (snapshotLoad (failed ++ good :: rest) st))
  = flat_map originRequests (take (S (length failed)) apiDomains) /\
  dataCalls (snd (snapshotLoad (failed ++ good :: rest) st))
  = map (fun cb => (cb, tickerMap loaded)) (subscribers st).
Proof.
  intros Hfailed Hgood Hlen. cbv zeta.
  split; [|split; [apply tryOrigin_state | split; [apply failures_unwritten |]]];
    unfold snapshotLoad, fetchInitialSnapshot;
    assert (H0 : (0 < length apiDomains)%nat) by lia;
    apply lookup_lt_is_Some in H0 as [domain Hdomain];
    destruct (awaitOrigins_first_success failed good rest tickerData symbols
                Hfailed Hgood 0%nat st ltac:(lia)) as (Hst & Hgets & Hcalls);
    cbv zeta in *.
  - unfold andThen. rewrite (requestOrigin_asked _ _ _ Hdomain). cbn [fst snd].
    exact Hst.
  - unfold andThen at 1 2.
    rewrite (requestOrigin_asked _ _ _ Hdomain). cbn [fst snd].
    rewrite httpGets_app, dataCalls_app, httpGets_requests, dataCalls_requests.
    rewrite Hgets, Hcalls. split; [|done].
    rewrite <- (drop_0 apiDomains) at 2.
    rewrite (drop_S _ _ _ Hdomain). cbn [take flat_map]. done.
Qed.

End SnapshotSuccess.

Lemma snapshot_success_loads_listed_active_witness :
  let item := TickerItem.mk "BTCUSDT" 1200 "50000" "1e9" "2.5" in
  run initial Scenario.streamedBeforeSnapshot
  = Some (stateAfter Scenario.streamedBeforeSnapshot,
          effectsOf Scenario.streamedBeforeSnapshot) /\
  step (stateAfter Scenario.streamedBeforeSnapshot) Scenario.lateSnapshot
  = Some (stateAfter (Scenario.streamedBeforeSnapshot ++ [Scenario.lateSnapshot]),
          [CallData 1 (tickerMap (stateAfter (Scenario.streamedBeforeSnapshot
                                              ++ [Scenario.lateSnapshot])))]) /\
  record (stateAfter (Scenario.streamedBeforeSnapshot ++ [Scenario.lateSnapshot]))
         "BTCUSDT"
  = Some (snapshotRecord item).
Proof.
  cbv zeta.
  assert (Hrun : run initial Scenario.streamedBeforeSnapshot
                 = Some (stateAfter Scenario.streamedBeforeSnapshot,
                         effectsOf Scenario.streamedBeforeSnapshot))
    by (vm_compute; reflexivity).
  assert (Hstep :
    step (stateAfter Scenario.streamedBeforeSnapshot) Scenario.lateSnapshot
    = Some (stateAfter (Scenario.streamedBeforeSnapshot ++ [Scenario.lateSnapshot]),
            [CallData 1 (tickerMap (stateAfter (Scenario.streamedBeforeSnapshot
                                                ++ [Scenario.lateSnapshot])))]))
    by (vm_compute; reflexivity).
  assert (Hok : acceptOrigin (Scenario.listing "BTCUSDT" "50000" "1e9" "2.5")
                = Some ([TickerItem.mk "BTCUSDT" 1200 "50000" "1e9" "2.5"],
                        [SymbolInfo.mk "BTCUSDT" "TRADING"]))
    by reflexivity.
  assert (Hitem : listedActive [SymbolInfo.mk "BTCUSDT" "TRADING"]
                    (TickerItem.mk "BTCUSDT" 1200 "50000" "1e9" "2.5")).
  { split; [|discriminate].
    exists (SymbolInfo.mk "BTCUSDT" "TRADING").
    split; [apply elem_of_cons; left; reflexivity | split; reflexivity]. }
  split; [exact Hrun |]. split; [exact Hstep |].
  destruct (snapshot_success_loads_listed_active _ _ _ _ _ _ _ _ _ Hrun Hstep Hok)
    as (Hloaded & _).
  refine (proj1 (Hloaded [] _ [] eq_refl Hitem _)).
  intros later Hin. apply elem_of_nil in Hin. destruct Hin.
Defined.

Lemma snapshot_stops_at_first_success_witness :
  Forall (fun reply => acceptOrigin reply = None)
    [Scenario.interrupted "ETHUSDT" "3000" "5e8" "1.5"] /\
  httpGets (snd (snapshotLoad
                   [Scenario.interrupted "ETHUSDT" "3000" "5e8" "1.5";
                    Scenario.listing "BTCUSDT" "50000" "1e9" "2.5";
                    Scenario.unavailable 500]
                   (stateAfter Scenario.connected)))
  = [ "https://data-api.binance.vision/api/v3/ticker/24hr";
      "https://data-api.binance.vision/api/v3/exchangeInfo?permissions=SPOT";
      "https://api.binance.com/api/v3/ticker/24hr";
      "https://api.binance.com/api/v3/exchangeInfo?permissions=SPOT" ] /\
  (price <$> record (fst (snapshotLoad
                            [Scenario.interrupted "ETHUSDT" "3000" "5e8" "1.5";
                             Scenario.listing "BTCUSDT" "50000" "1e9" "2.5";
                             Scenario.unavailable 500]
                            (stateAfter Scenario.connected))) "ETHUSDT")
  = Some (Decimal.Dec 3000).
Proof.
  assert (Hfailed : Forall (fun reply => acceptOrigin reply = None)
                           [Scenario.interrupted "ETHUSDT" "3000" "5e8" "1.5"])
    by (repeat constructor).
  assert (Hgood : acceptOrigin (Scenario.listing "BTCUSDT" "50000" "1e9" "2.5")
                  = Some ([TickerItem.mk "BTCUSDT" 1200 "50000" "1e9" "2.5"],
                          [SymbolInfo.mk "BTCUSDT" "TRADING"]))
    by reflexivity.
  assert (Hlen : (length [Scenario.interrupted "ETHUSDT" "3000" "5e8" "1.5"]
                  < length apiDomains)%nat)
    by (vm_compute; lia).
  split; [exact Hfailed |].
  destruct (snapshot_stops_at_first_success (stateAfter Scenario.connected)
              [Scenario.interrupted "ETHUSDT" "3000" "5e8" "1.5"] _
              [Scenario.unavailable 500] _ _ Hfailed Hgood Hlen)
    as (Hstate & _ & _ & Hgets & _).
  split; [exact Hgets |].
  etrans; [exact (f_equal (fun s => price <$> record s "ETHUSDT") Hstate) |].
  vm_compute. reflexivity.
Defined.

(** ** The detail backfill *)

Section BackfillFlight.
Context {number : Type} {Num : JSNumber number}.

(** The two requests of a backfill. *)
Lemma fetchDetailedStats_started sym (st : State number) :
  sym ∉ pendingFetches st ->
  fetchDetailedStats sym st
  = (set_pendingFetches (pendingFetches st ∪ {[ sym ]}) st,
     [ HttpGet ("https://data-api.binance.vision/api/v3/ticker"
                +:+ "?symbol=" +:+ sym +:+ "&windowSize=1h");
       HttpGet ("https://data-api.binance.vision/api/v3/ticker"
                +:+ "?symbol=" +:+ sym +:+ "&windowSize=4h") ]).
Proof.
  intros Hidle. unfold fetchDetailedStats.
  by rewrite (bool_decide_eq_false_2 _ Hidle).
Qed.

Lemma writeDetailedStats_pendingFetches sym reply1h reply4h (st : State number) :
  pendingFetches (fst (writeDetailedStats sym reply1h reply4h st))
  = pendingFetches st.
Proof. by rewrite writeDetailedStats_frame. Qed.

(** The [finally] block: the marker of the symbol is removed, whatever
    the [try] block did. *)
Lemma settleDetailedStats_pendingFetches sym reply1h reply4h (st : State number) :
  pendingFetches (fst (settleDetailedStats sym reply1h reply4h st))
  = pendingFetches st ∖ {[ sym ]}.
Proof.
  unfold settleDetailedStats, andThen, update.
  cbn [fst pendingFetches set_pendingFetches].
  by rewrite writeDetailedStats_pendingFetches.
Qed.

Lemma settleDetailedStats_requests sym reply1h reply4h (st : State number) :
  httpGets (snd (settleDetailedStats sym reply1h reply4h st)) = [].
Proof.
  unfold settleDetailedStats, andThen, update. cbn [snd].
  rewrite app_nil_r.
  destruct (writeDetailedStats_effects sym reply1h reply4h st) as [-> | ->];
    [done | apply httpGets_notify].
Qed.

(** X12.  At most one backfill per symbol is in flight.  A call of
    [fetchDetailedStats] for a symbol with no fetch in flight sends the
    1-hour and the 4-hour request; a second call before they settle does
    nothing at all; when they settle, whatever the replies (also a network
    error, an error status or a body that is not JSON), the set of symbols
    in flight is again what it was before the first call, no request is
    sent, and the next call sends the two requests again. *)
Theorem backfill_single_flight
    (st : State number) (sym : string) (reply1h reply4h : DetailReply) :
  sym ∉ pendingFetches st ->
  let started := fetchDetailedStats sym st in
  let settled := settleDetailedStats sym reply1h reply4h (fst started) in
  httpGets (snd started)
  = [ "https://data-api.binance.vision/api/v3/ticker"
      +:+ "?symbol=" +:+ sym +:+ "&windowSize=1h";
      "https://data-api.binance.vision/api/v3/ticker"
      +:+ "?symbol=" +:+ sym +:+ "&windowSize=4h" ] /\
  fetchDetailedStats sym (fst started) = (fst started, []) /\
  step (fst started) (DetailedStatsSettled sym reply1h reply4h) = Some settled /\
  pendingFetches (fst settled) = pendingFetches st /\
  httpGets (snd settled) = [] /\
  snd (fetchDetailedStats sym (fst settled)) = snd started.
Proof.
  intros Hidle. cbv zeta.
  rewrite (fetchDetailedStats_started _ _ Hidle). cbn [fst snd].
  assert (Hin : sym ∈ pendingFetches
                  (set_pendingFetches (pendingFetches st ∪ {[ sym ]}) st)).
  { cbn [pendingFetches set_pendingFetches].
    apply elem_of_union. right. by apply elem_of_singleton. }
  assert (Hreleased :
    pendingFetches
      (fst (settleDetailedStats sym reply1h reply4h
              (set_pendingFetches (pendingFetches st ∪ {[ sym ]}) st)))
    = pendingFetches st).
  { rewrite settleDetailedStats_pendingFetches.
    cbn [pendingFetches set_pendingFetches].
    by apply union_difference_singleton. }
  split; [done |].
  split; [unfold fetchDetailedStats; by rewrite (bool_decide_eq_true_2 _ Hin) |].
  split; [unfold step; by rewrite (bool_decide_eq_true_2 _ Hin) |].
  split; [exact Hreleased |].
  split; [apply settleDetailedStats_requests |].
  rewrite fetchDetailedStats_started; [done |]. by rewrite Hreleased.
Qed.

(** The flag [updated] is set exactly when a field was written. *)
Lemma fillWindows_filled res1h res4h (item : TickerData number) :
  snd (fillWindows res1h res4h item) = true ->
  fst (fillWindows res1h res4h item) <> item.
Proof.
  unfold fillWindows.
  destruct res1h, res4h, (changePercent1h item) eqn:H1,
    (changePercent4h item) eqn:H4; cbn; rewrite ?H1, ?H4; cbn;
    rewrite ?H1, ?H4; try done;
    intros _ Heq;
    first [ apply (f_equal changePercent1h) in Heq; cbn in Heq;
            rewrite ?H1 in Heq; discriminate Heq
          | apply (f_equal changePercent4h) in Heq; cbn in Heq;
            rewrite ?H4 in Heq; discriminate Heq ].
Qed.

(** X13.  The continuation of a backfill for a symbol the map holds calls
    the data subscribers exactly when it filled a window: either the
    record is what it was and nobody is called, or the record changed and
    every data subscriber is called once, with a copy of the map, whose
    bindings are unchanged. *)
Theorem backfill_notifies_exactly_when_it_fills
    (st : State number) (sym : string) (r : TickerData number)
    (reply1h reply4h : DetailReply) :
  record st sym = Some r ->
  let settled := settleDetailedStats sym reply1h reply4h st in
  tickerMap (fst settled) = tickerMap st /\
  exists r',
    record (fst settled) sym = Some r' /\
    ((r' = r /\ snd settled = []) \/
     (r' <> r /\
      snd settled = map (fun cb => CallData cb (tickerMap st)) (subscribers st))).
Proof.
  intros Hr. cbv zeta.
  split.
  { unfold settleDetailedStats, andThen, update. cbn [fst tickerMap set_pendingFetches].
    apply writeDetailedStats_tickerMap. }
  eexists. split; [by apply settleDetailedStats_record |].
  unfold record, lookupRecord in Hr.
  destruct (tickerMap st !! sym) as [l|] eqn:Hl; [cbn in Hr | done].
  unfold settleDetailedStats, andThen, update. cbn [snd]. rewrite app_nil_r.
  unfold writeDetailedStats. rewrite Hl, Hr.
  destruct (detailValue reply1h) as [res1h|]; [|by left].
  destruct (detailValue reply4h) as [res4h|]; [|by left].
  destruct (snd (fillWindows res1h res4h r)) eqn:Hupd.
  - right. split; [by apply fillWindows_filled |].
    unfold andThen, update, notify.
    cbn [fst snd app tickerMap subscribers set_tickerMap set_objects].
    by rewrite insert_id.
  - left. split; [by apply fillWindows_idle | done].
Qed.

End BackfillFlight.

Lemma backfill_single_flight_witness :
  ("ETHUSDT" ∉ pendingFetches (stateAfter Scenario.seeded)) /\
  fetchDetailedStats "ETHUSDT"
    (fst (fetchDetailedStats "ETHUSDT" (stateAfter Scenario.seeded)))
  = (fst (fetchDetailedStats "ETHUSDT" (stateAfter Scenario.seeded)), []) /\
  pendingFetches
    (fst (settleDetailedStats "ETHUSDT" NetworkError (Http 200 (Shaped (Some "2.2")))
            (fst (fetchDetailedStats "ETHUSDT" (stateAfter Scenario.seeded)))))
  = pendingFetches (stateAfter Scenario.seeded).
Proof.
  assert (Hidle : "ETHUSDT" ∉ pendingFetches (stateAfter Scenario.seeded))
    by (vm_compute; intros H; discriminate H).
  split; [exact Hidle |].
  destruct (backfill_single_flight (stateAfter Scenario.seeded) "ETHUSDT"
              NetworkError (Http 200 (Shaped (Some "2.2"))) Hidle)
    as (_ & Hsecond & _ & Hreleased & _).
  split; [exact Hsecond | exact Hreleased].
Defined.

Lemma backfill_notifies_exactly_when_it_fills_witness :
  record (stateAfter Scenario.streamedFirst) "ETHUSDT" =
    Some (mkTickerData "ETHUSDT" (Decimal.Dec 3000) (Decimal.Dec 0)
            (Some (Decimal.Dec (9 # 10))) None (Decimal.Dec 0) noDescriptive) /\
  snd (settleDetailedStats "ETHUSDT"
         (Http 200 (Shaped (Some "1.1"))) (Http 200 OtherShape)
         (stateAfter Scenario.streamedFirst)) = [].
Proof.
  assert (Hrecord :
    record (stateAfter Scenario.streamedFirst) "ETHUSDT" =
    Some (mkTickerData "ETHUSDT" (Decimal.Dec 3000) (Decimal.Dec 0)
            (Some (Decimal.Dec (9 # 10))) None (Decimal.Dec 0) noDescriptive))
    by (vm_compute; reflexivity).
  split; [exact Hrecord |].
  destruct (backfill_notifies_exactly_when_it_fills
              (stateAfter Scenario.streamedFirst) "ETHUSDT" _
              (Http 200 (Shaped (Some "1.1"))) (Http 200 OtherShape) Hrecord)
    as (_ & r' & Hr' & [[_ Hsilent]|[Hchanged _]]).
  - exact Hsilent.
  - destruct Hchanged.
    assert (Hsame :
      record (fst (settleDetailedStats "ETHUSDT"
                     (Http 200 (Shaped (Some "1.1"))) (Http 200 OtherShape)
                     (stateAfter Scenario.streamedFirst))) "ETHUSDT"
      = Some (mkTickerData "ETHUSDT" (Decimal.Dec 3000) (Decimal.Dec 0)
                (Some (Decimal.Dec (9 # 10))) None (Decimal.Dec 0) noDescriptive))
      by (vm_compute; reflexivity).
    rewrite Hsame in Hr'. by injection Hr' as <-.
Defined.

(** ** What the data subscribers hold *)

Section Delivery.
Context {number : Type} {Num : JSNumber number}.

Local Arguments Nat.modulo : simpl never.
Local Arguments displayUrl : simpl never.
Local Arguments reconnectDelay : simpl never.
Local Arguments String.append : simpl never.
Local Arguments dataCalls : simpl never.

Ltac unfold_handlers :=
  unfold connect, fetchInitialSnapshot, requestOrigin, connectWebSocket,
    disconnect, subscribe, unsubscribe, subscribeStatus, unsubscribeStatus,
    fetchDetailedStats, onopen, onclose_handler, onerror_handler,
    scheduleReconnect, cancelReconnectTimer, closeWebSocket, openWebSocket,
    armReconnectTimer, clearTimeout, emitStatus, notify, setReadyState,
    andThen, update, perform, skip in *.

Ltac run_handlers :=
  unfold_handlers; cbn in *;
  repeat (case_match; cbn in * ); simplify_eq; cbn in *.

Lemma run_snoc (st0 : State number) evs ev :
  run st0 (evs ++ [ev]) =
  match run st0 evs with
  | Some (st, effects) =>
      match step st ev with
      | Some (st', effects') => Some (st', effects ++ effects')
      | None => None
      end
  | None => None
  end.
Proof.
  revert st0. induction evs as [|e evs IH]; intros st0; cbn [app run].
  - destruct (step st0 ev) as [[st' e']|]; [|done]. by rewrite app_nil_r.
  - destruct (step st0 e) as [[st1 e1]|]; [|done].
    rewrite IH. destruct (run st1 evs) as [[st2 e2]|]; [|done].
    destruct (step st2 ev) as [[st3 e3]|]; [|done]. by rewrite app_assoc.
Qed.

(** Induction on the runs from the initial state whose events satisfy
    [P], with the effects so far. *)
Lemma run_history (P : Event -> Prop) (J : State number -> list Effect -> Prop) :
  J initial [] ->
  (forall st history ev st' effects,
     P ev -> J st history -> step st ev = Some (st', effects) ->
     J st' (history ++ effects)) ->
  forall evs st history,
    Forall P evs -> run initial evs = Some (st, history) -> J st history.
Proof.
  intros H0 Hs evs. induction evs as [|ev evs IH] using rev_ind;
    intros st history HP Hrun.
  - cbn in Hrun. by simplify_eq.
  - rewrite run_snoc in Hrun.
    apply Forall_app in HP as [HP Hev]. apply Forall_cons in Hev as [Hev _].
    destruct (run initial evs) as [[st1 h1]|] eqn:Hr; [|done].
    destruct (step st1 ev) as [[st2 e2]|] eqn:Hst; [|done].
    simplify_eq. eapply Hs; [exact Hev | by apply IH | done].
Qed.

Lemma dataCalls_statuses shown (cbs : list Callback) :
  dataCalls (map (fun cb => CallStatus cb shown) cbs) = [].
Proof. by induction cbs. Qed.

Lemma dataCalls_cons_other e effects :
  match e with CallData _ _ => False | _ => True end ->
  dataCalls (e :: effects) = dataCalls effects.
Proof. by destruct e. Qed.

Ltac no_calls :=
  repeat first
    [ rewrite dataCalls_app
    | rewrite dataCalls_statuses
    | rewrite dataCalls_cons_other by exact I
    | rewrite dataCalls_nil ];
  cbn [app].

(** The events that write no record: only [subscribe] calls a data
    subscriber, and only [subscribe] and the function it returns change
    the registry. *)
Lemma step_quiet (st : State number) ev st' effects :
  step st ev = Some (st', effects) ->
  writesRecords ev = false ->
  match ev with
  | CallSubscribe cb =>
      subscribers st' = subscribers st ++ [cb] /\
      dataCalls effects
      = if (0 <? size (tickerMap st))%nat then [(cb, tickerMap st)] else []
  | CallUnsubscribe cb =>
      subscribers st' = filter (fun c => c <> cb) (subscribers st) /\
      dataCalls effects = []
  | _ => subscribers st' = subscribers st /\ dataCalls effects = []
  end.
Proof.
  intros Hstep Hw. destruct ev; try discriminate Hw; clear Hw;
    cbn in Hstep; run_handlers; no_calls; done.
Qed.

(** *** Symbols are never removed *)

Lemma loadItem_keeps_symbol whitelist (st : State number) item sym :
  is_Some (tickerMap st !! sym) ->
  is_Some (tickerMap (loadItem whitelist st item) !! sym).
Proof.
  intros Hs. unfold loadItem.
  destruct (negb _); [done |]. destruct (N.eqb _ _); [done |].
  cbn [tickerMap set_tickerMap set_objects].
  apply lookup_insert_is_Some.
  destruct (decide (TickerItem.symbol item = sym)); [by left | by right].
Qed.

Lemma load_keeps_symbol whitelist items (st : State number) sym :
  is_Some (tickerMap st !! sym) ->
  is_Some (tickerMap (foldl (loadItem whitelist) st items) !! sym).
Proof.
  revert st. induction items as [|item items IH]; intros st Hs; [done |].
  cbn [foldl]. apply IH. by apply loadItem_keeps_symbol.
Qed.

Lemma step_keeps_symbol (st : State number) ev st' effects sym :
  step st ev = Some (st', effects) ->
  is_Some (tickerMap st !! sym) ->
  is_Some (tickerMap st' !! sym).
Proof.
  intros Hstep Hs.
  assert (Hcase : (exists i reply, ev = OriginSettled i reply) \/
                  (forall i reply, ev <> OriginSettled i reply)).
  { destruct ev; try (by right); left; by eexists _, _. }
  destruct Hcase as [(i & reply & ->)|Hother].
  - unfold step in Hstep. case_bool_decide; [|done]. apply (inj Some) in Hstep.
    destruct (acceptOrigin reply) as [[tickerData symbols]|] eqn:Ha.
    + rewrite (resumeOrigin_accepted _ _ _ _ _ Ha) in Hstep.
      injection Hstep as <- _. by apply load_keeps_symbol.
    + destruct (resumeOrigin_interrupted i _ st Ha)
        as (whitelist & written & Hrej).
      rewrite Hrej in Hstep. clear Hrej.
      destruct (requestOrigin_records (S i)
                  (foldl (loadItem whitelist)
                     (set_snapshotAwaiting (removeOne i (snapshotAwaiting st)) st)
                     written))
        as (Ht & _).
      rewrite Hstep in Ht. cbn [fst] in Ht. rewrite Ht.
      by apply load_keeps_symbol.
  - destruct Hs as [l Hl]. exists l.
    by eapply step_keeps_binding.
Qed.

(** X14.  The service never removes a record: a symbol the live map binds
    in some state is bound in every state a run of events leads to from
    there, whatever the events (snapshot reloads, stream messages,
    backfills, disconnects). *)
Theorem symbols_are_never_removed
    (st : State number) (evs : list Event) (st' : State number)
    (effects : list Effect) (sym : string) :
  run st evs = Some (st', effects) ->
  is_Some (tickerMap st !! sym) ->
  is_Some (tickerMap st' !! sym).
Proof.
  revert st effects. induction evs as [|ev evs IH]; intros st effects Hrun Hs.
  - cbn in Hrun. by simplify_eq.
  - cbn [run] in Hrun.
    destruct (step st ev) as [[st1 e1]|] eqn:Hstep; [|done].
    destruct (run st1 evs) as [[st2 e2]|] eqn:Hrest; [|done].
    simplify_eq. eapply IH; [exact Hrest |].
    by eapply step_keeps_symbol.
Qed.

(** *** The map a registered subscriber holds *)

(** What a step does to the registry and whom it calls: it notifies every
    subscriber, or it calls nobody and registers nobody, or it is
    [subscribe], or it delivers a snapshot reply that throws inside its
    loop. *)
Lemma step_notification (st : State number) ev st' effects :
  step st ev = Some (st', effects) ->
  (subscribers st' = subscribers st /\
   dataCalls effects = map (fun cb => (cb, tickerMap st')) (subscribers st')) \/
  (tickerMap st' = tickerMap st /\ dataCalls effects = [] /\
   forall cb, cb ∈ subscribers st' -> cb ∈ subscribers st) \/
  (exists cb, subscribers st' = subscribers st ++ [cb] /\
              tickerMap st' = tickerMap st /\
              dataCalls effects
              = if (0 <? size (tickerMap st))%nat then [(cb, tickerMap st)] else []) \/
  interruptsSnapshot ev = true.
Proof.
  intros Hstep. destruct (writesRecords ev) eqn:Hw.
  - destruct ev; try discriminate Hw; unfold step in Hstep.
    + destruct (bool_decide (sym ∈ pendingFetches st)); [|done].
      apply (inj Some) in Hstep.
      unfold settleDetailedStats, andThen, update in Hstep.
      cbn [fst snd] in Hstep. injection Hstep as <- <-.
      rewrite app_nil_r. cbn [tickerMap objects subscribers set_pendingFetches].
      pose proof (writeDetailedStats_tickerMap sym reply1h reply4h st) as Ht.
      pose proof (writeDetailedStats_frame sym reply1h reply4h st) as Hf.
      destruct (writeDetailedStats_silent_or_notified sym reply1h reply4h st)
        as [[Ho He]|He]; cbv zeta in *.
      * right. left. rewrite He, Hf. by repeat split.
      * left. rewrite He, dataCalls_notify, Ht. by rewrite Hf.
    + destruct (bool_decide (i ∈ snapshotAwaiting st)); [|done].
      apply (inj Some) in Hstep.
      destruct (resumeOrigin_cases i reply st) as (Hsubs & Hcalls & Hunwritten).
      cbv zeta in Hsubs, Hcalls, Hunwritten.
      rewrite Hstep in Hsubs, Hcalls, Hunwritten.
      cbn [fst snd] in Hsubs, Hcalls, Hunwritten.
      destruct Hcalls as [Hcalls|(Ha & Hnext & Hcalls)].
      * left. by rewrite Hsubs.
      * cbn [interruptsSnapshot].
        destruct (throwsInLoop reply) eqn:Hthrows; [by right; right; right |].
        right. left. destruct (Hunwritten Ha eq_refl) as [Ht _].
        split; [done |]. split; [done |]. intros cb. by rewrite Hsubs.
    + destruct (readyState <$> sockets st !! k) as [[]|]; try done.
      apply (inj Some) in Hstep.
      destruct frame as [|[streamName data]].
      { rewrite (onmessage_dropped Garbled) in Hstep by done.
        simplify_eq. right. left. by repeat split. }
      destruct (rawData data) as [items|] eqn:Hd.
      * rewrite (onmessage_envelope _ _ _ _ Hd) in Hstep.
        injection Hstep as <- <-. left.
        by rewrite dataCalls_notify, merge_subscribers.
      * rewrite onmessage_dropped in Hstep by done. simplify_eq.
        right. left. by repeat split.
  - destruct (step_other_records _ _ _ _ Hstep Hw) as [Ht _].
    pose proof (step_quiet _ _ _ _ Hstep Hw) as Hq.
    destruct ev; try discriminate Hw; destruct Hq as [Hsubs Hcalls];
      try (right; left; rewrite Hsubs; by repeat split).
    + right. right. left. by exists cb.
    + right. left. split; [done |]. split; [done |].
      intros c Hc. rewrite Hsubs in Hc. by apply list_elem_of_filter in Hc as [_ Hc].
Qed.

Lemma heldBy_silent cb history effects :
  (forall m, (cb, m) ∉ dataCalls effects) ->
  heldBy cb (history ++ effects) = heldBy cb history.
Proof.
  intros Hno. unfold heldBy. rewrite dataCalls_app, omap_app, last_app.
  destruct (last (omap _ (dataCalls effects))) as [m|] eqn:Hlast; [|done].
  apply last_Some_elem_of, list_elem_of_omap in Hlast as ([c m'] & Hin & Hsel).
  cbn [fst snd] in Hsel. destruct (Nat.eqb_spec c cb) as [->|]; [|done].
  by destruct (Hno m').
Qed.

Lemma heldBy_called cb m history effects :
  (cb, m) ∈ dataCalls effects ->
  (forall cb' m', (cb', m') ∈ dataCalls effects -> m' = m) ->
  heldBy cb (history ++ effects) = m.
Proof.
  intros Hin Hall. unfold heldBy. rewrite dataCalls_app, omap_app, last_app.
  destruct (last (omap _ (dataCalls effects))) as [m1|] eqn:Hlast.
  - apply last_Some_elem_of, list_elem_of_omap in Hlast as ([c m'] & Hin' & Hsel).
    cbn [fst snd] in Hsel. destruct (Nat.eqb c cb); [|done].
    simplify_eq. cbn. by eapply Hall.
  - exfalso.
    assert (Hm : m ∈ omap (fun call : Callback * gmap string nat =>
                             if Nat.eqb (fst call) cb then Some (snd call) else None)
                          (dataCalls effects)).
    { apply list_elem_of_omap. exists (cb, m). split; [done |].
      cbn [fst snd]. by rewrite Nat.eqb_refl. }
    destruct (omap _ (dataCalls effects)) as [|x l] eqn:Hl;
      [by apply elem_of_nil in Hm |].
    assert (Hsome : is_Some (last (x :: l))).
    { rewrite <- (rev_involutive (x :: l)). destruct (rev (x :: l)) eqn:Hrev.
      - apply (f_equal (@rev _)) in Hrev. rewrite rev_involutive in Hrev. done.
      - cbn [rev]. rewrite last_snoc. by eexists. }
    rewrite Hlast in Hsome. by destruct Hsome.
Qed.

(** Every map ever handed to a subscriber binds only symbols that the
    live map binds. *)
Lemma run_delivered_symbols evs (st : State number) history cb m sym :
  run initial evs = Some (st, history) ->
  (cb, m) ∈ dataCalls history ->
  is_Some (m !! sym) -> is_Some (tickerMap st !! sym).
Proof.
  intros Hrun. revert cb m sym.
  refine (run_history (fun _ => True)
            (fun st history =>
               forall cb m sym, (cb, m) ∈ dataCalls history ->
                                is_Some (m !! sym) -> is_Some (tickerMap st !! sym))
            _ _ evs st history _ Hrun).
  - intros cb m sym Hin. by apply elem_of_nil in Hin.
  - clear. intros st history ev st' effects _ Hdom Hstep cb m sym Hin Hm.
    rewrite dataCalls_app in Hin. apply elem_of_app in Hin as [Hin|Hin].
    + eapply step_keeps_symbol; [exact Hstep |]. by eapply Hdom.
    + apply list_elem_of_omap in Hin as (e & He & Hsel).
      destruct e; try done. simplify_eq.
      by rewrite <- (step_calls _ _ _ _ _ _ Hstep He).
  - by apply Forall_forall.
Qed.

(** The invariant of the runs in which no snapshot reply throws inside
    its loop: every registered subscriber holds the bindings of the live
    map, and every map ever delivered binds only symbols that the live map
    binds. *)
Lemma run_delivery evs (st : State number) history :
  Forall (fun ev => interruptsSnapshot ev = false) evs ->
  run initial evs = Some (st, history) ->
  (forall cb, cb ∈ subscribers st -> heldBy cb history = tickerMap st) /\
  (forall cb m sym, (cb, m) ∈ dataCalls history ->
                    is_Some (m !! sym) -> is_Some (tickerMap st !! sym)).
Proof.
  revert evs st history.
  apply (run_history (fun ev => interruptsSnapshot ev = false)
           (fun st history =>
    (forall cb, cb ∈ subscribers st -> heldBy cb history = tickerMap st) /\
    (forall cb m sym, (cb, m) ∈ dataCalls history ->
                      is_Some (m !! sym) -> is_Some (tickerMap st !! sym)))).
  - split.
    + intros cb Hcb. unfold initial in Hcb. cbn in Hcb.
      by apply elem_of_nil in Hcb.
    + intros cb m sym Hin. by apply elem_of_nil in Hin.
  - intros st history ev st' effects Hclean [Hheld Hdom] Hstep.
    assert (Hcalls : forall cb m, (cb, m) ∈ dataCalls effects -> m = tickerMap st').
    { intros cb m Hin. apply list_elem_of_omap in Hin as (e & He & Hsel).
      destruct e; try done. simplify_eq. by eapply step_calls. }
    split.
    + intros cb Hcb.
      destruct (step_notification _ _ _ _ Hstep)
        as [[Hsubs Hall]|[(Ht & Hnone & Hsub)|[(cb0 & Hsubs & Ht & Hone)|Hbad]]].
      * apply heldBy_called; [|exact Hcalls].
        rewrite Hall. apply list_elem_of_fmap. by exists cb.
      * rewrite heldBy_silent, Ht; [by apply Hheld, Hsub |].
        intros m. rewrite Hnone. apply not_elem_of_nil.
      * destruct (0 <? size (tickerMap st))%nat eqn:Hsize.
        -- destruct (decide (cb = cb0)) as [->|Hne].
           ++ rewrite Ht. apply heldBy_called.
              ** rewrite Hone. by left.
              ** intros cb' m'. rewrite Hone.
                 intros Hin. apply elem_of_cons in Hin as [Heq|Hin];
                   [by simplify_eq | by apply elem_of_nil in Hin].
           ++ rewrite heldBy_silent, Ht.
              ** apply Hheld. rewrite Hsubs in Hcb.
                 apply elem_of_app in Hcb as [Hcb|Hcb]; [done |].
                 apply elem_of_cons in Hcb as [->|Hcb];
                   [done | by apply elem_of_nil in Hcb].
              ** intros m. rewrite Hone. intros Hin.
                 apply elem_of_cons in Hin as [Heq|Hin];
                   [by simplify_eq | by apply elem_of_nil in Hin].
        -- rewrite heldBy_silent, Ht
             by (intros m; rewrite Hone; apply not_elem_of_nil).
           rewrite Hsubs in Hcb.
           apply elem_of_app in Hcb as [Hcb|Hcb]; [by apply Hheld |].
           (* a callback registered on an empty map: nothing was ever
              delivered but empty maps *)
           apply Nat.ltb_ge in Hsize.
           assert (Hempty : tickerMap st = ∅)
             by (apply map_size_empty_iff; lia).
           rewrite Hempty. unfold heldBy.
           destruct (last _) as [m|] eqn:Hlast; [|done]. cbn.
           apply last_Some_elem_of, list_elem_of_omap in Hlast
             as ([c m'] & Hin & Hsel).
           cbn [fst snd] in Hsel. destruct (Nat.eqb c cb); [|done].
           simplify_eq. apply map_empty. intros sym.
           destruct (m !! sym) eqn:Hm; [|done].
           destruct (Hdom c m sym Hin ltac:(by eexists)) as [l Hl].
           by rewrite Hempty, lookup_empty in Hl.
      * by rewrite Hclean in Hbad.
    + intros cb m sym Hin Hm. rewrite dataCalls_app in Hin.
      apply elem_of_app in Hin as [Hin|Hin].
      * eapply step_keeps_symbol; [exact Hstep |]. by eapply Hdom.
      * by rewrite <- (Hcalls _ _ Hin).
Qed.

(** X15.  A registered data subscriber is never behind as long as no
    snapshot reply throws inside its loop: after any run of events none of
    which delivers a snapshot reply with a [null] element in the ticker
    array, the map the subscriber received last (the empty map when it was
    never called) has exactly the bindings of the live map, so that
    together with the sharing of the record objects it sees the current
    record of every symbol.  After any run whatsoever, every symbol the
    subscriber holds a binding for is bound in the live map.  (Stream
    payloads are arrays of ticker objects, as [types.ts] declares
    them.) *)
Theorem subscriber_holds_live_map
    (evs : list Event) (st : State number) (history : list Effect)
    (cb : Callback) :
  run initial evs = Some (st, history) ->
  cb ∈ subscribers st ->
  (Forall (fun ev => interruptsSnapshot ev = false) evs ->
   heldBy cb history = tickerMap st) /\
  (forall sym, is_Some (heldBy cb history !! sym) ->
               is_Some (tickerMap st !! sym)).
Proof.
  intros Hrun Hcb. split.
  - intros Hclean. by apply (run_delivery _ _ _ Hclean Hrun).
  - intros sym. unfold heldBy.
    destruct (last _) as [m|] eqn:Hlast; cbn;
      [|by rewrite lookup_empty; intros [? ?]].
    apply last_Some_elem_of, list_elem_of_omap in Hlast as ([c m'] & Hin & Hsel).
    cbn [fst snd] in Hsel. destruct (Nat.eqb c cb); [|done].
    simplify_eq. by eapply run_delivered_symbols.
Qed.

End Delivery.

Lemma symbols_are_never_removed_witness :
  run (stateAfter Scenario.streamedBeforeSnapshot)
      [Scenario.lateSnapshot; CallDisconnect]
  = Some (stateAfter (Scenario.streamedBeforeSnapshot
                      ++ [Scenario.lateSnapshot; CallDisconnect]),
          [CallData 1 (tickerMap (stateAfter (Scenario.streamedBeforeSnapshot
                                              ++ [Scenario.lateSnapshot])));
           SocketClose 0]) /\
  is_Some (tickerMap (stateAfter Scenario.streamedBeforeSnapshot) !! "BTCUSDT") /\
  is_Some (tickerMap (stateAfter (Scenario.streamedBeforeSnapshot
                                  ++ [Scenario.lateSnapshot; CallDisconnect]))
           !! "BTCUSDT").
Proof.
  assert (Hrun :
    run (stateAfter Scenario.streamedBeforeSnapshot)
        [Scenario.lateSnapshot; CallDisconnect]
    = Some (stateAfter (Scenario.streamedBeforeSnapshot
                        ++ [Scenario.lateSnapshot; CallDisconnect]),
            [CallData 1 (tickerMap (stateAfter (Scenario.streamedBeforeSnapshot
                                                ++ [Scenario.lateSnapshot])));
             SocketClose 0]))
    by (vm_compute; reflexivity).
  assert (Hbound :
    is_Some (tickerMap (stateAfter Scenario.streamedBeforeSnapshot) !! "BTCUSDT"))
    by (vm_compute; eexists; reflexivity).
  split; [exact Hrun |]. split; [exact Hbound |].
  exact (symbols_are_never_removed _ _ _ _ _ Hrun Hbound).
Defined.

Lemma subscriber_holds_live_map_witness :
  run initial (Scenario.seeded ++ [Trace.ticked])
  = Some (stateAfter (Scenario.seeded ++ [Trace.ticked]),
          effectsOf (Scenario.seeded ++ [Trace.ticked])) /\
  (1%nat ∈ subscribers (stateAfter (Scenario.seeded ++ [Trace.ticked]))) /\
  heldBy 1 (effectsOf (Scenario.seeded ++ [Trace.ticked]))
  = tickerMap (stateAfter (Scenario.seeded ++ [Trace.ticked])).
Proof.
  assert (Hrun : run initial (Scenario.seeded ++ [Trace.ticked])
                 = Some (stateAfter (Scenario.seeded ++ [Trace.ticked]),
                         effectsOf (Scenario.seeded ++ [Trace.ticked])))
    by (vm_compute; reflexivity).
  assert (Hcb : 1%nat ∈ subscribers (stateAfter (Scenario.seeded ++ [Trace.ticked])))
    by (apply list_elem_of_In; vm_compute; tauto).
  assert (Hclean : Forall (fun ev => interruptsSnapshot ev = false)
                          (Scenario.seeded ++ [Trace.ticked]))
    by (repeat constructor).
  split; [exact Hrun |]. split; [exact Hcb |].
  exact (proj1 (subscriber_holds_live_map _ _ _ _ Hrun Hcb) Hclean).
Defined.

(** ** A constructor that throws *)

Section ConstructorFailure.
Context {number : Type} {Num : JSNumber number}.

Local Arguments Nat.modulo : simpl never.
Local Arguments displayUrl : simpl never.
Local Arguments reconnectDelay : simpl never.

Ltac fields :=
  cbn [fst snd app
       ws subscribers statusSubscribers tickerMap reconnectAttempt
       reconnectTimeoutId endpointIndex pendingFetches objects sockets timers
       timerSeq snapshotAwaiting
       set_ws set_subscribers set_statusSubscribers set_tickerMap
       set_reconnectAttempt set_reconnectTimeoutId set_endpointIndex
       set_pendingFetches set_objects set_sockets set_timers set_timerSeq
       set_snapshotAwaiting
       url readyState onclose onerror] in *.

Lemma statusCalls_timer e effects :
  match e with CallStatus _ _ => False | _ => True end ->
  statusCalls (e :: effects) = statusCalls effects.
Proof. by destruct e. Qed.

(** X16.  When the [WebSocket] constructor throws, in a state the service
    reached with no open or connecting socket: no socket is created and
    the socket held stays the one held before; the failure is handled as
    a closed connection is, that is, the endpoint index advances by one,
    the attempt count is incremented, and the reconnect timer is the only
    timer armed, with the backoff delay of the count found; the status
    subscribers are called with the origin of the endpoint that was tried
    and then with the origin of the next one. *)
Theorem failed_constructor_schedules_reconnect
    (evs : list Event) (st : State number) (effects0 : list Effect) :
  run initial evs = Some (st, effects0) ->
  connectedOrConnecting st = false ->
  let failed := connectWebSocket true st in
  let next := ((endpointIndex st + 1) mod length BASE_WS_URLS)%nat in
  sockets (fst failed) = sockets st /\
  ws (fst failed) = ws st /\
  endpointIndex (fst failed) = next /\
  reconnectAttempt (fst failed) = S (reconnectAttempt st) /\
  reconnectTimeoutId (fst failed) = Some (timerSeq st) /\
  timers (fst failed) = {[ timerSeq st := reconnectDelay (reconnectAttempt st) ]} /\
  statusCalls (snd failed)
  = map (fun cb => (cb, displayUrl (endpointIndex st))) (statusSubscribers st)
    ++ map (fun cb => (cb, displayUrl next)) (statusSubscribers st) /\
  last (snd failed)
  = Some (SetTimeout (timerSeq st) (reconnectDelay (reconnectAttempt st))).
Proof.
  intros Hrun Hidle. cbv zeta.
  pose proof (run_singleTimer _ _ _ Hrun) as Hinv.
  pose proof (cleared_timers_empty _ Hinv) as Hcleared.
  unfold connectWebSocket. rewrite Hidle.
  unfold andThen. fields.
  assert (Hemit : forall s : State number, fst (emitStatus None s) = s) by done.
  rewrite Hemit, scheduleReconnect_state, cancelReconnectTimer_state. fields.
  rewrite Hcleared, insert_empty.
  repeat (split; [done |]).
  split.
  - rewrite !statusCalls_app.
    unfold scheduleReconnect, cancelReconnectTimer, andThen, update, emitStatus,
      armReconnectTimer, clearTimeout, skip.
    destruct (reconnectTimeoutId st) as [old|]; fields;
      rewrite ?statusCalls_app, ?statusCalls_emit;
      cbn [statusCalls omap list_omap app]; by rewrite ?app_nil_r.
  - unfold scheduleReconnect, andThen, armReconnectTimer. fields.
    by rewrite !app_assoc, last_snoc.
Qed.

End ConstructorFailure.

Lemma failed_constructor_schedules_reconnect_witness :
  run initial Trace.dropped
  = Some (stateAfter Trace.dropped, effectsOf Trace.dropped) /\
  connectedOrConnecting (stateAfter Trace.dropped) = false /\
  endpointIndex (fst (connectWebSocket true (stateAfter Trace.dropped))) = 2%nat /\
  timers (fst (connectWebSocket true (stateAfter Trace.dropped)))
  = {[ 2%nat := reconnectDelay 1 ]}.
Proof.
  assert (Hrun : run initial Trace.dropped
                 = Some (stateAfter Trace.dropped, effectsOf Trace.dropped))
    by (vm_compute; reflexivity).
  assert (Hidle : connectedOrConnecting (stateAfter Trace.dropped) = false)
    by (vm_compute; reflexivity).
  split; [exact Hrun |]. split; [exact Hidle |].
  destruct (failed_constructor_schedules_reconnect _ _ _ Hrun Hidle)
    as (_ & _ & Hindex & _ & _ & Htimers & _).
  assert (Hseq : timerSeq (stateAfter Trace.dropped) = 2%nat)
    by (vm_compute; reflexivity).
  assert (Hattempt : reconnectAttempt (stateAfter Trace.dropped) = 1%nat)
    by (vm_compute; reflexivity).
  assert (Hcurrent : endpointIndex (stateAfter Trace.dropped) = 1%nat)
    by (vm_compute; reflexivity).
  rewrite Hcurrent in Hindex. rewrite Hseq, Hattempt in Htimers.
  split; [exact Hindex | exact Htimers].
Defined.

(** * Properties of the consumer *)

(** ** The lazy-load effect *)

Section LazyFill.
Context {number : Type} {Num : JSNumber number}.

(** The target is a symbol of the list whose record misses a window. *)
Lemma fillTarget_Some sortedSymbols m (st : State number) target :
  fillTarget sortedSymbols m st = Some target ->
  target ∈ sortedSymbols /\
  exists item, lookupRecord m st target = Some item /\ missingWindow item = true.
Proof.
  unfold fillTarget. intros Hfind. apply find_some in Hfind as [Hin Hp].
  split; [by apply list_elem_of_In |].
  destruct (lookupRecord m st target) as [item|]; [by exists item | done].
Qed.

(** The target depends on the map and the record objects only. *)
Lemma fillTarget_objects sortedSymbols m (st1 st2 : State number) :
  objects st1 = objects st2 ->
  fillTarget sortedSymbols m st1 = fillTarget sortedSymbols m st2.
Proof. intros Ho. unfold fillTarget, lookupRecord. by rewrite Ho. Qed.

Lemma set_pendingFetches_restored (X : gset string) (st : State number) :
  set_pendingFetches (pendingFetches st) (set_pendingFetches X st) = st.
Proof. by destruct st. Qed.

(** The tick, for the target that [find] selects. *)
Lemma fillNextEmpty_target
    (st : State number) (sortedSymbols : list string) (target : string)
    (reply1h reply4h : DetailReply) :
  fillTarget sortedSymbols (tickerMap st) st = Some target ->
  target <> "" ->
  target ∉ pendingFetches st ->
  let started := fillNextEmpty sortedSymbols (tickerMap st) st in
  let settled := settleDetailedStats target reply1h reply4h (fst started) in
  started = fetchDetailedStats target st /\
  snd started <> [] /\
  fillNextEmpty sortedSymbols (tickerMap st) (fst started) = (fst started, []) /\
  tickerMap (fst settled) = tickerMap st /\
  ((exists p1 p4, detailValue reply1h = Some (Some p1) /\
                  detailValue reply4h = Some (Some p4)) ->
   fillTarget sortedSymbols (tickerMap st) (fst settled) <> Some target) /\
  (detailValue reply1h = None \/ detailValue reply4h = None ->
   fst settled = st /\ snd settled = [] /\
   fillNextEmpty sortedSymbols (tickerMap st) (fst settled) = started).
Proof.
  intros Htarget Htruthy Hidle. cbv zeta.
  assert (Hname : String.eqb target "" = false) by (by apply String.eqb_neq).
  assert (Hstarted : fillNextEmpty sortedSymbols (tickerMap st) st
                     = fetchDetailedStats target st).
  { unfold fillNextEmpty. by rewrite Htarget, Hname. }
  rewrite Hstarted, (fetchDetailedStats_started _ _ Hidle). cbn [fst snd].
  set (flying := set_pendingFetches (pendingFetches st ∪ {[ target ]}) st).
  assert (Hin : target ∈ pendingFetches flying).
  { unfold flying. cbn [pendingFetches set_pendingFetches].
    apply elem_of_union. right. by apply elem_of_singleton. }
  assert (Hsame : fillTarget sortedSymbols (tickerMap st) flying = Some target).
  { by rewrite (fillTarget_objects _ _ flying st). }
  split; [done |]. split; [done |].
  split.
  { unfold fillNextEmpty. rewrite Hsame, Hname.
    unfold fetchDetailedStats. by rewrite (bool_decide_eq_true_2 _ Hin). }
  split.
  { unfold settleDetailedStats, andThen, update.
    cbn [fst tickerMap set_pendingFetches].
    by rewrite writeDetailedStats_tickerMap. }
  split.
  - intros (p1 & p4 & H1 & H4) Hagain.
    destruct (fillTarget_Some _ _ _ _ Htarget) as (_ & item & Hitem & _).
    pose proof (settleDetailedStats_record target reply1h reply4h flying item Hitem)
      as Hrecord.
    rewrite H1, H4 in Hrecord. cbv beta iota in Hrecord.
    apply fillTarget_Some in Hagain as (_ & item' & Hitem' & Hmissing).
    assert (Hlive : lookupRecord (tickerMap st)
                      (fst (settleDetailedStats target reply1h reply4h flying))
                      target
                    = record (fst (settleDetailedStats target reply1h reply4h flying))
                        target).
    { unfold record. f_equal.
      unfold settleDetailedStats, andThen, update.
      cbn [fst tickerMap set_pendingFetches].
      by rewrite writeDetailedStats_tickerMap. }
    rewrite Hlive, Hrecord in Hitem'. apply (inj Some) in Hitem'. subst item'.
    destruct (fillWindows_fields (Some p1) (Some p4) item)
      as (_ & _ & _ & _ & _ & Hf1 & Hf4).
    cbv zeta in Hf1, Hf4. unfold missingWindow in Hmissing.
    rewrite Hf1, Hf4 in Hmissing.
    by destruct (changePercent1h item), (changePercent4h item).
  - intros Hrejected.
    assert (Hnothing : writeDetailedStats target reply1h reply4h flying
                       = (flying, [])).
    { unfold writeDetailedStats.
      destruct Hrejected as [-> | ->]; [done |].
      by destruct (detailValue reply1h). }
    assert (Hback : settleDetailedStats target reply1h reply4h flying = (st, [])).
    { unfold settleDetailedStats, andThen, update. rewrite Hnothing.
      cbn [fst snd app pendingFetches set_pendingFetches]. f_equal.
      unfold flying. cbn [pendingFetches set_pendingFetches].
      rewrite (union_difference_singleton _ _ Hidle).
      apply set_pendingFetches_restored. }
    rewrite Hback. cbn [fst snd]. split; [done |]. split; [done |].
    rewrite Hstarted. by apply fetchDetailedStats_started.
Qed.

(** [find] selects the first symbol of the list whose record misses a
    window: the symbols before it have no record or a complete one. *)
Lemma fillTarget_first (st : State number) before target after item :
  Forall (fun sym => match record st sym with
                     | Some r => missingWindow r = false
                     | None => True
                     end) before ->
  record st target = Some item ->
  missingWindow item = true ->
  fillTarget (before ++ target :: after) (tickerMap st) st = Some target.
Proof.
  unfold fillTarget, record. intros Hbefore Hitem Hmissing.
  induction Hbefore as [|sym before Hsym _ IH]; cbn [app find].
  - by rewrite Hitem, Hmissing.
  - destruct (lookupRecord (tickerMap st) st sym) as [r|]; [by rewrite Hsym |].
    exact IH.
Qed.

Lemma fillTarget_none (st : State number) symbols :
  Forall (fun sym => match record st sym with
                     | Some r => missingWindow r = false
                     | None => True
                     end) symbols ->
  fillTarget symbols (tickerMap st) st = None.
Proof.
  unfold fillTarget, record. intros Hall.
  induction Hall as [|sym symbols Hsym _ IH]; cbn [find]; [done |].
  destruct (lookupRecord (tickerMap st) st sym) as [r|]; [by rewrite Hsym |].
  exact IH.
Qed.

(** X17.  The lazy-load timer of the application, on the map the service
    holds.  The tick starts the backfill of the first symbol of the list
    whose record misses a window: the symbols listed before it have no
    record or a complete one, whatever follows it in the list; when no
    listed symbol has a record that misses a window, the tick does
    nothing.  With no fetch in flight for that symbol, the ticks that
    follow while the fetch is in flight send nothing; when both replies
    are truthy the symbol is no longer the target afterwards; when a
    request rejects, the state is the one before the tick, nobody is
    called, and the next tick starts the backfill of the same symbol
    again. *)
Theorem lazy_fill_retries_until_filled
    (st : State number) (before after : list string) (target : string)
    (item : TickerData number) (reply1h reply4h : DetailReply) :
  Forall (fun sym => match record st sym with
                     | Some r => missingWindow r = false
                     | None => True
                     end) before ->
  record st target = Some item ->
  missingWindow item = true ->
  target <> "" ->
  target ∉ pendingFetches st ->
  let sortedSymbols := before ++ target :: after in
  let started := fillNextEmpty sortedSymbols (tickerMap st) st in
  let settled := settleDetailedStats target reply1h reply4h (fst started) in
  fillTarget sortedSymbols (tickerMap st) st = Some target /\
  started = fetchDetailedStats target st /\
  snd started <> [] /\
  fillNextEmpty sortedSymbols (tickerMap st) (fst started) = (fst started, []) /\
  tickerMap (fst settled) = tickerMap st /\
  ((exists p1 p4, detailValue reply1h = Some (Some p1) /\
                  detailValue reply4h = Some (Some p4)) ->
   fillTarget sortedSymbols (tickerMap st) (fst settled) <> Some target) /\
  (detailValue reply1h = None \/ detailValue reply4h = None ->
   fst settled = st /\ snd settled = [] /\
   fillNextEmpty sortedSymbols (tickerMap st) (fst settled) = started) /\
  (forall symbols,
     Forall (fun sym => match record st sym with
                        | Some r => missingWindow r = false
                        | None => True
                        end) symbols ->
     fillNextEmpty symbols (tickerMap st) st = (st, [])).
Proof.
  intros Hbefore Hitem Hmissing Hname Hidle. cbv zeta.
  pose proof (fillTarget_first st before target after item Hbefore Hitem Hmissing)
    as Htarget.
  split; [exact Htarget |].
  destruct (fillNextEmpty_target st (before ++ target :: after) target
              reply1h reply4h Htarget Hname Hidle)
    as (H1 & H2 & H3 & H4 & H5 & H6).
  cbv zeta in H1, H2, H3, H4, H5, H6.
  repeat (split; [assumption |]).
  intros symbols Hall. unfold fillNextEmpty.
  by rewrite (fillTarget_none _ _ Hall).
Qed.

End LazyFill.

Lemma lazy_fill_retries_until_filled_witness :
  let st := stateAfter Trace.twoIncomplete in
  let sortedSymbols := ["XRPUSDT"; "BTCUSDT"; "ETHUSDT"] in
  record st "XRPUSDT" = None /\
  (missingWindow <$> record st "BTCUSDT") = Some true /\
  (missingWindow <$> record st "ETHUSDT") = Some true /\
  ("BTCUSDT" ∉ pendingFetches st) /\
  fillTarget sortedSymbols (tickerMap st) st = Some "BTCUSDT" /\
  fillTarget sortedSymbols (tickerMap st)
    (fst (settleDetailedStats "BTCUSDT"
            (Http 200 (Shaped (Some "1.1"))) (Http 200 (Shaped (Some "2.2")))
            (fst (fillNextEmpty sortedSymbols (tickerMap st) st))))
  <> Some "BTCUSDT".
Proof.
  cbv zeta.
  assert (Habsent : record (stateAfter Trace.twoIncomplete) "XRPUSDT" = None)
    by (vm_compute; reflexivity).
  assert (Hitem :
    record (stateAfter Trace.twoIncomplete) "BTCUSDT"
    = Some (mkTickerData "BTCUSDT" (Decimal.Dec 50000) (Decimal.Dec 1000000000)
              None None (Decimal.Dec (5 # 2)) noDescriptive))
    by (vm_compute; reflexivity).
  assert (Hother :
    (missingWindow <$> record (stateAfter Trace.twoIncomplete) "ETHUSDT")
    = Some true)
    by (vm_compute; reflexivity).
  assert (Hbefore :
    Forall (fun sym => match record (stateAfter Trace.twoIncomplete) sym with
                       | Some r => missingWindow r = false
                       | None => True
                       end) ["XRPUSDT"]).
  { constructor; [by rewrite Habsent | constructor]. }
  assert (Hname : "BTCUSDT" <> "") by discriminate.
  assert (Hidle : "BTCUSDT" ∉ pendingFetches (stateAfter Trace.twoIncomplete))
    by (vm_compute; intros H; discriminate H).
  split; [exact Habsent |]. split; [by rewrite Hitem |].
  split; [exact Hother |]. split; [exact Hidle |].
  destruct (lazy_fill_retries_until_filled (stateAfter Trace.twoIncomplete)
              ["XRPUSDT"] ["ETHUSDT"] "BTCUSDT" _
              (Http 200 (Shaped (Some "1.1"))) (Http 200 (Shaped (Some "2.2")))
              Hbefore Hitem eq_refl Hname Hidle)
    as (Htarget & _ & _ & _ & _ & Hfilled & _).
  split; [exact Htarget |].
  apply Hfilled. exists (Some "1.1"), (Some "2.2"). split; reflexivity.
Defined.

(** ** Quote assets in the table *)

Section QuoteFilters.
Import JSString.

Lemma getQuoteAsset_known sym quote :
  getQuoteAsset sym = Some quote ->
  quote ∈ KNOWN_QUOTE_ASSETS /\ isSuffixOf quote sym.
Proof.
  intros Hq. apply firstQuoteAsset_Some in Hq as (before & after & Hlist & Hsuf & _).
  split; [|done]. rewrite Hlist. apply elem_of_app. right. by left.
Qed.

Lemma known_quote_named quote :
  quote ∈ KNOWN_QUOTE_ASSETS -> quote <> "" /\ quote <> "ALL".
Proof.
  intros Hin. apply list_elem_of_In in Hin. cbn in Hin.
  repeat (destruct Hin as [<-|Hin]; [by split |]). destruct Hin.
Qed.

Lemma substring_append_l (p a : string) :
  String.substring 0 (String.length p) (String.append p a) = p.
Proof.
  induction p as [|c p IH].
  - by destruct a.
  - change (String c (String.substring 0 (String.length p) (String.append p a))
            = String c p).
    by rewrite IH.
Qed.

(** X18.  The base asset the search box matches against is the symbol
    without its quote asset: when [getQuoteAsset] resolves the symbol,
    the base followed by the quote asset is the symbol again, and the base
    is shorter than the symbol; when it does not, the base is the whole
    symbol. *)
Theorem searchBase_strips_quote (sym : string) :
  match getQuoteAsset sym with
  | Some quote =>
      searchBase sym +:+ quote = sym /\
      (String.length (searchBase sym) < String.length sym)%nat
  | None => searchBase sym = sym
  end.
Proof.
  unfold searchBase. destruct (getQuoteAsset sym) as [quote|] eqn:Hq; [|done].
  destruct (getQuoteAsset_known _ _ Hq) as [Hknown [p Hp]].
  destruct (known_quote_named _ Hknown) as [Hne _].
  rewrite (proj2 (String.eqb_neq quote "") Hne).
  assert (Hlen : (String.length sym - String.length quote)%nat = String.length p).
  { rewrite Hp, length_append. lia. }
  rewrite Hlen.
  assert (Hbase : String.substring 0 (String.length p) sym = p)
    by (rewrite Hp; apply substring_append_l).
  rewrite Hbase. split; [done |].
  rewrite Hp, length_append.
  destruct quote as [|c quote]; [done |].
  change (String.length (String c quote)) with (S (String.length quote)). lia.
Qed.

Lemma countAsset_other counts sym key :
  getQuoteAsset sym <> Some key ->
  countAsset counts sym !! key = counts !! key.
Proof.
  intros Hne. unfold countAsset.
  destruct (getQuoteAsset sym) as [quote|]; [|done].
  destruct (String.eqb quote ""); [done |].
  rewrite lookup_insert_ne; [done |]. by intros ->.
Qed.

Lemma countAsset_counted counts sym quote :
  getQuoteAsset sym = Some quote ->
  countAsset counts sym !! quote = Some (S (default 0%nat (counts !! quote))).
Proof.
  intros Hq. unfold countAsset. rewrite Hq.
  destruct (getQuoteAsset_known _ _ Hq) as [Hknown _].
  destruct (known_quote_named _ Hknown) as [Hne _].
  rewrite (proj2 (String.eqb_neq quote "") Hne), lookup_insert_eq.
  f_equal. lia.
Qed.

(** The number of symbols that [getQuoteAsset] resolves to [quote]. *)
Lemma counts_fold symbols counts quote :
  default 0%nat (foldl countAsset counts symbols !! quote)
  = (default 0%nat (counts !! quote)
     + length (filter (fun sym => getQuoteAsset sym = Some quote) symbols))%nat.
Proof.
  revert counts. induction symbols as [|sym symbols IH]; intros counts; cbn [foldl].
  - rewrite filter_nil. cbn. lia.
  - rewrite IH. destruct (decide (getQuoteAsset sym = Some quote)) as [Hq|Hq].
    + rewrite (countAsset_counted _ _ _ Hq), filter_cons_True by done. cbn. lia.
    + rewrite (countAsset_other _ _ _ Hq), filter_cons_False by done. lia.
Qed.

Lemma counts_fold_all symbols counts :
  foldl countAsset counts symbols !! "ALL" = counts !! "ALL".
Proof.
  revert counts. induction symbols as [|sym symbols IH]; intros counts; [done |].
  cbn [foldl]. rewrite IH. apply countAsset_other.
  intros Hq. apply getQuoteAsset_known in Hq as [Hknown _].
  by destruct (known_quote_named _ Hknown).
Qed.

Lemma filter_sublist {A : Type} (p : A -> bool) (l : list A) :
  sublist (List.filter p l) l.
Proof.
  induction l as [|x l IH]; cbn [List.filter]; [done |].
  destruct (p x); [by apply sublist_skip | by apply sublist_cons].
Qed.

(** X19.  The counters of the filter menu and the rows of the table.  The
    counter ALL is the number of records, and the counter of any other
    asset (read as 0 when absent) is the number of records whose symbol
    [getQuoteAsset] resolves to that asset.  With that one asset selected,
    [spotWidthData] keeps exactly the symbols that end with the asset,
    whichever asset they resolve to, so it has at least as many entries as
    the counter says.  The rows shown, [filteredData], are taken from
    [spotWidthData] in the same order, the favourites filter and the search
    filter removing further rows; they are all of [spotWidthData] in market
    view with an empty search text, and only then are they sure to be as
    many as the counter says. *)
Theorem asset_counts_and_filter (symbols : list string) (asset : string) :
  assetCounts symbols !! "ALL" = Some (length symbols) /\
  (asset <> "ALL" ->
   default 0%nat (assetCounts symbols !! asset)
   = length (filter (fun sym => getQuoteAsset sym = Some asset) symbols) /\
   spotWidthData [asset] symbols
   = List.filter (fun sym => endsWith sym asset) symbols /\
   (default 0%nat (assetCounts symbols !! asset)
    <= length (spotWidthData [asset] symbols))%nat) /\
  (forall toUpperCase viewMode favorites selectedAssets searchQuery,
     sublist (filteredData toUpperCase viewMode favorites selectedAssets
                searchQuery symbols)
             (spotWidthData selectedAssets symbols)) /\
  (forall toUpperCase favorites selectedAssets,
     filteredData toUpperCase Market favorites selectedAssets "" symbols
     = spotWidthData selectedAssets symbols).
Proof.
  unfold assetCounts. split.
  { by rewrite counts_fold_all, lookup_singleton_eq. }
  split; [|split].
  - intros Hasset.
    assert (Hcount :
      default 0%nat (foldl countAsset {[ "ALL" := length symbols ]} symbols !! asset)
      = length (filter (fun sym => getQuoteAsset sym = Some asset) symbols)).
    { rewrite counts_fold, lookup_singleton_ne by done. done. }
    assert (Hfilter : spotWidthData [asset] symbols
                      = List.filter (fun sym => endsWith sym asset) symbols).
    { unfold spotWidthData. cbn [existsb].
      rewrite (proj2 (String.eqb_neq "ALL" asset)) by (by intros <-).
      cbn [orb]. apply List.filter_ext. intros sym. by rewrite orb_false_r. }
    split; [exact Hcount |]. split; [exact Hfilter |].
    rewrite Hcount, Hfilter. clear.
    induction symbols as [|sym symbols IH]; [done |].
    cbn [List.filter].
    destruct (decide (getQuoteAsset sym = Some asset)) as [Hq|Hq].
    + rewrite filter_cons_True by done.
      apply getQuoteAsset_known in Hq as [_ Hsuf].
      apply endsWith_spec in Hsuf. rewrite Hsuf. cbn [length]. lia.
    + rewrite filter_cons_False by done.
      destruct (endsWith sym asset); cbn [length]; lia.
  - intros toUpperCase viewMode favorites selectedAssets searchQuery.
    unfold filteredData, spotWidthData. cbv zeta.
    assert (Hfav : sublist
              match viewMode with
              | Favorites =>
                  List.filter (fun sym => bool_decide (sym ∈ favorites)) symbols
              | Market => symbols
              end symbols)
      by (destruct viewMode; [done | apply filter_sublist]).
    revert Hfav.
    generalize (match viewMode with
                | Favorites =>
                    List.filter (fun sym => bool_decide (sym ∈ favorites)) symbols
                | Market => symbols
                end).
    intros shown Hfav.
    assert (Hasset : sublist
              (if negb (existsb (String.eqb "ALL") selectedAssets)
               then List.filter
                      (fun sym => existsb (endsWith sym) selectedAssets) shown
               else shown)
              (if existsb (String.eqb "ALL") selectedAssets then symbols
               else List.filter
                      (fun sym => existsb (endsWith sym) selectedAssets) symbols)).
    { destruct (existsb (String.eqb "ALL") selectedAssets); cbn [negb]; [done |].
      clear -Hfav. induction Hfav as [|x l1 l2 _ IH|x l1 l2 _ IH];
        cbn [List.filter]; [done | |].
      - destruct (existsb (endsWith x) selectedAssets);
          [by apply sublist_skip | done].
      - destruct (existsb (endsWith x) selectedAssets);
          [by apply sublist_cons | done]. }
    destruct (negb (String.eqb searchQuery "")); [|done].
    etrans; [apply filter_sublist | exact Hasset].
  - intros toUpperCase favorites selectedAssets.
    unfold filteredData, spotWidthData.
    destruct (existsb (String.eqb "ALL") selectedAssets); reflexivity.
Qed.

End QuoteFilters.

Lemma asset_counts_and_filter_witness :
  "EUR" <> "ALL" /\
  default 0%nat (assetCounts ["BTCEUR"; "BTCAEUR"; "ETHBTC"] !! "EUR") = 1%nat /\
  spotWidthData ["EUR"] ["BTCEUR"; "BTCAEUR"; "ETHBTC"] = ["BTCEUR"; "BTCAEUR"].
Proof.
  assert (Hasset : "EUR" <> "ALL") by discriminate.
  split; [exact Hasset |].
  destruct (asset_counts_and_filter ["BTCEUR"; "BTCAEUR"; "ETHBTC"] "EUR")
    as (_ & Hrest & _).
  destruct (Hrest Hasset) as (Hcount & Hfilter & _).
  split.
  - rewrite Hcount. vm_compute. reflexivity.
  - rewrite Hfilter. vm_compute. reflexivity.
Defined.
